(** * learning-software-engineering: the TypeScript teaching examples, verified

    A shallow embedding of the runnable TypeScript of the repository:

    - the Express error-handling example ([excepciones/ejemplo]): the
      exception classes, the [ApiResponseBuilder], the trace-id middleware,
      the global [errorHandler], the Map-backed users router and the
      application that mounts them;
    - the Clean Code exercise: the badly named [TaskMgr] and its refactoring
      [TaskManager];
    - the cohesion/coupling examples: [GestorProcesoCompra], [Orden], the
      inventory implementations and the processing of an order.

    Conventions of the embedding.
    - A JavaScript string is the list of its UTF-16 code units.
    - Reading a property that is absent yields [undefined]; an optional field
      is an [option], with [None] for [undefined].
    - What [uuidv4()], [Math.random()] and [new Date()] return is an input of
      the function that calls them.
    - [console.log] and [console.error] write to the terminal only; they are
      not part of the modelled state. *)

From stdpp Require Import gmap list strings.
From Stdlib Require Import ZArith NArith Lia.

Set Default Proof Using "Type".
Set Warnings "-register-all".

(* ===================================================================== *)
(** * JavaScript values *)
(* ===================================================================== *)

Module JS.

(** A string: its UTF-16 code units. *)
Abbreviation jsstring := (list N).

(** An ASCII literal of the source. *)
Definition lit (s : string) : jsstring :=
  Ascii.N_of_ascii <$> String.list_ascii_of_string s.

(** [!!s] for a string: only the empty string is falsy. *)
Definition truthy (s : jsstring) : bool :=
  match s with
  | [] => false
  | _ :: _ => true
  end.

(** [!!v] for a property that holds a string or is absent. *)
Definition truthy_opt (v : option jsstring) : bool :=
  match v with
  | Some s => truthy s
  | None => false
  end.

(** [v || d], for [v] a string or [undefined] and [d] a string. *)
Definition or_else (v : option jsstring) (d : jsstring) : jsstring :=
  match v with
  | Some s => if truthy s then s else d
  | None => d
  end.

(** [a === b] on strings. *)
Definition streq (a b : jsstring) : bool := bool_decide (a = b).

(** A value of type [unknown], as far as the examples build one. *)
Inductive JsValue : Type :=
| JNull
| JBool (b : bool)
| JNum (n : Z)
| JStr (s : jsstring)
| JArr (items : list JsValue)
| JObj (fields : list (jsstring * JsValue)).

(** [new Date()]: milliseconds since the epoch. *)
Abbreviation Date := Z (only parsing).

End JS.

(* ===================================================================== *)
(** * Regular expressions, as far as [emailRegex] needs them *)
(* ===================================================================== *)

Module Regex.
Import JS.

(** A member of a character class: [\s] or a single character. *)
Inductive ClassAtom : Type :=
| ClassSpace
| ClassChar (c : N).

(** What consumes one code unit: a literal, or a negated class [[^...]]. *)
Inductive Atom : Type :=
| Literal (c : N)
| NegClass (members : list ClassAtom).

(** An atom, alone or under [+]. *)
Inductive Term : Type :=
| Once (a : Atom)
| OneOrMore (a : Atom).

(** The terms between [^] and [$]; without the [m] flag these anchor the
    match to the whole input. *)
Abbreviation Pattern := (list Term).

(** ECMAScript [\s]: WhiteSpace and LineTerminator code points. *)
Definition is_white_space (c : N) : bool :=
  ((9 <=? c) && (c <=? 13)
   || (c =? 32) || (c =? 160) || (c =? 5760)
   || (8192 <=? c) && (c <=? 8202)
   || (c =? 8232) || (c =? 8233) || (c =? 8239) || (c =? 8287)
   || (c =? 12288) || (c =? 65279))%N.

Definition class_atom_matches (m : ClassAtom) (c : N) : bool :=
  match m with
  | ClassSpace => is_white_space c
  | ClassChar x => (x =? c)%N
  end.

Definition atom_matches (a : Atom) (c : N) : bool :=
  match a with
  | Literal x => (x =? c)%N
  | NegClass members => negb (existsb (fun m => class_atom_matches m c) members)
  end.

(** The backtracking matcher: [a+] takes one [a], then either goes on taking
    (greedy) or hands over to the rest of the pattern. *)
Fixpoint exec (p : Pattern) (s : jsstring) : bool :=
  match p with
  | [] => match s with [] => true | _ :: _ => false end
  | Once a :: p' =>
      match s with
      | c :: s' => atom_matches a c && exec p' s'
      | [] => false
      end
  | OneOrMore a :: p' =>
      (fix more (s : jsstring) : bool :=
         match s with
         | c :: s' => atom_matches a c && (more s' || exec p' s')
         | [] => false
         end) s
  end.

(** [re.test(s)]. *)
Definition test (re : Pattern) (s : jsstring) : bool := exec re s.

(** ['@'] and ['.']. *)
Definition at_sign : N := 64.
Definition dot : N := 46.

(** [[^\s@]]. *)
Definition not_space_at : Atom := NegClass [ClassSpace; ClassChar at_sign].

(** [/^[^\s@]+@[^\s@]+\.[^\s@]+$/]. *)
Definition emailRegex : Pattern :=
  [OneOrMore not_space_at; Once (Literal at_sign);
   OneOrMore not_space_at; Once (Literal dot);
   OneOrMore not_space_at].

(** The strings a pattern denotes. *)
Inductive matches : Pattern -> jsstring -> Prop :=
| matches_end : matches [] []
| matches_once a p c s :
    atom_matches a c = true -> matches p s -> matches (Once a :: p) (c :: s)
| matches_more a p cs s :
    cs <> [] -> Forall (fun c => atom_matches a c = true) cs ->
    matches p s -> matches (OneOrMore a :: p) (cs ++ s).


(** A code unit that [[^\s@]] takes. *)
Definition plain (c : N) : Prop := is_white_space c = false /\ c <> at_sign.

End Regex.

(* ===================================================================== *)
(** * The Express example: exceptions and response types *)
(* ===================================================================== *)

(** [exceptions/base-exception.ts], [not-found.exception.ts],
    [bad-request.exception.ts]. *)
Module Exceptions.
Import JS.

(** The classes below [Error] that the example declares. *)
Inductive ExceptionClass : Type :=
| ClsBaseException
| ClsNotFoundException
| ClsBadRequestException.

(** An [Error] object: a plain [Error] with its message, or an instance of
    [BaseException] (of the class itself or of a subclass) with the four
    fields its constructor stores. *)
Inductive Error : Type :=
| PlainError (message : jsstring)
| Exception (cls : ExceptionClass) (status : Z) (code message : jsstring)
            (details : option JsValue).

(** [new BaseException(status, code, message, details)]. *)
Definition BaseException (status : Z) (code message : jsstring)
    (details : option JsValue) : Error :=
  Exception ClsBaseException status code message details.

(** [new NotFoundException(message = 'Recurso no encontrado', details?)]. *)
Definition NotFoundException (message : option jsstring)
    (details : option JsValue) : Error :=
  Exception ClsNotFoundException 404 (lit "NOT_FOUND")
    (default (lit "Recurso no encontrado") message) details.

(** [new BadRequestException(message = 'Solicitud inválida', details?)];
    code unit 225 is the a with acute accent. *)
Definition BadRequestException (message : option jsstring)
    (details : option JsValue) : Error :=
  Exception ClsBadRequestException 400 (lit "BAD_REQUEST")
    (default (lit "Solicitud inv" ++ [225%N] ++ lit "lida") message) details.

(** [error instanceof BaseException]. *)
Definition instanceof_BaseException (error : Error) : bool :=
  match error with
  | PlainError _ => false
  | Exception _ _ _ _ _ => true
  end.

(** [error instanceof NotFoundException]. *)
Definition instanceof_NotFoundException (error : Error) : bool :=
  match error with
  | Exception ClsNotFoundException _ _ _ _ => true
  | _ => false
  end.

(** [error instanceof BadRequestException]. *)
Definition instanceof_BadRequestException (error : Error) : bool :=
  match error with
  | Exception ClsBadRequestException _ _ _ _ => true
  | _ => false
  end.

(** [error.message]. *)
Definition message (error : Error) : jsstring :=
  match error with
  | PlainError m => m
  | Exception _ _ _ m _ => m
  end.

End Exceptions.

(** [types/api-response.ts]. *)
Module ApiResponse.
Import JS.

(** [interface ApiResponse<T>]. The trace id is whatever [req.traceId]
    holds when the response is built, which is [undefined] as long as the
    trace middleware has not run. *)
Record t (T : Type) : Type := mk {
  traceId : option jsstring;
  status : Z;
  code : jsstring;
  message : jsstring;
  data : option T;
  details : option JsValue
}.
Arguments mk {T}.
Arguments traceId {T}.
Arguments status {T}.
Arguments code {T}.
Arguments message {T}.
Arguments data {T}.
Arguments details {T}.

End ApiResponse.

(** [class ApiResponseBuilder<T>]: the builder is its private [response]. *)
Module ApiResponseBuilder.
Import JS.

Section Builder.
Context {T : Type}.

Definition new (traceId : option jsstring) : ApiResponse.t T :=
  ApiResponse.mk traceId 200 (lit "SUCCESS") [] None None.

Definition setStatus (status : Z) (this : ApiResponse.t T) : ApiResponse.t T :=
  ApiResponse.mk (ApiResponse.traceId this) status (ApiResponse.code this)
    (ApiResponse.message this) (ApiResponse.data this) (ApiResponse.details this).

Definition setCode (code : jsstring) (this : ApiResponse.t T) : ApiResponse.t T :=
  ApiResponse.mk (ApiResponse.traceId this) (ApiResponse.status this) code
    (ApiResponse.message this) (ApiResponse.data this) (ApiResponse.details this).

Definition setMessage (message : jsstring) (this : ApiResponse.t T) : ApiResponse.t T :=
  ApiResponse.mk (ApiResponse.traceId this) (ApiResponse.status this)
    (ApiResponse.code this) message (ApiResponse.data this) (ApiResponse.details this).

Definition setData (data : T) (this : ApiResponse.t T) : ApiResponse.t T :=
  ApiResponse.mk (ApiResponse.traceId this) (ApiResponse.status this)
    (ApiResponse.code this) (ApiResponse.message this) (Some data)
    (ApiResponse.details this).

Definition setDetails (details : option JsValue) (this : ApiResponse.t T)
    : ApiResponse.t T :=
  ApiResponse.mk (ApiResponse.traceId this) (ApiResponse.status this)
    (ApiResponse.code this) (ApiResponse.message this) (ApiResponse.data this)
    details.

Definition build (this : ApiResponse.t T) : ApiResponse.t T := this.

(** One call of a setter, and a chain of such calls on a builder: the ways
    a client can use the builder between [new] and [build]. *)
Inductive Setter : Type :=
| SetStatus (status : Z)
| SetCode (code : jsstring)
| SetMessage (message : jsstring)
| SetData (data : T)
| SetDetails (details : option JsValue).

Definition call (this : ApiResponse.t T) (s : Setter) : ApiResponse.t T :=
  match s with
  | SetStatus status => setStatus status this
  | SetCode code => setCode code this
  | SetMessage message => setMessage message this
  | SetData data => setData data this
  | SetDetails details => setDetails details this
  end.

Definition chain (calls : list Setter) (this : ApiResponse.t T) : ApiResponse.t T :=
  fold_left call calls this.

Definition is_SetStatus (s : Setter) : bool :=
  match s with SetStatus _ => true | _ => false end.
Definition is_SetCode (s : Setter) : bool :=
  match s with SetCode _ => true | _ => false end.
Definition is_SetMessage (s : Setter) : bool :=
  match s with SetMessage _ => true | _ => false end.
Definition is_SetData (s : Setter) : bool :=
  match s with SetData _ => true | _ => false end.
Definition is_SetDetails (s : Setter) : bool :=
  match s with SetDetails _ => true | _ => false end.

End Builder.
Arguments Setter : clear implicits.

End ApiResponseBuilder.

(** The parts of Express's [Request] and [Response] that the example uses. *)
Module Http.
Import JS.

(** The user of [types/user]; its fields are those the router reads and
    writes. *)
Record User : Type := mkUser {
  id : jsstring;
  name : jsstring;
  email : jsstring;
  createdAt : Date
}.

(** [req.body] as a client of the declared [User] type sends it: each of
    the two fields the router reads is a string or absent. The handlers
    themselves read [req.body] untyped; module [AnyBody] has them on bodies
    of any JSON shape, and what is said of the checks on email and name is
    said there. *)
Record Body : Type := mkBody {
  body_email : option jsstring;
  body_name : option jsstring
}.

(** [req.body[field]]. *)
Definition body_get (body : Body) (field : jsstring) : option jsstring :=
  if streq field (lit "email") then body_email body
  else if streq field (lit "name") then body_name body
  else None.

Record Request : Type := mkRequest {
  req_headers : gmap jsstring jsstring;
  traceId : option jsstring;
  params_id : jsstring;
  body : Body
}.

(** The object literal that [errorHandler] sends. *)
Record ErrorResponse : Type := mkErrorResponse {
  err_traceId : option jsstring;
  err_status : Z;
  err_code : jsstring;
  err_message : jsstring;
  err_details : option JsValue
}.

(** What [res.json] is given. *)
Inductive Payload : Type :=
| UserPayload (response : ApiResponse.t User)
| UsersPayload (response : ApiResponse.t (list User))
| VoidPayload (response : ApiResponse.t Empty_set)
| ErrorPayload (response : ErrorResponse).

Record Response : Type := mkResponse {
  res_headers : gmap jsstring jsstring;
  statusCode : Z;
  sent : option Payload
}.

(** [res.setHeader(name, value)]. *)
Definition setHeader (name value : jsstring) (res : Response) : Response :=
  mkResponse (<[name := value]> (res_headers res)) (statusCode res) (sent res).

(** [res.status(code)]. *)
Definition status (code : Z) (res : Response) : Response :=
  mkResponse (res_headers res) code (sent res).

(** [res.json(payload)]. *)
Definition json (payload : Payload) (res : Response) : Response :=
  mkResponse (res_headers res) (statusCode res) (Some payload).

End Http.

(** [middleware/trace.middleware.ts] and
    [middleware/error-handler.middleware.ts]. *)
Module Middleware.
Import JS.

(** [traceMiddleware(req, res, next)]; [uuid] is what [uuidv4()] returns if
    it is called. The result is the request and the response as [next()]
    finds them. *)
Definition traceMiddleware (uuid : jsstring) (req : Http.Request)
    (res : Http.Response) : Http.Request * Http.Response :=
  let traceId := or_else (Http.req_headers req !! lit "x-trace-id") uuid in
  let req := Http.mkRequest (Http.req_headers req) (Some traceId)
               (Http.params_id req) (Http.body req) in
  let res := Http.setHeader (lit "x-trace-id") traceId res in
  (req, res).

(** The [response] literal of [errorHandler]. *)
Definition errorResponse (error : Exceptions.Error) (req : Http.Request)
    : Http.ErrorResponse :=
  Http.mkErrorResponse
    (Http.traceId req)
    (match error with
     | Exceptions.Exception _ status _ _ _ => status
     | Exceptions.PlainError _ => 500
     end)
    (match error with
     | Exceptions.Exception _ _ code _ _ => code
     | Exceptions.PlainError _ => lit "INTERNAL_SERVER_ERROR"
     end)
    (or_else (Some (Exceptions.message error)) (lit "Error interno del servidor"))
    (match error with
     | Exceptions.Exception _ _ _ _ details => details
     | Exceptions.PlainError _ => None
     end).

(** [errorHandler(error, req, res, next)]. *)
Definition errorHandler (error : Exceptions.Error) (req : Http.Request)
    (res : Http.Response) : Http.Response :=
  let response := errorResponse error req in
  Http.json (Http.ErrorPayload response)
    (Http.status (Http.err_status response) res).

End Middleware.

(* ===================================================================== *)
(** * The Express example: the users router *)
(* ===================================================================== *)

(** [routes/users.routes.ts]. *)
Module UsersRoutes.
Import JS.

(** The module-level [users] Map. *)
Abbreviation Users := (gmap jsstring Http.User).

(** A handler body runs against the [users] Map and either completes or
    throws; what it did to the Map before throwing stays done. *)
Definition M (A : Type) : Type := Users -> Users * (Exceptions.Error + A).

Definition ret {A} (a : A) : M A := fun users => (users, inr a).

Definition throw {A} (error : Exceptions.Error) : M A :=
  fun users => (users, inl error).

Definition bind {A B} (m : M A) (k : A -> M B) : M B :=
  fun users =>
    match m users with
    | (users', inr a) => k a users'
    | (users', inl error) => (users', inl error)
    end.

Notation "x <~ m ;; k" := (bind m (fun x => k))
  (at level 100, m at next level, right associativity).
Notation "m ;;; k" := (bind m (fun _ => k))
  (at level 100, right associativity).

(** [users.get(id)], [users.has(id)], [users.set(id, user)],
    [users.delete(id)], [Array.from(users.values())]. *)
Definition users_get (id : jsstring) : M (option Http.User) :=
  fun users => (users, inr (users !! id)).

Definition users_has (id : jsstring) : M bool :=
  fun users => (users, inr (bool_decide (is_Some (users !! id)))).

Definition users_set (id : jsstring) (user : Http.User) : M unit :=
  fun users => (<[id := user]> users, inr tt).

Definition users_delete (id : jsstring) : M unit :=
  fun users => (delete id users, inr tt).

Definition users_values : M (list Http.User) :=
  fun users => (users, inr (snd <$> map_to_list users)).

(** How a handler ends: it has sent [res], or its [catch] has called
    [next(error)]. *)
Inductive Outcome : Type :=
| Sent (res : Http.Response)
| Next (error : Exceptions.Error).

(** [try { ... } catch (error) { next(error); }]. *)
Definition try_catch_next (body : M Http.Response) (users : Users)
    : Users * Outcome :=
  match body users with
  | (users', inr res) => (users', Sent res)
  | (users', inl error) => (users', Next error)
  end.

(** A value that is truthy is a non-empty string: what [if (v)] lets
    through. *)
Definition narrow (v : option jsstring) : option jsstring :=
  match v with
  | Some s => if truthy s then Some s else None
  | None => None
  end.

Notation "b |> f" := (f b) (at level 45, left associativity, only parsing).

(** Code unit 225 is the a with acute accent. *)
Definition msg_not_found (userId : jsstring) : jsstring :=
  lit "Usuario " ++ userId ++ lit " no encontrado".
Definition msg_invalid_email : jsstring :=
  lit "Formato de email inv" ++ [225%N] ++ lit "lido".
Definition msg_email_taken : jsstring :=
  lit "El email ya est" ++ [225%N] ++ lit " registrado".

(** [router.get('/users/:id', ...)]. *)
Definition get_user (req : Http.Request) (res : Http.Response)
    : Users -> Users * Outcome :=
  try_catch_next (
    let userId := Http.params_id req in
    user <~ users_get userId ;;
    match user with
    | None =>
        throw (Exceptions.NotFoundException (Some (msg_not_found userId)) None)
    | Some user =>
        let response :=
          ApiResponseBuilder.new (Http.traceId req)
          |> ApiResponseBuilder.setStatus 200
          |> ApiResponseBuilder.setCode (lit "USER_FOUND")
          |> ApiResponseBuilder.setMessage (lit "Usuario encontrado exitosamente")
          |> ApiResponseBuilder.setData user
          |> ApiResponseBuilder.build in
        ret (res |> Http.status 200 |> Http.json (Http.UserPayload response))
    end).

(** [router.get('/users', ...)]. *)
Definition get_users (req : Http.Request) (res : Http.Response)
    : Users -> Users * Outcome :=
  try_catch_next (
    userList <~ users_values ;;
    let response :=
      ApiResponseBuilder.new (Http.traceId req)
      |> ApiResponseBuilder.setStatus 200
      |> ApiResponseBuilder.setCode (lit "USERS_FOUND")
      |> ApiResponseBuilder.setMessage (lit "Usuarios recuperados exitosamente")
      |> ApiResponseBuilder.setData userList
      |> ApiResponseBuilder.build in
    ret (res |> Http.status 200 |> Http.json (Http.UsersPayload response))).

(** [['email', 'name'].filter(field => !req.body[field])]. *)
Definition missing_fields (body : Http.Body) : list jsstring :=
  List.filter (fun field => negb (truthy_opt (Http.body_get body field)))
    [lit "email"; lit "name"].

(** [router.post('/users', ...)]; [uuid] is what [uuidv4()] returns and
    [now] what [new Date()] returns. *)
Definition post_users (uuid : jsstring) (now : Date) (req : Http.Request)
    (res : Http.Response) : Users -> Users * Outcome :=
  try_catch_next (
    let email := Http.body_email (Http.body req) in
    let name := Http.body_name (Http.body req) in
    match narrow email, narrow name with
    | Some email, Some name =>
        if negb (Regex.test Regex.emailRegex email) then
          throw (Exceptions.BadRequestException (Some msg_invalid_email) None)
        else
          values <~ users_values ;;
          let emailExists :=
            existsb (fun user => streq (Http.email user) email) values in
          if emailExists then
            throw (Exceptions.BadRequestException (Some msg_email_taken) None)
          else
            let newUser := Http.mkUser uuid name email now in
            users_set (Http.id newUser) newUser ;;;
            let response :=
              ApiResponseBuilder.new (Http.traceId req)
              |> ApiResponseBuilder.setStatus 201
              |> ApiResponseBuilder.setCode (lit "USER_CREATED")
              |> ApiResponseBuilder.setMessage (lit "Usuario creado exitosamente")
              |> ApiResponseBuilder.setData newUser
              |> ApiResponseBuilder.build in
            ret (res |> Http.status 201 |> Http.json (Http.UserPayload response))
    | _, _ =>
        throw (Exceptions.BadRequestException
                 (Some (lit "Email y nombre son requeridos"))
                 (Some (JObj [(lit "missing_fields",
                               JArr (JStr <$> missing_fields (Http.body req)))])))
    end).

(** [router.put('/users/:id', ...)]. *)
Definition put_user (req : Http.Request) (res : Http.Response)
    : Users -> Users * Outcome :=
  try_catch_next (
    let userId := Http.params_id req in
    existingUser <~ users_get userId ;;
    match existingUser with
    | None =>
        throw (Exceptions.NotFoundException (Some (msg_not_found userId)) None)
    | Some existingUser =>
        let email := Http.body_email (Http.body req) in
        let name := Http.body_name (Http.body req) in
        if negb (truthy_opt email) && negb (truthy_opt name) then
          throw (Exceptions.BadRequestException
                   (Some (lit "Se requiere al menos un campo para actualizar"))
                   None)
        else
          match narrow email with
          | Some email =>
              if negb (Regex.test Regex.emailRegex email) then
                throw (Exceptions.BadRequestException (Some msg_invalid_email) None)
              else
                values <~ users_values ;;
                let emailExists :=
                  existsb (fun user => streq (Http.email user) email
                                       && negb (streq (Http.id user) userId))
                    values in
                if emailExists then
                  throw (Exceptions.BadRequestException (Some msg_email_taken) None)
                else ret tt
          | None => ret tt
          end ;;;
          let updatedUser :=
            Http.mkUser (Http.id existingUser)
              (or_else name (Http.name existingUser))
              (or_else email (Http.email existingUser))
              (Http.createdAt existingUser) in
          users_set userId updatedUser ;;;
          let response :=
            ApiResponseBuilder.new (Http.traceId req)
            |> ApiResponseBuilder.setStatus 200
            |> ApiResponseBuilder.setCode (lit "USER_UPDATED")
            |> ApiResponseBuilder.setMessage (lit "Usuario actualizado exitosamente")
            |> ApiResponseBuilder.setData updatedUser
            |> ApiResponseBuilder.build in
          ret (res |> Http.status 200 |> Http.json (Http.UserPayload response))
    end).

(** [router.delete('/users/:id', ...)]. *)
Definition delete_user (req : Http.Request) (res : Http.Response)
    : Users -> Users * Outcome :=
  try_catch_next (
    let userId := Http.params_id req in
    exists_ <~ users_has userId ;;
    if negb exists_ then
      throw (Exceptions.NotFoundException (Some (msg_not_found userId)) None)
    else
      users_delete userId ;;;
      let response :=
        ApiResponseBuilder.new (T := Empty_set) (Http.traceId req)
        |> ApiResponseBuilder.setStatus 200
        |> ApiResponseBuilder.setCode (lit "USER_DELETED")
        |> ApiResponseBuilder.setMessage (lit "Usuario eliminado exitosamente")
        |> ApiResponseBuilder.build in
      ret (res |> Http.status 200 |> Http.json (Http.VoidPayload response))).

(** The user that PUT /users/:id stores on success. *)
Definition updatedUser (req : Http.Request) (existingUser : Http.User) : Http.User :=
  Http.mkUser (Http.id existingUser)
    (or_else (Http.body_name (Http.body req)) (Http.name existingUser))
    (or_else (Http.body_email (Http.body req)) (Http.email existingUser))
    (Http.createdAt existingUser).

(** The response of a successful POST /users. *)
Definition created (req : Http.Request) (res : Http.Response)
    (newUser : Http.User) : Http.Response :=
  Http.json
    (Http.UserPayload
       (ApiResponse.mk (Http.traceId req) 201 (lit "USER_CREATED")
          (lit "Usuario creado exitosamente") (Some newUser) None))
    (Http.status 201 res).

(** The three routes on [/users/:id]. *)
Inductive IdRoute : Type := GET | PUT | DELETE.

Definition id_route (route : IdRoute)
    : Http.Request -> Http.Response -> Users -> Users * Outcome :=
  match route with
  | GET => get_user
  | PUT => put_user
  | DELETE => delete_user
  end.

(** The handler threw, and what it threw. *)
Definition throws (outcome : Outcome) : Prop :=
  exists error, outcome = Next error.

Definition throws_NotFoundException (outcome : Outcome) : Prop :=
  exists error, outcome = Next error
                /\ Exceptions.instanceof_NotFoundException error = true.

Definition throws_BadRequestException (outcome : Outcome) : Prop :=
  exists error, outcome = Next error
                /\ Exceptions.instanceof_BadRequestException error = true.

(** A field of the body is missing or empty. *)
Definition missing_or_empty (v : option jsstring) : Prop :=
  v = None \/ v = Some [].

(** The bodies that POST /users refuses against a given Map. *)
Definition refused (body : Http.Body) (users : Users) : Prop :=
  missing_or_empty (Http.body_email body)
  \/ missing_or_empty (Http.body_name body)
  \/ (exists email, Http.body_email body = Some email
                     /\ Regex.test Regex.emailRegex email = false)
  \/ (exists key user, users !! key = Some user
                        /\ Http.body_email body = Some (Http.email user)).

(** A request and a fresh response to run the routes on: John Doe of the
    README, aimed at the id [u1]. *)
Definition sample_req : Http.Request :=
  Http.mkRequest ∅ (Some (lit "t-1")) (lit "u1")
    (Http.mkBody (Some (lit "john@example.com")) (Some (lit "John Doe"))).

Definition sample_res : Http.Response := Http.mkResponse ∅ 200 None.

End UsersRoutes.

(* ===================================================================== *)
(** * The Clean Code exercise: [TaskMgr] and [TaskManager] *)
(* ===================================================================== *)

(** [clean-code/ejercicios/01-analisis/src/taskBase.ts]: [class TaskMgr]. *)
Module TaskBase.
Import JS.

(** The argument [t] of [add], as far as [add] reads it. *)
Record Input : Type := mkInput {
  in_title : option jsstring;
  in_p : option bool
}.

(** An element of [d]: the spread of [t], then [id], [st] and [ct]. *)
Record Item : Type := mkItem {
  title : option jsstring;
  p : option bool;
  id : jsstring;
  st : jsstring;
  ct : Date
}.

(** A method runs on the private array [d] and returns what it returns. *)
Definition Method (A : Type) : Type := list Item -> list Item * A.

(** [add(t)]; [random] is what [Math.random().toString()] returns and [now]
    what [new Date()] returns, if they are called. *)
Definition add (random : jsstring) (now : Date) (t : Input) : Method bool :=
  fun d =>
    if negb (truthy_opt (in_title t)) then (d, false)
    else
      let item := mkItem (in_title t) (in_p t) random (lit "pending") now in
      if bool_decide (in_p t = Some true)
      then (item :: d, true)
      else (d ++ [item], true).

(** [t.st = "completed"]. *)
Definition complete (t : Item) : Item :=
  mkItem (title t) (p t) (id t) (lit "completed") (ct t).

(** [done(i)]: [find] hands out the first element with the id, which is then
    written in place. *)
Definition done (i : jsstring) : Method bool :=
  fun d =>
    match list_find (fun x => id x = i) d with
    | Some (k, _) => (alter complete k d, true)
    | None => (d, false)
    end.

(** [getAll()]. *)
Definition getAll : Method (list Item) := fun d => (d, d).

End TaskBase.

(** The refactored [class TaskManager]. *)
Module TaskRefactor.
Import JS.

(** [enum TaskStatus] and the strings its members stand for. *)
Inductive TaskStatus : Type := PENDING | COMPLETED.

Definition TaskStatus_value (status : TaskStatus) : jsstring :=
  match status with
  | PENDING => lit "pending"
  | COMPLETED => lit "completed"
  end.

(** [interface Task]. *)
Record Task : Type := mkTask {
  id : jsstring;
  title : jsstring;
  isPriority : bool;
  status : TaskStatus;
  createdAt : Date
}.

(** A method runs on the private array [tasks]. *)
Definition Method (A : Type) : Type := list Task -> list Task * A.

(** [addTask(title, isPriority)]; [generatedId] is what [this.generateId()]
    returns and [now] what [new Date()] returns. *)
Definition addTask (generatedId : jsstring) (now : Date) (title : jsstring)
    (isPriority : bool) : Method bool :=
  fun tasks =>
    let newTask := mkTask generatedId title isPriority PENDING now in
    if isPriority
    then (newTask :: tasks, true)
    else (tasks ++ [newTask], true).

(** [task.status = TaskStatus.COMPLETED]. *)
Definition complete (task : Task) : Task :=
  mkTask (id task) (title task) (isPriority task) COMPLETED (createdAt task).

(** [completeTask(taskId)]. *)
Definition completeTask (taskId : jsstring) : Method bool :=
  fun tasks =>
    match list_find (fun task => id task = taskId) tasks with
    | Some (k, _) => (alter complete k tasks, true)
    | None => (tasks, false)
    end.

(** [getAllTasks()]. *)
Definition getAllTasks : Method (list Task) := fun tasks => (tasks, tasks).

End TaskRefactor.

(** The two classes side by side: one client driving both. *)
Module TaskClients.
Import JS.

(** A call of the client: add a task, or mark one as done. The id and the
    date are those that the call generates, the same on both sides. *)
Inductive Call : Type :=
| Add (title : jsstring) (isPriority : bool) (generatedId : jsstring) (now : Date)
| Complete (taskId : jsstring).

Definition run_bad (call : Call) : TaskBase.Method bool :=
  match call with
  | Add title isPriority generatedId now =>
      TaskBase.add generatedId now (TaskBase.mkInput (Some title) (Some isPriority))
  | Complete taskId => TaskBase.done taskId
  end.

Definition run_good (call : Call) : TaskRefactor.Method bool :=
  match call with
  | Add title isPriority generatedId now =>
      TaskRefactor.addTask generatedId now title isPriority
  | Complete taskId => TaskRefactor.completeTask taskId
  end.

(** A whole session: the final array and the booleans returned, in order. *)
Fixpoint session {S : Type} (run : Call -> S -> S * bool) (calls : list Call)
    (state : S) : S * list bool :=
  match calls with
  | [] => (state, [])
  | call :: calls =>
      let '(state, result) := run call state in
      let '(state, results) := session run calls state in
      (state, result :: results)
  end.

(** An element of [d] and a [Task] that say the same. *)
Definition same_task (item : TaskBase.Item) (task : TaskRefactor.Task) : Prop :=
  TaskBase.title item = Some (TaskRefactor.title task)
  /\ TaskBase.p item = Some (TaskRefactor.isPriority task)
  /\ TaskBase.id item = TaskRefactor.id task
  /\ TaskBase.st item = TaskRefactor.TaskStatus_value (TaskRefactor.status task)
  /\ TaskBase.ct item = TaskRefactor.createdAt task.

(** The titles a session adds. *)
Definition added_title (call : Call) : option jsstring :=
  match call with
  | Add title _ _ _ => Some title
  | Complete _ => None
  end.

(** The two tasks of the demo at the end of each file, as they stand after
    the two calls of [add] / [addTask]. *)
Definition tarea1 : TaskRefactor.Task :=
  TaskRefactor.mkTask (lit "id1") (lit "Tarea 1") true TaskRefactor.PENDING 0.
Definition tarea2 : TaskRefactor.Task :=
  TaskRefactor.mkTask (lit "id2") (lit "Tarea 2") false TaskRefactor.PENDING 0.
Definition item1 : TaskBase.Item :=
  TaskBase.mkItem (Some (lit "Tarea 1")) (Some true) (lit "id1") (lit "pending") 0.
Definition item2 : TaskBase.Item :=
  TaskBase.mkItem (Some (lit "Tarea 2")) (Some false) (lit "id2") (lit "pending") 0.

End TaskClients.

(* ===================================================================== *)
(** * The cohesion and coupling examples *)
(* ===================================================================== *)

(** [number], as far as the order totals use it: a zero, a sum and a
    product. The source computes with IEEE-754 doubles; nothing below
    depends on which arithmetic it is. *)
Class Number : Type := {
  number : Type;
  zero : number;
  add : number -> number -> number;
  mul : number -> number -> number
}.

(** The integers as numbers, to run the examples of the text. *)
#[export] Instance Z_Number : Number :=
  {| number := Z; zero := 0%Z; add := Z.add; mul := Z.mul |}.

(** What the examples share: the product and the reducer of the totals. *)
Module Compra.
Import JS.

Section WithNumber.
Context `{Number}.

(** [{id, nombre, precio, cantidad}] in [GestorProcesoCompra], [class
    Producto] in the good design. A product is taken as the value of its
    four fields. [GestorProcesoCompra] builds its objects itself; an
    [Orden] keeps the object it is handed, whose fields are public:
    [Ejemplo2] and [Solucion] have the orders of clients that do not write
    to a [Producto] after handing it over, and [Referencias] has the order
    of Ejemplo 2 with the objects by reference. *)
Record Producto : Type := mkProducto {
  id : jsstring;
  nombre : jsstring;
  precio : number;
  cantidad : number
}.

(** [(total, prod) => total + prod.precio * prod.cantidad]. *)
Definition sumar (total : number) (prod : Producto) : number :=
  add total (mul (precio prod) (cantidad prod)).

(** [productos.reduce(sumar, 0)]. *)
Definition reduce_total (productos : list Producto) : number :=
  fold_left sumar productos zero.

End WithNumber.

End Compra.

(** Ejemplo 1, the bad design: [GestorProcesoCompra] with the collaborators
    it creates itself. [BaseDatos], [EmailService] and
    [Inventario.reducirStock] only print. *)
Module Ejemplo1.
Import JS.

Section WithNumber.
Context `{Number}.

(** [Inventario.verificarStock]. *)
Definition Inventario_verificarStock (productoId : jsstring) : bool := true.

Record GestorProcesoCompra : Type := mkGestor {
  productos : list Compra.Producto;
  precioTotal : number;
  emailCliente : jsstring
}.

(** [new GestorProcesoCompra(emailCliente)]. *)
Definition new (emailCliente : jsstring) : GestorProcesoCompra :=
  mkGestor [] zero emailCliente.

(** [agregarProducto(id, nombre, precio, cantidad)]. *)
Definition agregarProducto (id nombre : jsstring) (precio cantidad : number)
    (this : GestorProcesoCompra) : GestorProcesoCompra :=
  mkGestor (productos this ++ [Compra.mkProducto id nombre precio cantidad])
    (precioTotal this) (emailCliente this).

(** [calcularPrecioTotal()]. *)
Definition calcularPrecioTotal (this : GestorProcesoCompra) : GestorProcesoCompra :=
  mkGestor (productos this) (fold_left Compra.sumar (productos this) zero)
    (emailCliente this).

(** The stock loop of [procesarCompra]: the first product without stock
    raises. *)
Fixpoint validarStock (productos : list Compra.Producto)
    : option Exceptions.Error :=
  match productos with
  | [] => None
  | producto :: productos =>
      if negb (Inventario_verificarStock (Compra.id producto))
      then Some (Exceptions.PlainError
                   (lit "Sin stock para el producto " ++ Compra.nombre producto))
      else validarStock productos
  end.

(** [procesarCompra()]: the object afterwards, or the error thrown. *)
Definition procesarCompra (this : GestorProcesoCompra)
    : Exceptions.Error + GestorProcesoCompra :=
  match validarStock (productos this) with
  | Some error => inl error
  | None => inr (calcularPrecioTotal this)
  end.

(** [obtenerTotal()]. *)
Definition obtenerTotal (this : GestorProcesoCompra) : number :=
  precioTotal this.

(** The client of the text: add the products one by one, then process. *)
Definition comprar (emailCliente : jsstring) (lista : list Compra.Producto)
    : Exceptions.Error + GestorProcesoCompra :=
  procesarCompra
    (fold_left
       (fun gestor p =>
          agregarProducto (Compra.id p) (Compra.nombre p) (Compra.precio p)
            (Compra.cantidad p) gestor)
       lista (new emailCliente)).

End WithNumber.

End Ejemplo1.

(** Ejemplo 2, the good design: [Orden] with its collaborators injected.
    [INotificador], [IAlmacenamiento] and [reducirStock] only print. *)
Module Ejemplo2.
Import JS.

Section WithNumber.
Context `{Number}.

(** [interface IInventario], as far as it returns something. *)
Record IInventario : Type := mkInventario {
  verificarStock : jsstring -> bool
}.

(** [class InventarioDB]. *)
Definition InventarioDB : IInventario :=
  mkInventario (fun productoId => true).

Record Orden : Type := mkOrden {
  productos : list Compra.Producto;
  precioTotal : number;
  emailCliente : jsstring;
  inventario : IInventario
}.

(** [new Orden(emailCliente, inventario, notificador, almacenamiento)]. *)
Definition new (emailCliente : jsstring) (inventario : IInventario) : Orden :=
  mkOrden [] zero emailCliente inventario.

(** [recalcularTotal()]. *)
Definition recalcularTotal (this : Orden) : Orden :=
  mkOrden (productos this) (fold_left Compra.sumar (productos this) zero)
    (emailCliente this) (inventario this).

(** [agregarProducto(producto)]: the order afterwards, or the error
    thrown. *)
Definition agregarProducto (producto : Compra.Producto) (this : Orden)
    : Exceptions.Error + Orden :=
  if verificarStock (inventario this) (Compra.id producto) then
    inr (recalcularTotal
           (mkOrden (productos this ++ [producto]) (precioTotal this)
              (emailCliente this) (inventario this)))
  else
    inl (Exceptions.PlainError
           (lit "Sin stock para producto: " ++ Compra.nombre producto)).

(** [getTotal()] and [getProductos()]. *)
Definition getTotal (this : Orden) : number := precioTotal this.
Definition getProductos (this : Orden) : list Compra.Producto := productos this.

(** The client of the text: add the products one by one; the first error
    ends it. *)
Fixpoint ordenar (lista : list Compra.Producto) (orden : Orden)
    : Exceptions.Error + Orden :=
  match lista with
  | [] => inr orden
  | producto :: lista =>
      match agregarProducto producto orden with
      | inr orden => ordenar lista orden
      | inl error => inl error
      end
  end.

End WithNumber.

End Ejemplo2.

(** The solution with the changes applied: the asynchronous [Orden] and
    [InventarioReal]. Of [Orden], the part that adds products; [procesar]
    and the collaborators it alone uses are left out. *)
Module Solucion.
Import JS.

(** A settled promise, which is what [await] sees. *)
Inductive Promise (A : Type) : Type :=
| Fulfilled (value : A)
| Rejected (reason : Exceptions.Error).
Arguments Fulfilled {A}.
Arguments Rejected {A}.

Section WithNumber.
Context `{Number}.

(** [interface IInventario], as far as it resolves to something. *)
Record IInventario : Type := mkInventario {
  verificarStock : jsstring -> Promise bool
}.

(** [class InventarioReal]. *)
Definition InventarioReal : IInventario :=
  mkInventario (fun productoId => Fulfilled true).

Inductive EstadoOrden : Type := CREADA | PROCESADA | ERROR.

Record Orden : Type := mkOrden {
  productos : list Compra.Producto;
  precioTotal : number;
  estado : EstadoOrden;
  id : jsstring;
  emailCliente : jsstring;
  telefonoCliente : jsstring;
  inventario : IInventario
}.

(** [new Orden(id, emailCliente, telefonoCliente, inventario, ...)]. *)
Definition new (id emailCliente telefonoCliente : jsstring)
    (inventario : IInventario) : Orden :=
  mkOrden [] zero CREADA id emailCliente telefonoCliente inventario.

(** [this.productos.push(producto)]. *)
Definition push (producto : Compra.Producto) (this : Orden) : Orden :=
  mkOrden (productos this ++ [producto]) (precioTotal this) (estado this)
    (id this) (emailCliente this) (telefonoCliente this) (inventario this).

(** [recalcularTotal()]. *)
Definition recalcularTotal (this : Orden) : Orden :=
  mkOrden (productos this) (fold_left Compra.sumar (productos this) zero)
    (estado this) (id this) (emailCliente this) (telefonoCliente this)
    (inventario this).

(** [async agregarProducto(producto)]: the promise it returns, fulfilled
    with the order as the call leaves it or rejected with what was thrown;
    awaiting a rejected promise throws its reason. *)
Definition agregarProducto (producto : Compra.Producto) (this : Orden)
    : Promise Orden :=
  match verificarStock (inventario this) (Compra.id producto) with
  | Rejected reason => Rejected reason
  | Fulfilled hayStock =>
      if negb hayStock then
        Rejected (Exceptions.PlainError
                    (lit "Sin stock para el producto: " ++ Compra.nombre producto))
      else
        Fulfilled (recalcularTotal (push producto this))
  end.

(** [getTotal()]. *)
Definition getTotal (this : Orden) : number := precioTotal this.

End WithNumber.

End Solucion.

(* ===================================================================== *)
(** * The Express example: what the routes answer *)
(* ===================================================================== *)

(** The responses that the routes of [routes/users.routes.ts] send on
    success, named. *)
Module UsersReplies.
Import JS.

(** GET /users/:id. *)
Definition found (req : Http.Request) (res : Http.Response) (user : Http.User)
    : Http.Response :=
  Http.json
    (Http.UserPayload
       (ApiResponse.mk (Http.traceId req) 200 (lit "USER_FOUND")
          (lit "Usuario encontrado exitosamente") (Some user) None))
    (Http.status 200 res).

(** GET /users. *)
Definition listed (req : Http.Request) (res : Http.Response)
    (userList : list Http.User) : Http.Response :=
  Http.json
    (Http.UsersPayload
       (ApiResponse.mk (Http.traceId req) 200 (lit "USERS_FOUND")
          (lit "Usuarios recuperados exitosamente") (Some userList) None))
    (Http.status 200 res).

(** PUT /users/:id. *)
Definition updated (req : Http.Request) (res : Http.Response)
    (user : Http.User) : Http.Response :=
  Http.json
    (Http.UserPayload
       (ApiResponse.mk (Http.traceId req) 200 (lit "USER_UPDATED")
          (lit "Usuario actualizado exitosamente") (Some user) None))
    (Http.status 200 res).

(** DELETE /users/:id. *)
Definition deleted (req : Http.Request) (res : Http.Response) : Http.Response :=
  Http.json
    (Http.VoidPayload
       (ApiResponse.mk (Http.traceId req) 200 (lit "USER_DELETED")
          (lit "Usuario eliminado exitosamente") None None))
    (Http.status 200 res).

(** The three refusals of a body, as POST and PUT throw them. *)
Definition fields_required (body : Http.Body) : Exceptions.Error :=
  Exceptions.BadRequestException (Some (lit "Email y nombre son requeridos"))
    (Some (JObj [(lit "missing_fields",
                  JArr (JStr <$> UsersRoutes.missing_fields body))])).

Definition invalid_email : Exceptions.Error :=
  Exceptions.BadRequestException (Some UsersRoutes.msg_invalid_email) None.

Definition email_taken : Exceptions.Error :=
  Exceptions.BadRequestException (Some UsersRoutes.msg_email_taken) None.

Definition nothing_to_update : Exceptions.Error :=
  Exceptions.BadRequestException
    (Some (lit "Se requiere al menos un campo para actualizar")) None.

Definition not_found (userId : jsstring) : Exceptions.Error :=
  Exceptions.NotFoundException (Some (UsersRoutes.msg_not_found userId)) None.

(** Some other stored user has the email. *)
Definition taken_by_other (users : gmap jsstring Http.User)
    (userId email : jsstring) : Prop :=
  exists key user, users !! key = Some user
                   /\ Http.email user = email /\ Http.id user <> userId.

(** The user that [sample_req] creates under the id [u1]. *)
Definition john : Http.User :=
  Http.mkUser (lit "u1") (lit "John Doe") (lit "john@example.com") 1733306400000.

(** A PUT on [u1] that renames the user and leaves the email out. *)
Definition rename_req : Http.Request :=
  Http.mkRequest ∅ (Some (lit "t-3")) (lit "u1")
    (Http.mkBody None (Some (lit "Johnny"))).

End UsersReplies.

(* ===================================================================== *)
(** * The Express example: the application *)
(* ===================================================================== *)

(** [app.ts]: the middlewares and routes in the order they are mounted.
    Express itself is not modelled: the body is the one that
    [express.json()] has parsed, the path is one that the router of Express
    has decoded, and the route that it matches is an input. A request whose
    body cannot be parsed or whose path cannot be decoded reaches no route:
    Express hands its own error to the error handler. A response is what
    the handler passes to [res.status(...).json(...)] or to [sendStatus].
    [loggerMiddleware] only logs. *)
Module App.
Import JS.

Inductive Method : Type := GET | HEAD | POST | PUT | DELETE | OPTIONS | OtherMethod.

(** The path of the request, as Express matches it against the paths that
    the application mounts: [/health], [/api/users], [/api/users/:id], or
    none of them. *)
Inductive Url : Type :=
| UrlHealth
| UrlUsers
| UrlUser (id : jsstring)
| UrlOther.

Record Incoming : Type := mkIncoming {
  method : Method;
  url : Url;
  headers : gmap jsstring jsstring;
  body : Http.Body
}.

Section WithSeconds.
(** The type of [process.uptime()]. *)
Context {Seconds : Type}.

(** The [data] of the health check. *)
Record Health : Type := mkHealth {
  timestamp : Date;
  uptime : Seconds
}.

(** What a request is answered with: the JSON of a route or of the error
    handler, the JSON of the health check, or the text of [sendStatus]. *)
Inductive Body : Type :=
| Json (payload : Http.Payload)
| HealthJson (response : ApiResponse.t Health)
| Text (text : jsstring).

Record Response : Type := mkResponse {
  res_headers : gmap jsstring jsstring;
  statusCode : Z;
  sent : option Body
}.

(** The response of a route or of the error handler, as it is handed to
    Express. *)
Definition of_http (res : Http.Response) : Response :=
  mkResponse (Http.res_headers res) (Http.statusCode res)
    (Json <$> Http.sent res).

(** The CORS middleware, up to its branch on the method. *)
Definition cors_headers (res : Http.Response) : Http.Response :=
  let res := Http.setHeader (lit "Access-Control-Allow-Origin") (lit "*") res in
  let res :=
    Http.setHeader (lit "Access-Control-Allow-Headers")
      (lit "Origin, X-Requested-With, Content-Type, Accept, x-trace-id") res in
  Http.setHeader (lit "Access-Control-Allow-Methods")
    (lit "GET, POST, PUT, DELETE, OPTIONS") res.

(** [res.sendStatus(200)]: the status, and its text as the body. *)
Definition sendStatus200 (res : Http.Response) : Response :=
  mkResponse (Http.res_headers res) 200 (Some (Text (lit "OK"))).

(** The handler of [app.get('/health', ...)]. *)
Definition health (now : Date) (up : Seconds) (req : Http.Request)
    (res : Http.Response) : Response :=
  mkResponse (Http.res_headers res) 200
    (Some (HealthJson
             (ApiResponse.mk (Http.traceId req) 200 (lit "HEALTH_CHECK")
                (lit "Servicio funcionando correctamente")
                (Some (mkHealth now up)) None))).

(** A route registered with [get] also serves HEAD. *)
Definition is_get (m : Method) : bool :=
  match m with
  | GET | HEAD => true
  | _ => false
  end.

(** [app.use('/api', userRoutes)]: the route of the router that takes the
    request, if there is one. [uuid] and [now] are what [uuidv4()] and
    [new Date()] return in POST /users. *)
Definition userRoutes (uuid : jsstring) (now : Date) (m : Method) (u : Url)
    : option (Http.Request -> Http.Response ->
              gmap jsstring Http.User ->
              gmap jsstring Http.User * UsersRoutes.Outcome) :=
  match u, m with
  | UrlUser _, (GET | HEAD) => Some UsersRoutes.get_user
  | UrlUsers, (GET | HEAD) => Some UsersRoutes.get_users
  | UrlUsers, POST => Some (UsersRoutes.post_users uuid now)
  | UrlUser _, PUT => Some UsersRoutes.put_user
  | UrlUser _, DELETE => Some UsersRoutes.delete_user
  | _, _ => None
  end.

(** [req.params.id] for the routes that have it. *)
Definition params_id (u : Url) : jsstring :=
  match u with
  | UrlUser id => id
  | _ => []
  end.

(** The application on one request, against the users Map: the Map
    afterwards and the response. [res] is the response object as Express
    creates it; [trace_uuid] is what [uuidv4()] returns in the trace
    middleware, [user_uuid] what it returns in POST /users, [now] and [up]
    what [new Date()] and [process.uptime()] return. *)
Definition handle (trace_uuid user_uuid : jsstring) (now : Date) (up : Seconds)
    (incoming : Incoming) (res : Http.Response)
    (users : gmap jsstring Http.User)
    : gmap jsstring Http.User * Response :=
  let req :=
    Http.mkRequest (headers incoming) None (params_id (url incoming))
      (body incoming) in
  let '(req, res) := Middleware.traceMiddleware trace_uuid req res in
  let res := cors_headers res in
  match method incoming with
  | OPTIONS => (users, sendStatus200 res)
  | m =>
      match url incoming, is_get m with
      | UrlHealth, true => (users, health now up req res)
      | u, _ =>
          match userRoutes user_uuid now m u with
          | Some route =>
              match route req res users with
              | (users', UsersRoutes.Sent res') => (users', of_http res')
              | (users', UsersRoutes.Next error) =>
                  (users', of_http (Middleware.errorHandler error req res))
              end
          | None =>
              (users,
               of_http
                 (Middleware.errorHandler
                    (Exceptions.NotFoundException
                       (Some (lit "Ruta no encontrada")) None)
                    req res))
          end
      end
  end.

(** The trace id and the status that a JSON body carries. *)
Definition payload_traceId (payload : Http.Payload) : option jsstring :=
  match payload with
  | Http.UserPayload r => ApiResponse.traceId r
  | Http.UsersPayload r => ApiResponse.traceId r
  | Http.VoidPayload r => ApiResponse.traceId r
  | Http.ErrorPayload r => Http.err_traceId r
  end.

Definition payload_status (payload : Http.Payload) : Z :=
  match payload with
  | Http.UserPayload r => ApiResponse.status r
  | Http.UsersPayload r => ApiResponse.status r
  | Http.VoidPayload r => ApiResponse.status r
  | Http.ErrorPayload r => Http.err_status r
  end.

(** What a route sends: it keeps the headers set before it, and its body
    carries the trace id of the request and, as its status, the status of
    the response. *)
Definition well_sent (req : Http.Request) (res res' : Http.Response) : Prop :=
  Http.res_headers res' = Http.res_headers res
  /\ exists payload,
       Http.sent res' = Some payload
       /\ payload_traceId payload = Http.traceId req
       /\ payload_status payload = Http.statusCode res'.

(** The request and the response as the routes find them: after the trace
    middleware and the CORS headers. *)
Definition traced_req (trace_uuid : jsstring) (incoming : Incoming)
    : Http.Request :=
  Http.mkRequest (headers incoming)
    (Some (or_else (headers incoming !! lit "x-trace-id") trace_uuid))
    (params_id (url incoming)) (body incoming).

Definition traced_res (trace_uuid : jsstring) (incoming : Incoming)
    (res : Http.Response) : Http.Response :=
  cors_headers
    (Http.setHeader (lit "x-trace-id")
       (or_else (headers incoming !! lit "x-trace-id") trace_uuid) res).

Definition body_traceId (b : Body) : option (option jsstring) :=
  match b with
  | Json payload => Some (payload_traceId payload)
  | HealthJson r => Some (ApiResponse.traceId r)
  | Text _ => None
  end.

Definition body_status (b : Body) : Z :=
  match b with
  | Json payload => payload_status payload
  | HealthJson r => ApiResponse.status r
  | Text _ => 200
  end.

(** A JSON answer: the headers as given, the status of the response equal
    to the status in the body, and the trace id in the body as given. *)
Definition answers_with (trace : jsstring) (headers0 : gmap jsstring jsstring)
    (response : Response) : Prop :=
  res_headers response = headers0
  /\ exists b,
       sent response = Some b
       /\ statusCode response = body_status b
       /\ body_traceId b = Some (Some trace).

(** The error body of the error handler. *)
Definition error_body (traceId : jsstring) (status : Z) (code message : jsstring)
    : Body :=
  Json (Http.ErrorPayload
          (Http.mkErrorResponse (Some traceId) status code message None)).

(** The trace id of a request: its [x-trace-id] header unless absent or
    empty, else the generated one. *)
Definition trace_of (trace_uuid : jsstring) (incoming : Incoming) : jsstring :=
  or_else (headers incoming !! lit "x-trace-id") trace_uuid.

End WithSeconds.
Arguments Health : clear implicits.
Arguments Body : clear implicits.
Arguments Response : clear implicits.

(** Requests to try the application on: with and without a trace id of
    their own. *)
Definition get_john : App.Incoming :=
  App.mkIncoming App.GET (App.UrlUser (lit "u1"))
    (<[lit "x-trace-id" := lit "abc"]> ∅) (Http.mkBody None None).

Definition patch_users : App.Incoming :=
  App.mkIncoming App.OtherMethod App.UrlUsers ∅ (Http.mkBody None None).

End App.

(* ===================================================================== *)
(** * The Clean Code exercise: what a session has added *)
(* ===================================================================== *)

Module TaskHistory.
Import JS.

(** The titles that the calls of a session add with the given priority
    flag, in the order of the calls. *)
Fixpoint added (isPriority : bool) (calls : list TaskClients.Call)
    : list jsstring :=
  match calls with
  | [] => []
  | TaskClients.Add title p _ _ :: calls =>
      if Bool.eqb p isPriority
      then title :: added isPriority calls
      else added isPriority calls
  | TaskClients.Complete _ :: calls => added isPriority calls
  end.

(** The session of the demo and of the last test: a normal task, then a
    priority task, then the normal one is completed. *)
Definition demo : list TaskClients.Call :=
  [TaskClients.Add (lit "Task 1") false (lit "id1") 0;
   TaskClients.Add (lit "Task 2") true (lit "id2") 0;
   TaskClients.Complete (lit "id1")].

End TaskHistory.

(* ===================================================================== *)
(** * The cohesion and coupling examples: clients and processing *)
(* ===================================================================== *)

(** How the two designs are driven, beyond a single purchase. *)
Module Clientes.
Import JS.

Section WithNumber.
Context `{Number}.

(** Calls of [GestorProcesoCompra.agregarProducto], one per product. *)
Definition agregar_lista (lista : list Compra.Producto)
    (gestor : Ejemplo1.GestorProcesoCompra) : Ejemplo1.GestorProcesoCompra :=
  fold_left
    (fun gestor p =>
       Ejemplo1.agregarProducto (Compra.id p) (Compra.nombre p)
         (Compra.precio p) (Compra.cantidad p) gestor)
    lista gestor.

End WithNumber.

End Clientes.

(** [number] with what [ValidadorFraudeBasico] needs beside the sum and the
    product: numeric literals and [>]. *)
Class Comparable `{Number} : Type := {
  literal : Z -> number;
  gtb : number -> number -> bool
}.

#[export] Instance Z_Comparable : Comparable :=
  {| literal := fun z => z; gtb := Z.gtb |}.

(** The rest of the asynchronous [Orden]: [procesar] and the collaborators
    it uses. A collaborator acts on the world outside the order and
    settles; it is handed the order and reads it, and calls none of the
    methods of the order that write to it ([agregarProducto], [procesar]).
    [procesar] is followed from its call to the settling of its promise,
    with no other call on the order in between. *)
Module Proceso.
Import JS.

Section WithWorld.
Context `{Comparable} {World : Type}.

(** An asynchronous method of a collaborator. *)
Definition Async (A : Type) : Type := World -> World * Solucion.Promise A.

(** [class ValidacionFraude]. *)
Record ValidacionFraude : Type := mkValidacion {
  esValida : bool;
  motivo : option jsstring
}.

(** What the promise of a notifier is rejected with. It is the one reason
    that the order reads, in the [catch] of [notificarCliente]: an Error,
    or [null] or [undefined], which have no [message] to read. The reasons
    of the other collaborators are only thrown on. *)
Inductive Razon : Type :=
| UnError (error : Exceptions.Error)
| Null
| Undefined.

(** The settled promise of [notificarOrdenProcesada]. *)
Inductive Aviso : Type :=
| Avisado
| Rechazado (reason : Razon).

(** A notifier: [notificarOrdenProcesada(destinatario, orden)]. *)
Definition INotificador : Type :=
  jsstring -> Solucion.Orden -> World -> World * Aviso.

(** The collaborators of an order beside [inventario.verificarStock]:
    [inventario.reducirStock], the [notificarOrdenProcesada] of each
    notifier, [almacenamiento.guardarOrden] and
    [validadorFraude.validarOrden]. *)
Record Colaboradores : Type := mkColaboradores {
  reducirStock : jsstring -> number -> Async unit;
  notificadores : list INotificador;
  guardarOrden : Solucion.Orden -> Async unit;
  validarOrden : Solucion.Orden -> Async ValidacionFraude
}.

(** [this.estado = estado]. *)
Definition set_estado (estado : Solucion.EstadoOrden) (this : Solucion.Orden)
    : Solucion.Orden :=
  Solucion.mkOrden (Solucion.productos this) (Solucion.precioTotal this) estado
    (Solucion.id this) (Solucion.emailCliente this)
    (Solucion.telefonoCliente this) (Solucion.inventario this).

(** [actualizarInventario()]: the first rejection ends the loop. *)
Fixpoint actualizarInventario (c : Colaboradores)
    (productos : list Compra.Producto) : Async unit :=
  fun world =>
    match productos with
    | [] => (world, Solucion.Fulfilled tt)
    | producto :: productos =>
        match reducirStock c (Compra.id producto) (Compra.cantidad producto)
                world with
        | (world, Solucion.Fulfilled _) => actualizarInventario c productos world
        | (world, Solucion.Rejected reason) => (world, Solucion.Rejected reason)
        end
    end.

(** [error.message] in the [catch] of [notificarCliente]: the message, or
    the TypeError that reading it throws, with the text of V8. *)
Definition leer_mensaje (reason : Razon) : Exceptions.Error + jsstring :=
  match reason with
  | UnError error => inr (Exceptions.message error)
  | Null =>
      inl (Exceptions.PlainError
             (lit "Cannot read properties of null (reading 'message')"))
  | Undefined =>
      inl (Exceptions.PlainError
             (lit "Cannot read properties of undefined (reading 'message')"))
  end.

(** What the [catch] of [notificarCliente] throws on a settled
    notification, if it throws. *)
Definition interrumpe (aviso : Aviso) : option Exceptions.Error :=
  match aviso with
  | Avisado => None
  | Rechazado reason =>
      match leer_mensaje reason with
      | inl typeError => Some typeError
      | inr _ => None
      end
  end.

(** [notificarCliente()]: every notifier is awaited inside its own [try];
    a rejection is logged with its message and the loop goes on. What the
    [catch] itself throws ends the loop and rejects the promise. *)
Fixpoint notificarCliente (lista : list INotificador)
    (this : Solucion.Orden) : Async unit :=
  fun world =>
    match lista with
    | [] => (world, Solucion.Fulfilled tt)
    | notificador :: lista =>
        match notificador (Solucion.emailCliente this) this world with
        | (world, Avisado) => notificarCliente lista this world
        | (world, Rechazado reason) =>
            match leer_mensaje reason with
            | inr _ => notificarCliente lista this world
            | inl typeError => (world, Solucion.Rejected typeError)
            end
        end
    end.

(** [`Fraude detectado: ${validacionFraude.motivo}`]. *)
Definition fraude (validacion : ValidacionFraude) : Exceptions.Error :=
  Exceptions.PlainError
    (lit "Fraude detectado: " ++ default (lit "undefined") (motivo validacion)).

(** [procesar()]: the world and the order as the call leaves them, and the
    promise it returns. *)
Definition procesar (c : Colaboradores) (this : Solucion.Orden) (world : World)
    : World * (Solucion.Orden * Solucion.Promise unit) :=
  let failed world reason :=
    (world, (set_estado Solucion.ERROR this, Solucion.Rejected reason)) in
  match validarOrden c this world with
  | (world, Solucion.Rejected reason) => failed world reason
  | (world, Solucion.Fulfilled validacionFraude) =>
      if negb (esValida validacionFraude)
      then failed world (fraude validacionFraude)
      else
        match actualizarInventario c (Solucion.productos this) world with
        | (world, Solucion.Rejected reason) => failed world reason
        | (world, Solucion.Fulfilled _) =>
            match guardarOrden c this world with
            | (world, Solucion.Rejected reason) => failed world reason
            | (world, Solucion.Fulfilled _) =>
                let procesada := set_estado Solucion.PROCESADA this in
                match notificarCliente (notificadores c) procesada world with
                | (world, Solucion.Rejected reason) => failed world reason
                | (world, Solucion.Fulfilled _) =>
                    (world, (procesada, Solucion.Fulfilled tt))
                end
            end
        end
  end.

(** The collaborators of [ejemploUso]. All but the validator only print. *)
Definition InventarioReal_reducirStock (productoId : jsstring)
    (cantidad : number) : Async unit :=
  fun world => (world, Solucion.Fulfilled tt).

Definition NotificadorEmail : INotificador :=
  fun email orden world => (world, Avisado).

Definition NotificadorSMS : INotificador :=
  fun telefono orden world => (world, Avisado).

Definition NotificadorPush : INotificador :=
  fun deviceId orden world => (world, Avisado).

Definition AlmacenamientoSQL (orden : Solucion.Orden) : Async unit :=
  fun world => (world, Solucion.Fulfilled tt).

Definition AlmacenamientoMongoDB (orden : Solucion.Orden) : Async unit :=
  fun world => (world, Solucion.Fulfilled tt).

(** [AlmacenamientoDual.guardarOrden]: both stores are called, then
    [Promise.all] awaits them and rejects when one of them rejects. When
    both reject, [Promise.all] has the reason of the rejection that comes
    first; it is taken to be that of the SQL store, which is called
    first. *)
Definition AlmacenamientoDual
    (almacenamientoSQL almacenamientoMongo : Solucion.Orden -> Async unit)
    (orden : Solucion.Orden) : Async unit :=
  fun world =>
    let '(world, sql) := almacenamientoSQL orden world in
    let '(world, mongo) := almacenamientoMongo orden world in
    match sql, mongo with
    | Solucion.Rejected reason, _ => (world, Solucion.Rejected reason)
    | _, Solucion.Rejected reason => (world, Solucion.Rejected reason)
    | Solucion.Fulfilled _, Solucion.Fulfilled _ => (world, Solucion.Fulfilled tt)
    end.

(** [ValidadorFraudeBasico.validarOrden]; code unit 237 is the i with acute
    accent. *)
Definition ValidadorFraudeBasico (orden : Solucion.Orden)
    : Async ValidacionFraude :=
  fun world =>
    let total := Solucion.getTotal orden in
    if gtb total (literal 10000) then
      (world,
       Solucion.Fulfilled
         (mkValidacion false
            (Some (lit "Monto excede l" ++ [237%N] ++ lit "mite permitido"))))
    else if (10 <? length (Solucion.productos orden))%nat then
      (world,
       Solucion.Fulfilled
         (mkValidacion false (Some (lit "Demasiados productos en una sola orden"))))
    else
      (world, Solucion.Fulfilled (mkValidacion true None)).

Definition ejemploUso : Colaboradores :=
  mkColaboradores InventarioReal_reducirStock
    [NotificadorEmail; NotificadorSMS; NotificadorPush]
    (AlmacenamientoDual AlmacenamientoSQL AlmacenamientoMongoDB)
    ValidadorFraudeBasico.

(** The collaborators with other notifiers. *)
Definition con_notificadores (lista : list INotificador)
    (c : Colaboradores) : Colaboradores :=
  mkColaboradores (reducirStock c) lista (guardarOrden c) (validarOrden c).

End WithWorld.

End Proceso.

(* ===================================================================== *)
(** * The Express example: the router on bodies of any shape *)
(* ===================================================================== *)

(** JSON numbers, which JavaScript holds as doubles: what is falsy (0 and
    -0), [===], and the conversion to a string are the engine's. *)
Class Doubles : Type := {
  double : Type;
  double_truthy : double -> bool;
  double_eqb : double -> double -> bool;
  double_to_string : double -> JS.jsstring
}.

(** Bodies without numbers, to run examples on. *)
#[export] Instance no_doubles : Doubles :=
  {| double := Empty_set;
     double_truthy := fun n => match n with end;
     double_eqb := fun n _ => match n with end;
     double_to_string := fun n => match n with end |}.

(** [routes/users.routes.ts] once more, now with [req.body] as
    [express.json()] delivers it: [email] and [name] are whatever JSON
    values the client sent. The routes of [UsersRoutes] are these routes on
    the bodies whose two fields are strings or absent (lemmas
    [typed_post_users], [typed_put_user] and [typed_delete_user]). A
    response is what the handler passes to [res.status(...).json(...)]. *)
Module AnyBody.
Import JS.

Section WithDoubles.
Context `{Doubles}.

(** A value that [JSON.parse] builds. *)
Inductive Value : Type :=
| Null
| Bool (b : bool)
| Num (n : double)
| Str (s : jsstring)
| Arr (items : list Value)
| Obj (fields : list (jsstring * Value)).

(** [!!v]. *)
Definition truthy (v : Value) : bool :=
  match v with
  | Null => false
  | Bool b => b
  | Num n => double_truthy n
  | Str s => JS.truthy s
  | Arr _ | Obj _ => true
  end.

(** [!!v] for a property that may be absent. *)
Definition truthy_opt (v : option Value) : bool :=
  match v with
  | Some v => truthy v
  | None => false
  end.

(** What [if (v)] lets through. *)
Definition narrow (v : option Value) : option Value :=
  match v with
  | Some v => if truthy v then Some v else None
  | None => None
  end.

(** [stored === incoming], for a value held by a stored user and a value
    of the body of the request at hand: primitives compare by value; an
    array or object of the body was built by the parser for this request
    and is identical to nothing stored. *)
Definition strict_eq (stored incoming : Value) : bool :=
  match stored, incoming with
  | Null, Null => true
  | Bool a, Bool b => Bool.eqb a b
  | Num a, Num b => double_eqb a b
  | Str a, Str b => streq a b
  | _, _ => false
  end.

(** [items.join(',')] on the strings of the items. *)
Definition join_comma (strings : list jsstring) : jsstring :=
  match strings with
  | [] => []
  | s :: rest => fold_left (fun acc t => acc ++ [44%N] ++ t) rest s
  end.

(** ToString, which [RegExp.prototype.test] applies to its argument;
    [None] when it throws a TypeError. An array is the join of its items,
    [null] items counting as empty; a plain object is ['[object Object]'],
    unless it has a key [toString], which hides
    [Object.prototype.toString] behind a value that cannot be called. *)
Fixpoint to_string (v : Value) : option jsstring :=
  match v with
  | Null => Some (lit "null")
  | Bool true => Some (lit "true")
  | Bool false => Some (lit "false")
  | Num n => Some (double_to_string n)
  | Str s => Some s
  | Arr items =>
      join_comma <$>
      (fix strings (items : list Value) : option (list jsstring) :=
         match items with
         | [] => Some []
         | item :: items =>
             match match item with
                   | Null => Some []
                   | _ => to_string item
                   end, strings items with
             | Some s, Some rest => Some (s :: rest)
             | _, _ => None
             end
         end) items
  | Obj fields =>
      if existsb (fun field => streq (fst field) (lit "toString")) fields
      then None
      else Some (lit "[object Object]")
  end.

(** The TypeError of a failed ToString, with the message of V8. *)
Definition TypeError : Exceptions.Error :=
  Exceptions.PlainError (lit "Cannot convert object to primitive value").

(** A stored user: [name] and [email] are stored as they came. *)
Record User : Type := mkUser {
  id : jsstring;
  name : Value;
  email : Value;
  createdAt : Date
}.

(** [user.email]. *)
Definition email_of (user : User) : Value := email user.

(** [req.body], as far as the router reads it. *)
Record Body : Type := mkBody {
  body_email : option Value;
  body_name : option Value
}.

(** [req.body[field]]. *)
Definition body_get (body : Body) (field : jsstring) : option Value :=
  if streq field (lit "email") then body_email body
  else if streq field (lit "name") then body_name body
  else None.

(** The module-level [users] Map. *)
Abbreviation Users := (gmap jsstring User).

(** What a handler passes to [res.status(status).json(response)]. *)
Inductive Reply : Type :=
| UserReply (status : Z) (response : ApiResponse.t User)
| VoidReply (status : Z) (response : ApiResponse.t Empty_set).

Inductive Outcome : Type :=
| Sent (reply : Reply)
| Next (error : Exceptions.Error).

Definition M (A : Type) : Type := Users -> Users * (Exceptions.Error + A).

Definition ret {A} (a : A) : M A := fun users => (users, inr a).

Definition throw {A} (error : Exceptions.Error) : M A :=
  fun users => (users, inl error).

Definition bind {A B} (m : M A) (k : A -> M B) : M B :=
  fun users =>
    match m users with
    | (users', inr a) => k a users'
    | (users', inl error) => (users', inl error)
    end.

Notation "x <~ m ;; k" := (bind m (fun x => k))
  (at level 100, m at next level, right associativity).
Notation "m ;;; k" := (bind m (fun _ => k))
  (at level 100, right associativity).
Notation "b |> f" := (f b) (at level 45, left associativity, only parsing).

Definition users_get (id : jsstring) : M (option User) :=
  fun users => (users, inr (users !! id)).

Definition users_has (id : jsstring) : M bool :=
  fun users => (users, inr (bool_decide (is_Some (users !! id)))).

Definition users_set (id : jsstring) (user : User) : M unit :=
  fun users => (<[id := user]> users, inr tt).

Definition users_delete (id : jsstring) : M unit :=
  fun users => (delete id users, inr tt).

Definition users_values : M (list User) :=
  fun users => (users, inr (snd <$> map_to_list users)).

(** [try { ... } catch (error) { next(error); }]. *)
Definition try_catch_next (body : M Reply) (users : Users) : Users * Outcome :=
  match body users with
  | (users', inr reply) => (users', Sent reply)
  | (users', inl error) => (users', Next error)
  end.

(** [['email', 'name'].filter(field => !req.body[field])]. *)
Definition missing_fields (body : Body) : list jsstring :=
  List.filter (fun field => negb (truthy_opt (body_get body field)))
    [lit "email"; lit "name"].

Definition fields_required (body : Body) : Exceptions.Error :=
  Exceptions.BadRequestException (Some (lit "Email y nombre son requeridos"))
    (Some (JObj [(lit "missing_fields", JArr (JStr <$> missing_fields body))])).

Definition invalid_email : Exceptions.Error :=
  Exceptions.BadRequestException (Some UsersRoutes.msg_invalid_email) None.

Definition email_taken : Exceptions.Error :=
  Exceptions.BadRequestException (Some UsersRoutes.msg_email_taken) None.

Definition nothing_to_update : Exceptions.Error :=
  Exceptions.BadRequestException
    (Some (lit "Se requiere al menos un campo para actualizar")) None.

Definition not_found (userId : jsstring) : Exceptions.Error :=
  Exceptions.NotFoundException (Some (UsersRoutes.msg_not_found userId)) None.

(** What a successful POST /users passes to [res.status(201).json]. *)
Definition created (traceId : option jsstring) (newUser : User) : Reply :=
  UserReply 201
    (ApiResponse.mk traceId 201 (lit "USER_CREATED")
       (lit "Usuario creado exitosamente") (Some newUser) None).

(** What a successful PUT /users/:id passes to [res.status(200).json]. *)
Definition updated (traceId : option jsstring) (user : User) : Reply :=
  UserReply 200
    (ApiResponse.mk traceId 200 (lit "USER_UPDATED")
       (lit "Usuario actualizado exitosamente") (Some user) None).

(** What a successful DELETE /users/:id passes to [res.status(200).json]. *)
Definition deleted (traceId : option jsstring) : Reply :=
  VoidReply 200
    (ApiResponse.mk traceId 200 (lit "USER_DELETED")
       (lit "Usuario eliminado exitosamente") None None).

(** [router.post('/users', ...)]; [uuid] is what [uuidv4()] returns and
    [now] what [new Date()] returns; [traceId] is [req.traceId]. *)
Definition post_users (uuid : jsstring) (now : Date)
    (traceId : option jsstring) (body : Body) : Users -> Users * Outcome :=
  try_catch_next (
    match narrow (body_email body), narrow (body_name body) with
    | Some email, Some name =>
        match to_string email with
        | None => throw TypeError
        | Some text =>
            if negb (Regex.test Regex.emailRegex text) then throw invalid_email
            else
              values <~ users_values ;;
              let emailExists :=
                existsb (fun user => strict_eq (email_of user) email)
                  values in
              if emailExists then throw email_taken
              else
                let newUser := mkUser uuid name email now in
                users_set (id newUser) newUser ;;;
                let response :=
                  ApiResponseBuilder.new traceId
                  |> ApiResponseBuilder.setStatus 201
                  |> ApiResponseBuilder.setCode (lit "USER_CREATED")
                  |> ApiResponseBuilder.setMessage
                       (lit "Usuario creado exitosamente")
                  |> ApiResponseBuilder.setData newUser
                  |> ApiResponseBuilder.build in
                ret (UserReply 201 response)
        end
    | _, _ => throw (fields_required body)
    end).

(** [name || existingUser.name]. *)
Definition or_else (v : option Value) (d : Value) : Value :=
  match narrow v with
  | Some v => v
  | None => d
  end.

(** The user that PUT /users/:id stores on success. *)
Definition updatedUser (body : Body) (existingUser : User) : User :=
  mkUser (id existingUser)
    (or_else (body_name body) (name existingUser))
    (or_else (body_email body) (email existingUser))
    (createdAt existingUser).

(** [router.put('/users/:id', ...)]; [userId] is [req.params.id]. *)
Definition put_user (traceId : option jsstring) (userId : jsstring)
    (body : Body) : Users -> Users * Outcome :=
  try_catch_next (
    existingUser <~ users_get userId ;;
    match existingUser with
    | None => throw (not_found userId)
    | Some existingUser =>
        if negb (truthy_opt (body_email body))
           && negb (truthy_opt (body_name body))
        then throw nothing_to_update
        else
          match narrow (body_email body) with
          | Some email =>
              match to_string email with
              | None => throw TypeError
              | Some text =>
                  if negb (Regex.test Regex.emailRegex text)
                  then throw invalid_email
                  else
                    values <~ users_values ;;
                    let emailExists :=
                      existsb
                        (fun user => strict_eq (email_of user) email
                                     && negb (streq (id user) userId))
                        values in
                    if emailExists then throw email_taken else ret tt
              end
          | None => ret tt
          end ;;;
          let updatedUser := updatedUser body existingUser in
          users_set userId updatedUser ;;;
          let response :=
            ApiResponseBuilder.new traceId
            |> ApiResponseBuilder.setStatus 200
            |> ApiResponseBuilder.setCode (lit "USER_UPDATED")
            |> ApiResponseBuilder.setMessage
                 (lit "Usuario actualizado exitosamente")
            |> ApiResponseBuilder.setData updatedUser
            |> ApiResponseBuilder.build in
          ret (UserReply 200 response)
    end).

(** [router.delete('/users/:id', ...)]. *)
Definition delete_user (traceId : option jsstring) (userId : jsstring)
    : Users -> Users * Outcome :=
  try_catch_next (
    exists_ <~ users_has userId ;;
    if negb exists_ then throw (not_found userId)
    else
      users_delete userId ;;;
      let response :=
        ApiResponseBuilder.new (T := Empty_set) traceId
        |> ApiResponseBuilder.setStatus 200
        |> ApiResponseBuilder.setCode (lit "USER_DELETED")
        |> ApiResponseBuilder.setMessage (lit "Usuario eliminado exitosamente")
        |> ApiResponseBuilder.build in
      ret (VoidReply 200 response)).

(** The requests that write to the Map, and the states of the Map that a
    run of the server can reach. *)
Inductive step : Users -> Users -> Prop :=
| step_post uuid now traceId body users :
    step users (fst (post_users uuid now traceId body users))
| step_put traceId userId body users :
    step users (fst (put_user traceId userId body users))
| step_delete traceId userId users :
    step users (fst (delete_user traceId userId users)).

Inductive reachable : Users -> Prop :=
| reachable_empty : reachable ∅
| reachable_step users users' :
    reachable users -> step users users' -> reachable users'.

(** The handler threw a [BadRequestException]. *)
Definition throws_BadRequestException (outcome : Outcome) : Prop :=
  exists error, outcome = Next error
                /\ Exceptions.instanceof_BadRequestException error = true.

Definition throws (outcome : Outcome) : Prop :=
  exists error, outcome = Next error.

(** An array or an object. *)
Definition is_object (v : Value) : bool :=
  match v with
  | Arr _ | Obj _ => true
  | _ => false
  end.

(** The field is absent or holds a falsy value: [null], [false], [0] or
    ['']. *)
Definition falsy (v : option Value) : Prop := truthy_opt v = false.

(** The bodies that POST /users refuses, as the handler decides it. *)
Definition refused (body : Body) (users : Users) : Prop :=
  falsy (body_email body)
  \/ falsy (body_name body)
  \/ (exists email text,
        body_email body = Some email /\ to_string email = Some text
        /\ Regex.test Regex.emailRegex text = false)
  \/ (exists key user email,
        users !! key = Some user /\ body_email body = Some email
        /\ strict_eq (email_of user) email = true).

(** The bodies that POST /users refuses, in the words of the claim: email
    or name missing or empty, or the email not matching the pattern, or a
    stored user with that email. *)
Definition refused_as_claimed (body : Body) (users : Users) : Prop :=
  (body_email body = None \/ body_email body = Some (Str []))
  \/ (body_name body = None \/ body_name body = Some (Str []))
  \/ (exists email,
        body_email body = Some email
        /\ forall text, to_string email = Some text ->
                        Regex.test Regex.emailRegex text = false)
  \/ (exists key user,
        users !! key = Some user
        /\ body_email body = Some (email_of user)).

(** Every stored user sits under its own id. *)
Definition keyed_by_id (users : Users) : Prop :=
  forall key user, users !! key = Some user -> id user = key.

(** No two stored users have the same email. *)
Definition emails_unique (users : Users) : Prop :=
  forall key1 key2 user1 user2,
    users !! key1 = Some user1 -> users !! key2 = Some user2 ->
    email user1 = email user2 -> key1 = key2.

(** Every stored user has a truthy name and a truthy email that, as a
    string, [emailRegex] accepts. *)
Definition well_formed (users : Users) : Prop :=
  forall key user,
    users !! key = Some user ->
    truthy (name user) = true
    /\ truthy (email user) = true
    /\ exists text, to_string (email user) = Some text
                    /\ Regex.test Regex.emailRegex text = true.

(** Some other stored user has an email [===] the given one. *)
Definition taken_by_other (users : Users) (userId : jsstring) (email : Value)
    : Prop :=
  exists key user, users !! key = Some user
                   /\ strict_eq (email_of user) email = true
                   /\ id user <> userId.

(** The users, bodies and answers of the declared types among those of any
    shape: [UsersRoutes] has the same routes on these alone. *)
Definition of_user (user : Http.User) : User :=
  mkUser (Http.id user) (Str (Http.name user)) (Str (Http.email user))
    (Http.createdAt user).

Definition of_body (body : Http.Body) : Body :=
  mkBody (Str <$> Http.body_email body) (Str <$> Http.body_name body).

Definition of_response (response : ApiResponse.t Http.User)
    : ApiResponse.t User :=
  ApiResponse.mk (ApiResponse.traceId response) (ApiResponse.status response)
    (ApiResponse.code response) (ApiResponse.message response)
    (of_user <$> ApiResponse.data response) (ApiResponse.details response).

Definition of_outcome (outcome : UsersRoutes.Outcome) : option Outcome :=
  match outcome with
  | UsersRoutes.Next error => Some (Next error)
  | UsersRoutes.Sent res =>
      match Http.sent res with
      | Some (Http.UserPayload response) =>
          Some (Sent (UserReply (Http.statusCode res) (of_response response)))
      | Some (Http.VoidPayload response) =>
          Some (Sent (VoidReply (Http.statusCode res) response))
      | _ => None
      end
  end.

End WithDoubles.

(** The body that registers Ann under an email sent as a one-item array,
    and one with the name [false]. *)
Definition ann_array : Body :=
  mkBody (Some (Arr [Str (lit "ann@example.com")])) (Some (Str (lit "Ann"))).

Definition ann_false : Body :=
  mkBody (Some (Str (lit "ann@example.com"))) (Some (Bool false)).

Definition ann_string : Body :=
  mkBody (Some (Str (lit "ann@example.com"))) (Some (Str (lit "Ann"))).

(** The Map after [ann_array] was posted once, and after it was posted
    twice. *)
Definition ann_once : gmap jsstring User :=
  fst (post_users (lit "u1") 1 None ann_array ∅).

Definition ann_twice : gmap jsstring User :=
  fst (post_users (lit "u2") 2 None ann_array ann_once).

End AnyBody.

(* ===================================================================== *)
(** * The Clean Code exercise: one client, two managers *)
(* ===================================================================== *)

(** [Math.random()] returns a double; [toString(radix)] on it is the
    engine's, [None] standing for the call without a radix. *)
Class Randoms : Type := {
  random : Type;
  number_toString : random -> option N -> JS.jsstring
}.

(** Draws given by their two texts, the decimal one and the one in base
    36, to run examples on. *)
#[export] Instance texts_Randoms : Randoms :=
  {| random := JS.jsstring * JS.jsstring;
     number_toString := fun r radix =>
       match radix with
       | None => fst r
       | Some _ => snd r
       end |}.

(** A client that drives a [TaskMgr] and a [TaskManager] as the demos at
    the end of the two files do: it adds tasks, and it completes the task
    at a position of the list, with the id that it reads there
    ([done(getAll()[0].id)], [completeTask(getAllTasks()[0].id)]). Each
    class computes its ids itself. *)
Module TaskPairs.
Import JS.

Section WithRandoms.
Context `{Randoms}.

(** [s.substr(start, length)], neither argument negative. *)
Definition substr (start length : nat) (s : jsstring) : jsstring :=
  take length (drop start s).

(** [TaskManager.generateId()]; [r] is what [Math.random()] returns. *)
Definition generateId (r : random) : jsstring :=
  substr 2 9 (number_toString r (Some 36%N)).

(** The id of [TaskMgr.add]: [Math.random().toString()]. *)
Definition random_id (r : random) : jsstring := number_toString r None.

(** What one call of [add] or of [addTask] draws: [Math.random()] and
    [new Date()]. *)
Record Draw : Type := mkDraw {
  drawn : random;
  now : Date
}.

(** A call of the client, with what it draws in each of the two classes. *)
Inductive Call : Type :=
| Add (title : jsstring) (isPriority : bool) (bad good : Draw)
| CompleteAt (index : nat).

(** The call on a [TaskMgr]; [None] when [getAll()[index]] is [undefined]
    and reading its [id] throws. *)
Definition run_bad (call : Call) (d : list TaskBase.Item)
    : option (list TaskBase.Item * bool) :=
  match call with
  | Add title isPriority bad _ =>
      Some (TaskBase.add (random_id (drawn bad)) (now bad)
              (TaskBase.mkInput (Some title) (Some isPriority)) d)
  | CompleteAt index =>
      match snd (TaskBase.getAll d) !! index with
      | Some item => Some (TaskBase.done (TaskBase.id item) d)
      | None => None
      end
  end.

(** The call on a [TaskManager]. *)
Definition run_good (call : Call) (tasks : list TaskRefactor.Task)
    : option (list TaskRefactor.Task * bool) :=
  match call with
  | Add title isPriority _ good =>
      Some (TaskRefactor.addTask (generateId (drawn good)) (now good)
              title isPriority tasks)
  | CompleteAt index =>
      match snd (TaskRefactor.getAllTasks tasks) !! index with
      | Some task => Some (TaskRefactor.completeTask (TaskRefactor.id task) tasks)
      | None => None
      end
  end.

(** A session: the final array and the booleans returned, in order, up to
    the call that throws, if one does. *)
Fixpoint session {S : Type} (run : Call -> S -> option (S * bool))
    (calls : list Call) (state : S) : S * list bool :=
  match calls with
  | [] => (state, [])
  | call :: calls =>
      match run call state with
      | None => (state, [])
      | Some (state, result) =>
          let '(state, results) := session run calls state in
          (state, result :: results)
      end
  end.

(** The ids that the calls of a session make each class compute. *)
Fixpoint bad_ids (calls : list Call) : list jsstring :=
  match calls with
  | [] => []
  | Add _ _ bad _ :: calls => random_id (drawn bad) :: bad_ids calls
  | CompleteAt _ :: calls => bad_ids calls
  end.

Fixpoint good_ids (calls : list Call) : list jsstring :=
  match calls with
  | [] => []
  | Add _ _ _ good :: calls => generateId (drawn good) :: good_ids calls
  | CompleteAt _ :: calls => good_ids calls
  end.

(** The titles a session adds. *)
Definition added_title (call : Call) : option jsstring :=
  match call with
  | Add title _ _ _ => Some title
  | CompleteAt _ => None
  end.

(** An element of [d] and a [Task] that say the same, their ids and dates
    apart. *)
Definition same_content (item : TaskBase.Item) (task : TaskRefactor.Task)
    : Prop :=
  TaskBase.title item = Some (TaskRefactor.title task)
  /\ TaskBase.p item = Some (TaskRefactor.isPriority task)
  /\ TaskBase.st item = TaskRefactor.TaskStatus_value (TaskRefactor.status task).

End WithRandoms.

(** The demo of the two files: two tasks, then the first of the list is
    completed. *)
Definition demo : list Call :=
  [Add (lit "Tarea 1") true
     (mkDraw (lit "0.7351", lit "0.qgr2hd8k1mx") 0)
     (mkDraw (lit "0.1124", lit "0.41o6bzc7v9t") 1);
   Add (lit "Tarea 2") false
     (mkDraw (lit "0.2908", lit "0.ah3e5x0w2pd") 2)
     (mkDraw (lit "0.9046", lit "0.wk8s1n4y6rf") 3);
   CompleteAt 0].

End TaskPairs.

(* ===================================================================== *)
(** * Ejemplo 2, with the products by reference *)
(* ===================================================================== *)

(** [Orden] of Ejemplo 2 with the [Producto] objects where the code has
    them: they are objects of the client, which hands them to the order and
    can write to their public fields at any time. The order keeps the
    objects it is handed, not copies. *)
Module Referencias.
Import JS.

Section WithNumber.
Context `{Number}.

(** The address of a [Producto] object, and the objects of the client, by
    address. *)
Definition Ref : Type := nat.
Definition Heap : Type := Ref -> Compra.Producto.

(** The client sets the fields of the object at an address, as it does
    when it builds the object and whenever it assigns to them. *)
Definition escribir (ref : Ref) (producto : Compra.Producto) (heap : Heap)
    : Heap :=
  fun r => if decide (r = ref) then producto else heap r.

Record Orden : Type := mkOrden {
  productos : list Ref;
  precioTotal : number;
  emailCliente : jsstring;
  inventario : Ejemplo2.IInventario
}.

(** [new Orden(emailCliente, inventario, notificador, almacenamiento)]. *)
Definition new (emailCliente : jsstring) (inventario : Ejemplo2.IInventario)
    : Orden :=
  mkOrden [] zero emailCliente inventario.

(** [recalcularTotal()]: the reduction reads the objects as they are at
    the call. *)
Definition recalcularTotal (heap : Heap) (this : Orden) : Orden :=
  mkOrden (productos this)
    (fold_left Compra.sumar (heap <$> productos this) zero)
    (emailCliente this) (inventario this).

(** [agregarProducto(producto)]: the order afterwards, or the error
    thrown. *)
Definition agregarProducto (producto : Ref) (heap : Heap) (this : Orden)
    : Exceptions.Error + Orden :=
  if Ejemplo2.verificarStock (inventario this) (Compra.id (heap producto)) then
    inr (recalcularTotal heap
           (mkOrden (productos this ++ [producto]) (precioTotal this)
              (emailCliente this) (inventario this)))
  else
    inl (Exceptions.PlainError
           (lit "Sin stock para producto: " ++ Compra.nombre (heap producto))).

(** [getTotal()]. *)
Definition getTotal (this : Orden) : number := precioTotal this.

(** [getProductos()]: a new array of the same objects, read here as they
    are. *)
Definition getProductos (heap : Heap) (this : Orden) : list Compra.Producto :=
  heap <$> productos this.

(** What a client can reach from a new order on a given inventory by
    calling [agregarProducto] and by writing to those of its objects that
    the order does not hold. A call that throws leaves the order as it
    was. *)
Inductive alcanzable (inventario : Ejemplo2.IInventario)
    : Heap -> Orden -> Prop :=
| alcanzable_new heap emailCliente :
    alcanzable inventario heap (new emailCliente inventario)
| alcanzable_agregar heap orden producto orden' :
    alcanzable inventario heap orden ->
    agregarProducto producto heap orden = inr orden' ->
    alcanzable inventario heap orden'
| alcanzable_escribir heap orden ref producto :
    alcanzable inventario heap orden ->
    ref ∉ productos orden ->
    alcanzable inventario (escribir ref producto heap) orden.

End WithNumber.

(** The laptop of the text at address 0, and the order that holds it. *)
Definition laptop : Compra.Producto :=
  Compra.mkProducto (lit "1") (lit "Laptop") 1200%Z 1%Z.

Definition con_laptop : Orden :=
  recalcularTotal (fun _ => laptop)
    (mkOrden [0%nat] 0%Z (lit "cliente@email.com") Ejemplo2.InventarioDB).

End Referencias.

(* ===================================================================== *)
(** * Facts: regular expressions *)
(* ===================================================================== *)

Section RegexFacts.
Import JS Regex.

Example email_ok : test emailRegex (lit "john@example.com") = true.
Proof. reflexivity. Qed.

Example email_no_at : test emailRegex (lit "john.example.com") = false.
Proof. reflexivity. Qed.

Example email_space : test emailRegex (lit "jo hn@example.com") = false.
Proof. reflexivity. Qed.

Example email_no_tld : test emailRegex (lit "john@example.") = false.
Proof. reflexivity. Qed.

Example email_dots : test emailRegex (lit "a.b@c.d.e") = true.
Proof. reflexivity. Qed.

Lemma exec_more_cons a p c s :
  exec (OneOrMore a :: p) (c :: s)
  = atom_matches a c && (exec (OneOrMore a :: p) s || exec p s).
Proof. reflexivity. Qed.

(** The matcher accepts only what the pattern denotes. *)
Lemma exec_sound p : forall s, exec p s = true -> matches p s.
Proof.
  induction p as [|t p IHp]; intros s Hs.
  - destruct s; [constructor | discriminate].
  - destruct t as [a|a].
    + destruct s as [|c s]; [discriminate|].
      cbn in Hs. apply andb_true_iff in Hs as [Hc Hrest].
      constructor; auto.
    + induction s as [|c s IHs]; [discriminate|].
      rewrite exec_more_cons in Hs.
      apply andb_true_iff in Hs as [Hc Hrest].
      apply orb_true_iff in Hrest as [Hmore|Hnext].
      * specialize (IHs Hmore). inversion IHs as [| |a' p' cs s0 Hne Hall Hm]; subst.
        change (c :: cs ++ s0) with ((c :: cs) ++ s0).
        apply matches_more; [discriminate | constructor; assumption | assumption].
      * change (c :: s) with ([c] ++ s).
        apply matches_more; [discriminate | repeat constructor; assumption | auto].
Qed.

(** The matcher accepts all of what the pattern denotes: backtracking loses
    no match. *)
Lemma exec_complete p s : matches p s -> exec p s = true.
Proof.
  induction 1 as [|a p c s Hc _ IH|a p cs s Hne Hall _ IH].
  - reflexivity.
  - cbn. rewrite Hc, IH. reflexivity.
  - induction cs as [|c cs IHcs]; [congruence|].
    inversion Hall as [|? ? Hc Hall']; subst.
    change ((c :: cs) ++ s) with (c :: (cs ++ s)).
    rewrite exec_more_cons, Hc, andb_true_l.
    destruct cs as [|c' cs'].
    + rewrite app_nil_l, IH. apply orb_true_r.
    + rewrite IHcs; [reflexivity | discriminate | assumption].
Qed.

Lemma test_matches re s : test re s = true <-> matches re s.
Proof. split; [apply exec_sound | apply exec_complete]. Qed.

Lemma not_space_at_plain c : atom_matches not_space_at c = true <-> plain c.
Proof.
  unfold plain, not_space_at, atom_matches, existsb, class_atom_matches.
  rewrite orb_false_r, negb_true_iff, orb_false_iff, N.eqb_neq.
  intuition congruence.
Qed.

Lemma Forall_not_space_at cs :
  Forall (fun c => atom_matches not_space_at c = true) cs <-> Forall plain cs.
Proof. apply Forall_proper; [intros c; apply not_space_at_plain | reflexivity]. Qed.

(** X27. What [emailRegex] accepts: exactly the strings [local@domain.tld]
    whose three parts are non-empty and free of white space and of ['@'].
    So an accepted email has exactly one ['@'], and after it a ['.'] that is
    neither the first nor the last character of that part. *)
Lemma emailRegex_language s :
  test emailRegex s = true <->
  exists local domain tld,
    s = local ++ at_sign :: domain ++ dot :: tld
    /\ local <> [] /\ domain <> [] /\ tld <> []
    /\ Forall plain local /\ Forall plain domain /\ Forall plain tld.
Proof.
  rewrite test_matches. unfold emailRegex. split.
  - intros H.
    inversion H as [| |? ? l s1 Hl Hal H1]; subst; clear H.
    inversion H1 as [|? ? c1 s2 Hc1 H2|]; subst; clear H1.
    inversion H2 as [| |? ? d s3 Hd Had H3]; subst; clear H2.
    inversion H3 as [|? ? c2 s4 Hc2 H4|]; subst; clear H3.
    inversion H4 as [| |? ? t s5 Ht Hat H5]; subst; clear H4.
    inversion H5; subst; clear H5.
    unfold atom_matches in Hc1, Hc2. apply N.eqb_eq in Hc1, Hc2. subst c1 c2.
    exists l, d, t. rewrite app_nil_r.
    rewrite Forall_not_space_at in Hal, Had, Hat. auto 10.
  - intros (l & d & t & -> & Hl & Hd & Ht & Hal & Had & Hat).
    rewrite <- Forall_not_space_at in Hal, Had, Hat.
    apply matches_more; [assumption..|].
    apply matches_once; [apply N.eqb_refl|].
    apply matches_more; [assumption..|].
    apply matches_once; [apply N.eqb_refl|].
    rewrite <- (app_nil_r t).
    apply matches_more; [assumption..|constructor].
Qed.

End RegexFacts.

(* ===================================================================== *)
(** * Facts: the response builder *)
(* ===================================================================== *)

Section BuilderFacts.
Import JS.
Context {T : Type}.
Implicit Types (this : ApiResponse.t T) (calls : list (ApiResponseBuilder.Setter T)).

Lemma chain_cons s calls this :
  ApiResponseBuilder.chain (s :: calls) this
  = ApiResponseBuilder.chain calls (ApiResponseBuilder.call this s).
Proof. reflexivity. Qed.

(** No setter writes [traceId]. *)
Lemma chain_traceId calls : forall this,
  ApiResponse.traceId (ApiResponseBuilder.chain calls this)
  = ApiResponse.traceId this.
Proof.
  induction calls as [|s calls IH]; intros this; [reflexivity|].
  rewrite chain_cons, IH. destruct s; reflexivity.
Qed.

(** A field is written by its own setter only. *)
Lemma chain_status calls : forall this,
  existsb ApiResponseBuilder.is_SetStatus calls = false ->
  ApiResponse.status (ApiResponseBuilder.chain calls this)
  = ApiResponse.status this.
Proof.
  induction calls as [|s calls IH]; intros this Hnone; [reflexivity|].
  cbn in Hnone. apply orb_false_iff in Hnone as [Hs Hrest].
  rewrite chain_cons, IH by assumption. destruct s; (reflexivity || discriminate).
Qed.

Lemma chain_code calls : forall this,
  existsb ApiResponseBuilder.is_SetCode calls = false ->
  ApiResponse.code (ApiResponseBuilder.chain calls this)
  = ApiResponse.code this.
Proof.
  induction calls as [|s calls IH]; intros this Hnone; [reflexivity|].
  cbn in Hnone. apply orb_false_iff in Hnone as [Hs Hrest].
  rewrite chain_cons, IH by assumption. destruct s; (reflexivity || discriminate).
Qed.

Lemma chain_message calls : forall this,
  existsb ApiResponseBuilder.is_SetMessage calls = false ->
  ApiResponse.message (ApiResponseBuilder.chain calls this)
  = ApiResponse.message this.
Proof.
  induction calls as [|s calls IH]; intros this Hnone; [reflexivity|].
  cbn in Hnone. apply orb_false_iff in Hnone as [Hs Hrest].
  rewrite chain_cons, IH by assumption. destruct s; (reflexivity || discriminate).
Qed.

Lemma chain_data calls : forall this,
  existsb ApiResponseBuilder.is_SetData calls = false ->
  ApiResponse.data (ApiResponseBuilder.chain calls this)
  = ApiResponse.data this.
Proof.
  induction calls as [|s calls IH]; intros this Hnone; [reflexivity|].
  cbn in Hnone. apply orb_false_iff in Hnone as [Hs Hrest].
  rewrite chain_cons, IH by assumption. destruct s; (reflexivity || discriminate).
Qed.

Lemma chain_details calls : forall this,
  existsb ApiResponseBuilder.is_SetDetails calls = false ->
  ApiResponse.details (ApiResponseBuilder.chain calls this)
  = ApiResponse.details this.
Proof.
  induction calls as [|s calls IH]; intros this Hnone; [reflexivity|].
  cbn in Hnone. apply orb_false_iff in Hnone as [Hs Hrest].
  rewrite chain_cons, IH by assumption. destruct s; (reflexivity || discriminate).
Qed.

(** A setter that is called leaves its argument in the field, until the next
    call of the same setter. *)
Lemma chain_status_last calls1 calls2 status this :
  existsb ApiResponseBuilder.is_SetStatus calls2 = false ->
  ApiResponse.status
    (ApiResponseBuilder.chain
       (calls1 ++ ApiResponseBuilder.SetStatus status :: calls2) this)
  = status.
Proof.
  intros Hnone. unfold ApiResponseBuilder.chain.
  rewrite fold_left_app. cbn [fold_left].
  fold (ApiResponseBuilder.chain calls2
          (ApiResponseBuilder.call (fold_left ApiResponseBuilder.call calls1 this)
             (ApiResponseBuilder.SetStatus status))).
  rewrite chain_status by assumption. reflexivity.
Qed.

(** C8. Whatever setters are chained between the constructor and [build],
    the response that [build] returns carries the trace id given to the
    constructor; and each field whose setter is not among the calls still
    has its initial value: status 200, code ['SUCCESS'], message [''], data
    and details absent. *)
Theorem build_traceId_and_defaults (traceId : option jsstring) calls :
  let response :=
    ApiResponseBuilder.build
      (ApiResponseBuilder.chain calls (ApiResponseBuilder.new traceId)) in
  ApiResponse.traceId response = traceId
  /\ (existsb ApiResponseBuilder.is_SetStatus calls = false ->
      ApiResponse.status response = 200%Z)
  /\ (existsb ApiResponseBuilder.is_SetCode calls = false ->
      ApiResponse.code response = lit "SUCCESS")
  /\ (existsb ApiResponseBuilder.is_SetMessage calls = false ->
      ApiResponse.message response = [])
  /\ (existsb ApiResponseBuilder.is_SetData calls = false ->
      ApiResponse.data response = None)
  /\ (existsb ApiResponseBuilder.is_SetDetails calls = false ->
      ApiResponse.details response = None).
Proof.
  cbv zeta. unfold ApiResponseBuilder.build.
  split; [apply chain_traceId|].
  repeat split; intros Hnone.
  - rewrite chain_status by assumption. reflexivity.
  - rewrite chain_code by assumption. reflexivity.
  - rewrite chain_message by assumption. reflexivity.
  - rewrite chain_data by assumption. reflexivity.
  - rewrite chain_details by assumption. reflexivity.
Qed.

End BuilderFacts.

(** Two chains: that of the router's DELETE route, which sets status, code
    and message only, and one that sets data and details only. *)
Lemma build_traceId_and_defaults_witness :
  let deleted : list (ApiResponseBuilder.Setter Empty_set) :=
    [ApiResponseBuilder.SetStatus 200;
     ApiResponseBuilder.SetCode (JS.lit "USER_DELETED");
     ApiResponseBuilder.SetMessage (JS.lit "Usuario eliminado exitosamente")] in
  let detailed : list (ApiResponseBuilder.Setter Z) :=
    [ApiResponseBuilder.SetData 7%Z;
     ApiResponseBuilder.SetDetails (Some JS.JNull)] in
  let response1 :=
    ApiResponseBuilder.build
      (ApiResponseBuilder.chain deleted
         (ApiResponseBuilder.new (Some (JS.lit "t-1")))) in
  let response2 :=
    ApiResponseBuilder.build
      (ApiResponseBuilder.chain detailed
         (ApiResponseBuilder.new (Some (JS.lit "t-2")))) in
  (ApiResponse.traceId response1 = Some (JS.lit "t-1")
   /\ ApiResponse.data response1 = None
   /\ ApiResponse.details response1 = None)
  /\ (ApiResponse.traceId response2 = Some (JS.lit "t-2")
      /\ ApiResponse.status response2 = 200%Z
      /\ ApiResponse.code response2 = JS.lit "SUCCESS"
      /\ ApiResponse.message response2 = []).
Proof.
  intros deleted detailed response1 response2.
  destruct (build_traceId_and_defaults (Some (JS.lit "t-1")) deleted)
    as (Htrace1 & _ & _ & _ & Hdata & Hdetails).
  destruct (build_traceId_and_defaults (Some (JS.lit "t-2")) detailed)
    as (Htrace2 & Hstatus & Hcode & Hmessage & _ & _).
  split.
  - split; [exact Htrace1|].
    split; [apply Hdata; reflexivity | apply Hdetails; reflexivity].
  - split; [exact Htrace2|].
    split; [apply Hstatus; reflexivity|].
    split; [apply Hcode; reflexivity | apply Hmessage; reflexivity].
Defined.

(* ===================================================================== *)
(** * Facts: the middlewares *)
(* ===================================================================== *)

Section MiddlewareFacts.
Import JS.

(** C5. After the trace middleware, [req.traceId] is the request's
    [x-trace-id] header when that header is present and not empty, and the
    generated UUID otherwise; the response header [x-trace-id] holds the
    same value. *)
Theorem traceMiddleware_traceId (uuid : jsstring) (req : Http.Request)
    (res : Http.Response) :
  let req' := fst (Middleware.traceMiddleware uuid req res) in
  let res' := snd (Middleware.traceMiddleware uuid req res) in
  Http.traceId req'
  = Some (match Http.req_headers req !! lit "x-trace-id" with
          | Some (c :: header) => c :: header
          | Some [] | None => uuid
          end)
  /\ Http.res_headers res' !! lit "x-trace-id" = Http.traceId req'.
Proof.
  cbv zeta. unfold Middleware.traceMiddleware, Http.setHeader. cbn [fst snd].
  cbn [Http.traceId Http.res_headers]. rewrite lookup_insert_eq.
  split; [|reflexivity].
  destruct (Http.req_headers req !! lit "x-trace-id") as [[|c header]|];
    reflexivity.
Qed.

(** The middleware touches nothing else: the other fields of the request,
    the other response headers, the status and the body stay. *)
Lemma traceMiddleware_frame (uuid : jsstring) (req : Http.Request)
    (res : Http.Response) :
  let req' := fst (Middleware.traceMiddleware uuid req res) in
  let res' := snd (Middleware.traceMiddleware uuid req res) in
  Http.req_headers req' = Http.req_headers req
  /\ Http.params_id req' = Http.params_id req
  /\ Http.body req' = Http.body req
  /\ (forall name, name <> lit "x-trace-id" ->
      Http.res_headers res' !! name = Http.res_headers res !! name)
  /\ Http.statusCode res' = Http.statusCode res
  /\ Http.sent res' = Http.sent res.
Proof.
  cbv zeta. unfold Middleware.traceMiddleware, Http.setHeader. cbn.
  repeat split; try reflexivity.
  intros name Hname. apply lookup_insert_ne. congruence.
Qed.

(** C1. The body that the global error handler sends has the status, code
    and details of the exception when the error is a [BaseException], and
    500, ['INTERNAL_SERVER_ERROR'] and no details for any other [Error];
    its message is the error's message, or ['Error interno del servidor']
    when that message is empty. The HTTP status is the body's status. So a
    [NotFoundException] is answered with 404 and ['NOT_FOUND'], and a
    [BadRequestException] with 400 and ['BAD_REQUEST'], each with its
    details. *)
Theorem errorHandler_body (error : Exceptions.Error) (req : Http.Request)
    (res : Http.Response) (message : option jsstring)
    (details : option JsValue) :
  let body := Middleware.errorResponse error req in
  let body_of e := Middleware.errorResponse e req in
  Http.sent (Middleware.errorHandler error req res) = Some (Http.ErrorPayload body)
  /\ Http.statusCode (Middleware.errorHandler error req res) = Http.err_status body
  /\ match error with
     | Exceptions.Exception _ status code _ details' =>
         Http.err_status body = status /\ Http.err_code body = code
         /\ Http.err_details body = details'
     | Exceptions.PlainError _ =>
         Http.err_status body = 500%Z
         /\ Http.err_code body = lit "INTERNAL_SERVER_ERROR"
         /\ Http.err_details body = None
     end
  /\ Http.err_message body
     = match Exceptions.message error with
       | [] => lit "Error interno del servidor"
       | c :: m => c :: m
       end
  /\ (Http.err_status (body_of (Exceptions.NotFoundException message details)) = 404%Z
      /\ Http.err_code (body_of (Exceptions.NotFoundException message details))
         = lit "NOT_FOUND"
      /\ Http.err_details (body_of (Exceptions.NotFoundException message details))
         = details)
  /\ (Http.err_status (body_of (Exceptions.BadRequestException message details)) = 400%Z
      /\ Http.err_code (body_of (Exceptions.BadRequestException message details))
         = lit "BAD_REQUEST"
      /\ Http.err_details (body_of (Exceptions.BadRequestException message details))
         = details).
Proof.
  cbv zeta. split; [reflexivity|]. split; [reflexivity|].
  split; [destruct error; repeat split; reflexivity|].
  split; [|repeat split; reflexivity].
  unfold Middleware.errorResponse. cbn [Http.err_message or_else].
  destruct (Exceptions.message error); reflexivity.
Qed.

End MiddlewareFacts.

(* ===================================================================== *)
(** * Facts: the users router *)
(* ===================================================================== *)

Section UsersRoutesFacts.
Import JS UsersRoutes.
Implicit Types (users : gmap jsstring Http.User) (req : Http.Request)
  (res : Http.Response) (user : Http.User).

(** [Array.from(users.values()).some(p)] finds a stored user, and finds any
    stored user that satisfies [p]. *)
Lemma values_some users (p : Http.User -> bool) :
  existsb p (snd <$> map_to_list users) = true
  <-> exists key user, users !! key = Some user /\ p user = true.
Proof.
  rewrite existsb_exists. split.
  - intros (user & Hin & Hp).
    apply list_elem_of_In, list_elem_of_fmap in Hin as ([key user'] & -> & Hin).
    apply elem_of_map_to_list in Hin. exists key, user'. auto.
  - intros (key & user & Hlookup & Hp). exists user. split; [|assumption].
    apply list_elem_of_In, list_elem_of_fmap. exists (key, user).
    split; [reflexivity|]. apply elem_of_map_to_list. assumption.
Qed.

Lemma values_none users (p : Http.User -> bool) :
  existsb p (snd <$> map_to_list users) = false
  <-> forall key user, users !! key = Some user -> p user = false.
Proof.
  rewrite <- not_true_iff_false, values_some. split.
  - intros Hnone key user Hlookup. apply not_true_iff_false.
    intros Hp. apply Hnone. eauto.
  - intros Hall (key & user & Hlookup & Hp).
    rewrite (Hall _ _ Hlookup) in Hp. discriminate.
Qed.

Lemma streq_true (a b : jsstring) : streq a b = true <-> a = b.
Proof. unfold streq. apply bool_decide_eq_true. Qed.

Lemma streq_false (a b : jsstring) : streq a b = false <-> a <> b.
Proof. unfold streq. apply bool_decide_eq_false. Qed.

Lemma narrow_Some v s : narrow v = Some s <-> v = Some s /\ s <> [].
Proof.
  destruct v as [[|c v]|]; cbn; split; try intros [? ?]; try congruence.
  intros [= <-]. split; [reflexivity | discriminate].
Qed.

Lemma narrow_None v : narrow v = None <-> missing_or_empty v.
Proof.
  unfold missing_or_empty.
  destruct v as [[|c v]|]; cbn; split; try intros [? | ?]; try congruence; auto.
Qed.

Ltac thrown :=
  eexists; split; [reflexivity | split; [|reflexivity]; reflexivity].

Ltac run_handler :=
  unfold get_user, put_user, delete_user, post_users, try_catch_next,
    bind, ret, throw, users_get, users_has, users_set, users_delete,
    users_values.

(** GET /users/:id either misses the id and throws, or finds it and sends;
    it never writes to the Map. *)
Lemma get_user_cases req res users :
  let userId := Http.params_id req in
  (users !! userId = None
   /\ get_user req res users
      = (users, Next (Exceptions.NotFoundException (Some (msg_not_found userId)) None)))
  \/ (exists user res', users !! userId = Some user
      /\ get_user req res users = (users, Sent res')).
Proof.
  cbv zeta. run_handler.
  destruct (users !! Http.params_id req) as [user|] eqn:Hget; eauto.
Qed.

(** DELETE /users/:id either misses the id and throws, or deletes it. *)
Lemma delete_user_cases req res users :
  let userId := Http.params_id req in
  (users !! userId = None
   /\ delete_user req res users
      = (users, Next (Exceptions.NotFoundException (Some (msg_not_found userId)) None)))
  \/ (exists user res', users !! userId = Some user
      /\ delete_user req res users = (delete userId users, Sent res')).
Proof.
  cbv zeta. run_handler.
  destruct (users !! Http.params_id req) as [user|] eqn:Hget.
  - right. rewrite bool_decide_eq_true_2 by eauto. cbn. eauto.
  - left. rewrite bool_decide_eq_false_2 by (intros [? ?]; discriminate).
    cbn. auto.
Qed.

(** PUT /users/:id misses the id and throws [NotFoundException], or refuses
    the body with a [BadRequestException], or stores the updated user under
    the id; in the last case an email given in the body belongs to no user
    with another id. *)
Lemma put_user_cases req res users :
  let userId := Http.params_id req in
  (users !! userId = None
   /\ put_user req res users
      = (users, Next (Exceptions.NotFoundException (Some (msg_not_found userId)) None)))
  \/ (exists existingUser error,
        users !! userId = Some existingUser
        /\ Exceptions.instanceof_BadRequestException error = true
        /\ put_user req res users = (users, Next error))
  \/ (exists existingUser res',
        users !! userId = Some existingUser
        /\ (forall email key user,
              narrow (Http.body_email (Http.body req)) = Some email ->
              users !! key = Some user -> Http.email user = email ->
              Http.id user = userId)
        /\ put_user req res users
           = (<[userId := updatedUser req existingUser]> users, Sent res')).
Proof.
  cbv zeta. run_handler.
  destruct (users !! Http.params_id req) as [existingUser|] eqn:Hget;
    [right | left; auto].
  destruct (negb _ && negb _) eqn:Hboth; [left; exists existingUser; thrown|].
  destruct (narrow _) as [email|] eqn:Hemail.
  - destruct (negb (Regex.test _ _)) eqn:Htest;
      [left; exists existingUser; thrown|].
    destruct (existsb _ _) eqn:Hex; [left; exists existingUser; thrown|].
    right. exists existingUser. eexists. split; [reflexivity|].
    split; [|reflexivity].
    intros email' key user [= <-] Hlookup Hmail.
    rewrite values_none in Hex. specialize (Hex _ _ Hlookup).
    apply andb_false_iff in Hex as [Hne | Hid].
    + apply streq_false in Hne. contradiction.
    + apply negb_false_iff, streq_true in Hid. assumption.
  - right. exists existingUser. eexists. split; [reflexivity|].
    split; [|reflexivity]. intros email key user [=].
Qed.

(** POST /users refuses the body with a [BadRequestException] and leaves the
    Map alone, or stores the new user under the generated id and answers
    201. It refuses exactly the bodies in [refused]. *)
Lemma post_users_cases uuid now req res users :
  (refused (Http.body req) users
   /\ exists error,
        Exceptions.instanceof_BadRequestException error = true
        /\ post_users uuid now req res users = (users, Next error))
  \/ (~ refused (Http.body req) users
      /\ exists email name,
           Http.body_email (Http.body req) = Some email
           /\ Http.body_name (Http.body req) = Some name
           /\ post_users uuid now req res users
              = (<[uuid := Http.mkUser uuid name email now]> users,
                 Sent (created req res (Http.mkUser uuid name email now)))).
Proof.
  unfold refused. run_handler.
  destruct (narrow (Http.body_email _)) as [email|] eqn:Hemail.
  2:{ left. apply narrow_None in Hemail. split; [auto|].
      eexists; split; [|reflexivity]; reflexivity. }
  destruct (narrow (Http.body_name _)) as [name|] eqn:Hname.
  2:{ left. apply narrow_None in Hname. split; [auto|].
      eexists; split; [|reflexivity]; reflexivity. }
  apply narrow_Some in Hemail as [Hemail Hemail_ne].
  apply narrow_Some in Hname as [Hname Hname_ne].
  destruct (negb (Regex.test _ _)) eqn:Htest.
  { left. apply negb_true_iff in Htest. split; [eauto 6|].
    eexists; split; [|reflexivity]; reflexivity. }
  apply negb_false_iff in Htest.
  destruct (existsb _ _) eqn:Hex.
  { left. apply values_some in Hex as (key & user & Hlookup & Heq).
    apply streq_true in Heq.
    split; [|eexists; split; [|reflexivity]; reflexivity].
    right; right; right. exists key, user. split; [assumption|]. congruence. }
  right. split.
  - unfold missing_or_empty. rewrite Hemail, Hname.
    intros [[?|?] | [[?|?] | [(e & [= <-] & He) | (key & user & Hlookup & [= Heq])]]];
      try congruence.
    rewrite values_none in Hex. specialize (Hex _ _ Hlookup).
    apply streq_false in Hex. congruence.
  - exists email, name. auto.
Qed.

(** C2. GET, PUT and DELETE on [/users/:id] throw [NotFoundException] if
    and only if the id is not a key of the users Map, and then with the
    message ['Usuario <id> no encontrado']; and whenever one of these
    handlers throws, whatever the exception, the Map is as it was. *)
Theorem id_route_not_found (route : IdRoute) req res users :
  let userId := Http.params_id req in
  let result := id_route route req res users in
  (throws_NotFoundException (snd result) <-> users !! userId = None)
  /\ (users !! userId = None ->
      snd result
      = Next (Exceptions.NotFoundException (Some (msg_not_found userId)) None))
  /\ (throws (snd result) -> fst result = users).
Proof.
  cbv zeta. unfold throws_NotFoundException, throws.
  destruct route; unfold id_route.
  - destruct (get_user_cases req res users)
      as [[Hnone ->] | (user & res' & Hsome & ->)]; cbn [fst snd].
    + repeat split; eauto.
    + rewrite Hsome. repeat split; try discriminate.
      intros (error & [=] & _).
  - destruct (put_user_cases req res users)
      as [[Hnone ->] | [(user & error & Hsome & Hbad & ->)
                       | (user & res' & Hsome & _ & ->)]]; cbn [fst snd].
    + repeat split; eauto.
    + rewrite Hsome. repeat split; try discriminate.
      intros (error' & [= <-] & Hnf).
      destruct error as [|[] ? ? ? ?]; discriminate.
    + rewrite Hsome. repeat split; try discriminate.
      * intros (error & [=] & _).
      * intros (error & [=]).
  - destruct (delete_user_cases req res users)
      as [[Hnone ->] | (user & res' & Hsome & ->)]; cbn [fst snd].
    + repeat split; eauto.
    + rewrite Hsome. repeat split; try discriminate.
      * intros (error & [=] & _).
      * intros (error & [=]).
Qed.

Lemma id_route_not_found_witness :
  snd (id_route DELETE sample_req sample_res ∅)
  = Next (Exceptions.NotFoundException (Some (lit "Usuario u1 no encontrado")) None)
  /\ fst (id_route DELETE sample_req sample_res ∅) = ∅.
Proof.
  destruct (id_route_not_found DELETE sample_req sample_res ∅)
    as (Hiff & Hthrown & Hsame).
  split.
  - apply Hthrown. reflexivity.
  - apply Hsame. destruct Hiff as [_ Hiff].
    destruct (Hiff eq_refl) as (error & Herror & _). exists error. exact Herror.
Defined.

Lemma or_else_narrow v d :
  or_else v d = match narrow v with Some s => s | None => d end.
Proof. destruct v as [[|c v]|]; reflexivity. Qed.

End UsersRoutesFacts.

(* ===================================================================== *)
(** * Facts: the task managers *)
(* ===================================================================== *)

Section FindFirst.
Context {A : Type} (P : A -> Prop) `{forall x, Decision (P x)} (f : A -> A).

(** [find] passes over the elements that fail the test and stops at the
    first that passes it. *)
Lemma list_find_first (before : list A) (x : A) (after : list A) :
  Forall (fun y => ~ P y) before -> P x ->
  list_find P (before ++ x :: after) = Some (length before, x).
Proof.
  intros Hbefore Hx. apply list_find_Some. split; [|split; [assumption|]].
  - rewrite lookup_app_r by lia. rewrite Nat.sub_diag. reflexivity.
  - intros j y Hj Hlt. rewrite lookup_app_l in Hj by assumption.
    rewrite Forall_forall in Hbefore. apply Hbefore.
    apply list_elem_of_lookup. eauto.
Qed.

(** Writing the element found leaves the list around it as it is. *)
Lemma alter_first (before : list A) (x : A) (after : list A) :
  alter f (length before) (before ++ x :: after) = before ++ f x :: after.
Proof.
  rewrite <- (Nat.add_0_r (length before)) at 1. rewrite alter_app_r.
  reflexivity.
Qed.

End FindFirst.

Section TaskFacts.
Import JS.

(** C7. [TaskManager.completeTask], and likewise [TaskMgr.done], sets the
    status of the first task with the given id to completed and returns
    true: the tasks before and after it, their order, and the other fields
    of that task stay as they are. When no task has the id it returns false
    and the list is unchanged. *)
Theorem completeTask_frame (taskId : jsstring)
    (tasks : list TaskRefactor.Task) (d : list TaskBase.Item) :
  (forall before task after,
      tasks = before ++ task :: after ->
      Forall (fun t => TaskRefactor.id t <> taskId) before ->
      TaskRefactor.id task = taskId ->
      TaskRefactor.completeTask taskId tasks
      = (before
           ++ TaskRefactor.mkTask (TaskRefactor.id task) (TaskRefactor.title task)
                (TaskRefactor.isPriority task) TaskRefactor.COMPLETED
                (TaskRefactor.createdAt task)
           :: after,
         true))
  /\ (Forall (fun t => TaskRefactor.id t <> taskId) tasks ->
      TaskRefactor.completeTask taskId tasks = (tasks, false))
  /\ (forall before t after,
        d = before ++ t :: after ->
        Forall (fun x => TaskBase.id x <> taskId) before ->
        TaskBase.id t = taskId ->
        TaskBase.done taskId d
        = (before
             ++ TaskBase.mkItem (TaskBase.title t) (TaskBase.p t) (TaskBase.id t)
                  (lit "completed") (TaskBase.ct t)
             :: after,
           true))
  /\ (Forall (fun x => TaskBase.id x <> taskId) d ->
      TaskBase.done taskId d = (d, false)).
Proof.
  unfold TaskRefactor.completeTask, TaskBase.done. repeat split.
  - intros before task after -> Hbefore Htask.
    rewrite (list_find_first (fun t => TaskRefactor.id t = taskId)) by assumption.
    rewrite alter_first. reflexivity.
  - intros Hnone.
    apply (list_find_None (fun t => TaskRefactor.id t = taskId)) in Hnone.
    rewrite Hnone. reflexivity.
  - intros before t after -> Hbefore Ht.
    rewrite (list_find_first (fun x => TaskBase.id x = taskId)) by assumption.
    rewrite alter_first. reflexivity.
  - intros Hnone.
    apply (list_find_None (fun x => TaskBase.id x = taskId)) in Hnone.
    rewrite Hnone. reflexivity.
Qed.

Lemma completeTask_frame_witness :
  TaskRefactor.completeTask (lit "id2") [TaskClients.tarea1; TaskClients.tarea2]
  = ([TaskClients.tarea1;
      TaskRefactor.mkTask (lit "id2") (lit "Tarea 2") false TaskRefactor.COMPLETED 0],
     true)
  /\ TaskRefactor.completeTask (lit "non-existent-id")
       [TaskClients.tarea1; TaskClients.tarea2]
     = ([TaskClients.tarea1; TaskClients.tarea2], false)
  /\ TaskBase.done (lit "id2") [TaskClients.item1; TaskClients.item2]
     = ([TaskClients.item1;
         TaskBase.mkItem (Some (lit "Tarea 2")) (Some false) (lit "id2")
           (lit "completed") 0],
        true)
  /\ TaskBase.done (lit "non-existent-id") [TaskClients.item1; TaskClients.item2]
     = ([TaskClients.item1; TaskClients.item2], false).
Proof.
  destruct (completeTask_frame (lit "id2")
              [TaskClients.tarea1; TaskClients.tarea2]
              [TaskClients.item1; TaskClients.item2]) as (Hhit & _ & Hhit' & _).
  destruct (completeTask_frame (lit "non-existent-id")
              [TaskClients.tarea1; TaskClients.tarea2]
              [TaskClients.item1; TaskClients.item2]) as (_ & Hmiss & _ & Hmiss').
  split; [|split; [|split]].
  - apply (Hhit [TaskClients.tarea1] TaskClients.tarea2 []);
      [reflexivity | repeat constructor; discriminate | reflexivity].
  - apply Hmiss. repeat constructor; discriminate.
  - apply (Hhit' [TaskClients.item1] TaskClients.item2 []);
      [reflexivity | repeat constructor; discriminate | reflexivity].
  - apply Hmiss'. repeat constructor; discriminate.
Defined.

(** [done] and [completeTask] do the same to lists that say the same. *)
Lemma done_completeTask_agree taskId d tasks :
  Forall2 TaskClients.same_task d tasks ->
  snd (TaskBase.done taskId d) = snd (TaskRefactor.completeTask taskId tasks)
  /\ Forall2 TaskClients.same_task
       (fst (TaskBase.done taskId d))
       (fst (TaskRefactor.completeTask taskId tasks)).
Proof.
  unfold TaskBase.done, TaskRefactor.completeTask.
  induction 1 as [|item task d tasks Hsame Hrest IH]; [split; constructor|].
  cbn [list_find].
  assert (Hid : TaskBase.id item = TaskRefactor.id task) by apply Hsame.
  rewrite Hid.
  destruct (decide (TaskRefactor.id task = taskId)) as [Hhit|Hmiss].
  - split; [reflexivity|]. cbn. constructor; [|assumption].
    destruct Hsame as (Htitle & Hp & _ & _ & Hct). repeat split; assumption.
  - destruct (list_find _ d) as [[k x]|], (list_find _ tasks) as [[k' y]|];
      cbn in IH |- *; destruct IH as [Hresult IH]; try discriminate.
    + split; [reflexivity|]. constructor; assumption.
    + split; [reflexivity|]. constructor; assumption.
Qed.

(** One call does the same to both classes when the title it adds, if any,
    is not empty. *)
Lemma call_agree call d tasks :
  Forall2 TaskClients.same_task d tasks ->
  TaskClients.added_title call <> Some [] ->
  snd (TaskClients.run_bad call d) = snd (TaskClients.run_good call tasks)
  /\ Forall2 TaskClients.same_task
       (fst (TaskClients.run_bad call d))
       (fst (TaskClients.run_good call tasks)).
Proof.
  intros Hsame Htitle. destruct call as [title isPriority generatedId now|taskId].
  - cbn -[lit]. unfold TaskBase.add, TaskRefactor.addTask. cbn -[lit].
    destruct title as [|c title]; [exfalso; apply Htitle; reflexivity|].
    cbn -[lit].
    assert (Hnew : TaskClients.same_task
                     (TaskBase.mkItem (Some (c :: title)) (Some isPriority)
                        generatedId (lit "pending") now)
                     (TaskRefactor.mkTask generatedId (c :: title) isPriority
                        TaskRefactor.PENDING now))
      by (repeat split).
    destruct isPriority.
    + rewrite bool_decide_eq_true_2 by reflexivity.
      split; [reflexivity|]. constructor; assumption.
    + rewrite bool_decide_eq_false_2 by discriminate.
      split; [reflexivity|]. apply Forall2_app; [assumption|].
      constructor; [assumption | constructor].
  - apply done_completeTask_agree. assumption.
Qed.

(** Up to the renaming, [TaskMgr] and [TaskManager] behave alike on every
    session that adds no empty title: the same booleans come back, and the
    lists hold the same titles, priorities, ids, statuses and dates in the
    same order. *)
Lemma sessions_agree calls : forall d tasks,
  Forall2 TaskClients.same_task d tasks ->
  Forall (fun call => TaskClients.added_title call <> Some []) calls ->
  snd (TaskClients.session TaskClients.run_bad calls d)
  = snd (TaskClients.session TaskClients.run_good calls tasks)
  /\ Forall2 TaskClients.same_task
       (fst (TaskClients.session TaskClients.run_bad calls d))
       (fst (TaskClients.session TaskClients.run_good calls tasks)).
Proof.
  induction calls as [|call calls IH]; intros d tasks Hsame Htitles.
  - split; [reflexivity | assumption].
  - apply Forall_cons in Htitles as [Htitle Htitles].
    destruct (call_agree call d tasks Hsame Htitle) as [Hresult Hsame'].
    cbn [TaskClients.session].
    destruct (TaskClients.run_bad call d) as [d' result].
    destruct (TaskClients.run_good call tasks) as [tasks' result'].
    cbn [fst snd] in Hresult, Hsame'. subst result'.
    destruct (IH d' tasks' Hsame' Htitles) as [Hresults Hfinal].
    destruct (TaskClients.session TaskClients.run_bad calls d') as [d'' results].
    destruct (TaskClients.session TaskClients.run_good calls tasks')
      as [tasks'' results'].
    cbn [fst snd] in *. subst results'. auto.
Qed.

(** The last test of [refactor.test.ts], on both classes: the priority task
    comes first. *)
Example priority_task_first :
  let calls := [TaskClients.Add (lit "Task 1") false (lit "id1") 0;
                TaskClients.Add (lit "Task 2") true (lit "id2") 0] in
  TaskRefactor.title
    <$> fst (TaskClients.session TaskClients.run_good calls [])
  = [lit "Task 2"; lit "Task 1"]
  /\ TaskBase.title
      <$> fst (TaskClients.session TaskClients.run_bad calls [])
     = [Some (lit "Task 2"); Some (lit "Task 1")]
  /\ snd (TaskClients.session TaskClients.run_good calls []) = [true; true]
  /\ snd (TaskClients.session TaskClients.run_bad calls []) = [true; true].
Proof. repeat split; reflexivity. Qed.

(** C6, where the two classes part. Given an empty title, [TaskMgr.add]
    returns false and adds nothing, while [TaskManager.addTask] adds the
    task and returns true: the refactoring has lost the guard on the
    title. *)
Theorem empty_title_diverges (isPriority : bool) (generatedId : jsstring)
    (now : Z) :
  let call := TaskClients.Add [] isPriority generatedId now in
  TaskClients.run_bad call [] = ([], false)
  /\ TaskClients.run_good call []
     = ([TaskRefactor.mkTask generatedId [] isPriority TaskRefactor.PENDING now],
        true).
Proof. destruct isPriority; split; reflexivity. Qed.

End TaskFacts.

(* ===================================================================== *)
(** * Facts: the order totals and the inventories *)
(* ===================================================================== *)

Section CompraFacts.
Import JS.
Context `{Number}.
Implicit Types (lista : list Compra.Producto) (producto : Compra.Producto).

(** [Inventario.verificarStock] never fails a product, so the stock loop of
    [procesarCompra] never throws. *)
Lemma validarStock_None lista : Ejemplo1.validarStock lista = None.
Proof. induction lista as [|producto lista IH]; [reflexivity | exact IH]. Qed.

(** Adding products one by one appends them, in order, and leaves the
    total alone. *)
Lemma agregar_todos lista : forall gestor,
  let gestor' :=
    fold_left
      (fun gestor p =>
         Ejemplo1.agregarProducto (Compra.id p) (Compra.nombre p)
           (Compra.precio p) (Compra.cantidad p) gestor)
      lista gestor in
  Ejemplo1.productos gestor' = Ejemplo1.productos gestor ++ lista
  /\ Ejemplo1.precioTotal gestor' = Ejemplo1.precioTotal gestor.
Proof.
  induction lista as [|producto lista IH]; intros gestor; cbn [fold_left].
  - rewrite app_nil_r. auto.
  - destruct (IH (Ejemplo1.agregarProducto (Compra.id producto)
                    (Compra.nombre producto) (Compra.precio producto)
                    (Compra.cantidad producto) gestor)) as [-> ->].
    destruct producto. cbn. rewrite <- app_assoc. auto.
Qed.

(** With an inventory that has every product of the list, every product is
    added; an order whose total is the reduction of its products stays
    so. *)
Lemma ordenar_en_stock (inventario : Ejemplo2.IInventario) lista : forall orden,
  Ejemplo2.inventario orden = inventario ->
  Forall (fun p => Ejemplo2.verificarStock inventario (Compra.id p) = true) lista ->
  Ejemplo2.precioTotal orden = Compra.reduce_total (Ejemplo2.productos orden) ->
  exists orden',
    Ejemplo2.ordenar lista orden = inr orden'
    /\ Ejemplo2.productos orden' = Ejemplo2.productos orden ++ lista
    /\ Ejemplo2.precioTotal orden' = Compra.reduce_total (Ejemplo2.productos orden').
Proof.
  induction lista as [|producto lista IH]; intros orden Hinv Hstock Htotal;
    cbn [Ejemplo2.ordenar].
  - exists orden. rewrite app_nil_r. auto.
  - apply Forall_cons in Hstock as [Hproducto Hstock].
    unfold Ejemplo2.agregarProducto. rewrite Hinv, Hproducto.
    destruct (IH (Ejemplo2.recalcularTotal
                    (Ejemplo2.mkOrden (Ejemplo2.productos orden ++ [producto])
                       (Ejemplo2.precioTotal orden) (Ejemplo2.emailCliente orden)
                       inventario)) eq_refl Hstock eq_refl)
      as (orden' & -> & Hproductos & Htotal').
    exists orden'. split; [reflexivity|]. split; [|exact Htotal'].
    rewrite Hproductos. cbn. rewrite <- app_assoc. reflexivity.
Qed.

(** C9, as amended. [GestorProcesoCompra.calcularPrecioTotal] and
    [Orden.recalcularTotal] leave the same [precioTotal] for the same
    products: the left fold, from 0, of [total + precio * cantidad] over
    the products in order. So for one list of products, each in stock and
    added one by one, [obtenerTotal], once [procesarCompra] has run after
    the last of them was added, and [getTotal] of the order return the same
    total; until [procesarCompra] runs, [obtenerTotal] returns the initial
    0. *)
Theorem totals_agree_once_processed (emailCliente : jsstring) (total0 : number)
    (inventario : Ejemplo2.IInventario) lista :
  Forall (fun p => Ejemplo2.verificarStock inventario (Compra.id p) = true) lista ->
  let total :=
    fold_left
      (fun total prod => add total (mul (Compra.precio prod) (Compra.cantidad prod)))
      lista zero in
  Ejemplo1.precioTotal
    (Ejemplo1.calcularPrecioTotal (Ejemplo1.mkGestor lista total0 emailCliente))
  = total
  /\ Ejemplo2.precioTotal
       (Ejemplo2.recalcularTotal
          (Ejemplo2.mkOrden lista total0 emailCliente inventario))
     = total
  /\ (exists gestor orden,
        Ejemplo1.comprar emailCliente lista = inr gestor
        /\ Ejemplo2.ordenar lista (Ejemplo2.new emailCliente inventario)
           = inr orden
        /\ Ejemplo1.productos gestor = lista
        /\ Ejemplo2.getProductos orden = lista
        /\ Ejemplo1.obtenerTotal gestor = total
        /\ Ejemplo2.getTotal orden = total)
  /\ Ejemplo1.obtenerTotal
       (fold_left
          (fun gestor p =>
             Ejemplo1.agregarProducto (Compra.id p) (Compra.nombre p)
               (Compra.precio p) (Compra.cantidad p) gestor)
          lista (Ejemplo1.new emailCliente))
     = zero.
Proof.
  intros Hstock. cbv zeta. split; [reflexivity|]. split; [reflexivity|].
  destruct (agregar_todos lista (Ejemplo1.new emailCliente)) as [Hgestor Hzero].
  cbv zeta in Hgestor, Hzero. split; [|exact Hzero].
  destruct (ordenar_en_stock inventario lista
              (Ejemplo2.new emailCliente inventario) eq_refl Hstock eq_refl)
    as (orden & Hordenar & Hproductos & Htotal).
  cbn [Ejemplo1.new Ejemplo1.productos app] in Hgestor.
  unfold Ejemplo1.comprar, Ejemplo1.procesarCompra.
  rewrite validarStock_None.
  eexists. exists orden. split; [reflexivity|]. split; [exact Hordenar|].
  cbn [Ejemplo2.new Ejemplo2.productos app] in Hproductos.
  unfold Ejemplo2.getProductos, Ejemplo2.getTotal, Ejemplo1.obtenerTotal.
  rewrite Htotal, Hproductos.
  unfold Ejemplo1.calcularPrecioTotal.
  cbn [Ejemplo1.productos Ejemplo1.precioTotal]. rewrite Hgestor.
  repeat split; reflexivity.
Qed.

(** Until [procesarCompra] runs, the bad design still reports the initial
    total, whatever has been added. *)
Lemma obtenerTotal_before_procesarCompra (emailCliente : jsstring) lista :
  Ejemplo1.obtenerTotal
    (fold_left
       (fun gestor p =>
          Ejemplo1.agregarProducto (Compra.id p) (Compra.nombre p)
            (Compra.precio p) (Compra.cantidad p) gestor)
       lista (Ejemplo1.new emailCliente))
  = zero.
Proof.
  destruct (agregar_todos lista (Ejemplo1.new emailCliente)) as [_ Htotal].
  exact Htotal.
Qed.

(** Adding a product changes neither the inventory of the order nor the
    products already there. *)
Lemma agregarProducto_inventario producto (orden orden' : Solucion.Orden) :
  Solucion.agregarProducto producto orden = Solucion.Fulfilled orden' ->
  Solucion.inventario orden' = Solucion.inventario orden
  /\ Solucion.productos orden' = Solucion.productos orden ++ [producto].
Proof.
  unfold Solucion.agregarProducto.
  destruct (Solucion.verificarStock _ _) as [[|]|reason]; cbn; try discriminate.
  intros [= <-]. auto.
Qed.

(** C10. [InventarioReal.verificarStock] resolves to true for every product
    id. So on an order built with an [InventarioReal], [agregarProducto]
    never takes the branch that throws ['Sin stock para el producto']: it
    is fulfilled, with the product added and the total recalculated. *)
Theorem InventarioReal_never_out_of_stock (productoId : jsstring)
    producto (orden : Solucion.Orden) :
  Solucion.inventario orden = Solucion.InventarioReal ->
  Solucion.verificarStock Solucion.InventarioReal productoId
  = Solucion.Fulfilled true
  /\ Solucion.agregarProducto producto orden
     = Solucion.Fulfilled (Solucion.recalcularTotal (Solucion.push producto orden))
  /\ (forall reason,
        Solucion.agregarProducto producto orden <> Solucion.Rejected reason)
  /\ Solucion.inventario
       (Solucion.recalcularTotal (Solucion.push producto orden))
     = Solucion.InventarioReal.
Proof.
  intros Hinv. split; [reflexivity|].
  assert (Hrun : Solucion.agregarProducto producto orden
                 = Solucion.Fulfilled
                     (Solucion.recalcularTotal (Solucion.push producto orden))).
  { unfold Solucion.agregarProducto. rewrite Hinv. reflexivity. }
  split; [exact Hrun|]. split; [rewrite Hrun; discriminate | exact Hinv].
Qed.

(** The branch is live code: an inventory that answers false reaches it. *)
Lemma sin_stock_reachable producto (orden : Solucion.Orden) :
  Solucion.inventario orden
  = Solucion.mkInventario (fun _ => Solucion.Fulfilled false) ->
  Solucion.agregarProducto producto orden
  = Solucion.Rejected
      (Exceptions.PlainError
         (lit "Sin stock para el producto: " ++ Compra.nombre producto)).
Proof.
  intros Hinv. unfold Solucion.agregarProducto. rewrite Hinv. reflexivity.
Qed.

End CompraFacts.

(** The purchase of the text, a laptop at 1200 and two mice at 50, on an
    inventory that has everything. *)
Lemma totals_agree_once_processed_witness :
  let lista :=
    [Compra.mkProducto (JS.lit "1") (JS.lit "Laptop") 1200%Z 1%Z;
     Compra.mkProducto (JS.lit "2") (JS.lit "Mouse") 50%Z 2%Z] in
  exists gestor orden,
    Ejemplo1.comprar (JS.lit "cliente@email.com") lista = inr gestor
    /\ Ejemplo2.ordenar lista
         (Ejemplo2.new (JS.lit "cliente@email.com") Ejemplo2.InventarioDB)
       = inr orden
    /\ Ejemplo1.obtenerTotal gestor = 1300%Z
    /\ Ejemplo2.getTotal orden = 1300%Z.
Proof.
  intros lista.
  destruct (@totals_agree_once_processed Z_Number (JS.lit "cliente@email.com")
              0%Z Ejemplo2.InventarioDB lista)
    as (_ & _ & (gestor & orden & Hg & Ho & _ & _ & Htg & Hto) & _).
  - repeat constructor.
  - exists gestor, orden. auto.
Defined.

(** C9 as it was stated fails: with the laptop of the text added to both
    and [procesarCompra] not yet called, [getTotal] is 1200 and
    [obtenerTotal] is still 0. *)
Lemma totals_disagree_before_procesarCompra :
  let gestor :=
    Ejemplo1.agregarProducto (JS.lit "1") (JS.lit "Laptop") 1200%Z 1%Z
      (Ejemplo1.new (JS.lit "cliente@email.com")) in
  let laptop := Compra.mkProducto (JS.lit "1") (JS.lit "Laptop") 1200%Z 1%Z in
  exists orden,
    Ejemplo2.agregarProducto laptop
      (Ejemplo2.new (JS.lit "cliente@email.com") Ejemplo2.InventarioDB)
    = inr orden
    /\ Ejemplo1.productos gestor = Ejemplo2.getProductos orden
    /\ Ejemplo1.obtenerTotal gestor = 0%Z
    /\ Ejemplo2.getTotal orden = 1200%Z
    /\ Ejemplo1.obtenerTotal gestor <> Ejemplo2.getTotal orden.
Proof.
  intros gestor laptop. eexists. split; [reflexivity|].
  repeat split. discriminate.
Qed.

(** The purchase of the text: a laptop at 1200 and two mice at 50. *)
Example total_ejemplo :
  let lista :=
    [Compra.mkProducto (JS.lit "1") (JS.lit "Laptop") 1200%Z 1%Z;
     Compra.mkProducto (JS.lit "2") (JS.lit "Mouse") 50%Z 2%Z] in
  match Ejemplo1.comprar (JS.lit "cliente@email.com") lista with
  | inr gestor => Some (Ejemplo1.obtenerTotal gestor)
  | inl _ => None
  end = Some 1300%Z
  /\ match Ejemplo2.ordenar lista
             (Ejemplo2.new (JS.lit "cliente@email.com") Ejemplo2.InventarioDB) with
     | inr orden => Some (Ejemplo2.getTotal orden)
     | inl _ => None
     end = Some 1300%Z.
Proof. split; reflexivity. Qed.

Lemma InventarioReal_never_out_of_stock_witness :
  let orden :=
    Solucion.new (JS.lit "ORD-001") (JS.lit "cliente@email.com")
      (JS.lit "+1234567890") Solucion.InventarioReal in
  let laptop := Compra.mkProducto (JS.lit "1") (JS.lit "Laptop") 1200%Z 1%Z in
  Solucion.getTotal <$> match Solucion.agregarProducto laptop orden with
                        | Solucion.Fulfilled orden' => Some orden'
                        | Solucion.Rejected _ => None
                        end
  = Some 1200%Z.
Proof.
  intros orden laptop.
  destruct (InventarioReal_never_out_of_stock (JS.lit "1") laptop orden eq_refl)
    as (_ & -> & _).
  reflexivity.
Defined.

(* ===================================================================== *)
(** * Facts: the users router, route by route *)
(* ===================================================================== *)

Section UsersRoutesRuns.
Import JS UsersRoutes.
Implicit Types (users : gmap jsstring Http.User) (req : Http.Request)
  (res : Http.Response) (user : Http.User).

Ltac run_route :=
  unfold get_user, get_users, put_user, delete_user, post_users, try_catch_next,
    bind, ret, throw, users_get, users_has, users_set, users_delete,
    users_values.

(** What PUT /users/:id does, case by case. *)
Lemma put_user_run req res users :
  let userId := Http.params_id req in
  let email := Http.body_email (Http.body req) in
  let name := Http.body_name (Http.body req) in
  put_user req res users
  = match users !! userId with
    | None => (users, Next (UsersReplies.not_found userId))
    | Some existingUser =>
        if negb (truthy_opt email) && negb (truthy_opt name)
        then (users, Next UsersReplies.nothing_to_update)
        else
          let stored :=
            (<[userId := updatedUser req existingUser]> users,
             Sent (UsersReplies.updated req res (updatedUser req existingUser))) in
          match narrow email with
          | None => stored
          | Some email =>
              if negb (Regex.test Regex.emailRegex email)
              then (users, Next UsersReplies.invalid_email)
              else if existsb
                        (fun user => streq (Http.email user) email
                                     && negb (streq (Http.id user) userId))
                        (snd <$> map_to_list users)
              then (users, Next UsersReplies.email_taken)
              else stored
          end
    end.
Proof.
  cbv zeta. run_route.
  destruct (users !! Http.params_id req) as [existingUser|]; [|reflexivity].
  destruct (negb _ && negb _); [reflexivity|].
  destruct (narrow _) as [email|]; [|reflexivity].
  destruct (negb (Regex.test _ _)); [reflexivity|].
  destruct (existsb _ _); reflexivity.
Qed.

(** What POST /users does, case by case. *)
Lemma post_users_run uuid now req res users :
  post_users uuid now req res users
  = match narrow (Http.body_email (Http.body req)),
          narrow (Http.body_name (Http.body req)) with
    | Some email, Some name =>
        if negb (Regex.test Regex.emailRegex email)
        then (users, Next UsersReplies.invalid_email)
        else if existsb (fun user => streq (Http.email user) email)
                  (snd <$> map_to_list users)
        then (users, Next UsersReplies.email_taken)
        else (<[uuid := Http.mkUser uuid name email now]> users,
              Sent (created req res (Http.mkUser uuid name email now)))
    | _, _ => (users, Next (UsersReplies.fields_required (Http.body req)))
    end.
Proof.
  run_route.
  destruct (narrow (Http.body_email _)) as [email|]; [|reflexivity].
  destruct (narrow (Http.body_name _)) as [name|]; [|reflexivity].
  destruct (negb (Regex.test _ _)); [reflexivity|].
  destruct (existsb _ _); reflexivity.
Qed.

Lemma taken_by_other_existsb users userId email :
  existsb (fun user => streq (Http.email user) email
                       && negb (streq (Http.id user) userId))
    (snd <$> map_to_list users) = true
  <-> UsersReplies.taken_by_other users userId email.
Proof.
  rewrite values_some. unfold UsersReplies.taken_by_other.
  split; intros (key & user & Hlookup & H); exists key, user;
    (split; [assumption|]).
  - apply andb_true_iff in H as [Hmail Hid].
    apply streq_true in Hmail. apply negb_true_iff, streq_false in Hid. auto.
  - destruct H as [Hmail Hid]. apply andb_true_iff.
    split; [apply streq_true | apply negb_true_iff, streq_false]; assumption.
Qed.

(** X1. GET /users never throws and never writes: it answers 200 with code
    ['USERS_FOUND'] and a list that holds exactly the stored users, as many
    entries as the Map has keys. *)
Theorem get_users_lists_the_map req res users :
  exists userList,
    get_users req res users = (users, Sent (UsersReplies.listed req res userList))
    /\ length userList = size users
    /\ (forall user, user ∈ userList <-> exists key, users !! key = Some user).
Proof.
  exists (snd <$> map_to_list users). split; [reflexivity|].
  split; [rewrite length_fmap; apply length_map_to_list|].
  intros user. rewrite list_elem_of_fmap. split.
  - intros ([key user'] & -> & Hin). exists key.
    apply elem_of_map_to_list in Hin. exact Hin.
  - intros (key & Hlookup). exists (key, user). split; [reflexivity|].
    apply elem_of_map_to_list. exact Hlookup.
Qed.

(** X2. A user that POST /users has created is what GET /users/:id answers
    for the generated id: 200, ['USER_FOUND'], and the user with the id,
    name, email and date of the creation. *)
Theorem post_then_get (uuid : jsstring) (now : Z) (email name : jsstring)
    req res req' res' users :
  Http.body_email (Http.body req) = Some email ->
  Http.body_name (Http.body req) = Some name ->
  ~ refused (Http.body req) users ->
  Http.params_id req' = uuid ->
  let users' := fst (post_users uuid now req res users) in
  get_user req' res' users'
  = (users', Sent (UsersReplies.found req' res' (Http.mkUser uuid name email now))).
Proof.
  intros Hemail Hname Hok Hid.
  destruct (post_users_cases uuid now req res users)
    as [(Href & _) | (_ & email' & name' & Hemail' & Hname' & ->)];
    [contradiction|].
  cbn [fst]. rewrite Hemail in Hemail'. rewrite Hname in Hname'.
  injection Hemail' as <-. injection Hname' as <-.
  run_route. rewrite Hid, lookup_insert_eq. reflexivity.
Qed.

Lemma post_then_get_witness :
  let users' := fst (post_users (lit "u1") 1733306400000 sample_req sample_res ∅) in
  get_user sample_req sample_res users'
  = (users',
     Sent (UsersReplies.found sample_req sample_res
             (Http.mkUser (lit "u1") (lit "John Doe") (lit "john@example.com")
                1733306400000))).
Proof.
  apply (post_then_get (lit "u1") 1733306400000 (lit "john@example.com")
           (lit "John Doe") sample_req sample_res sample_req sample_res ∅);
    [reflexivity | reflexivity | | reflexivity].
  intros [[H|H] | [[H|H] | [(e & [= <-] & He) | (key & user & Hlookup & _)]]];
    discriminate.
Defined.

(** X3. DELETE /users/:id of a stored id removes that key and no other, so
    the Map shrinks by one, and answers 200 with ['USER_DELETED']; from then
    on GET, PUT and DELETE of the same id throw [NotFoundException]. *)
Theorem delete_user_removes (route : IdRoute) req res req' res' users user :
  users !! Http.params_id req = Some user ->
  Http.params_id req' = Http.params_id req ->
  let result := delete_user req res users in
  snd result = Sent (UsersReplies.deleted req res)
  /\ fst result !! Http.params_id req = None
  /\ (forall key, key <> Http.params_id req -> fst result !! key = users !! key)
  /\ size users = S (size (fst result))
  /\ snd (id_route route req' res' (fst result))
     = Next (UsersReplies.not_found (Http.params_id req)).
Proof.
  intros Hstored Hsame. cbv zeta.
  assert (Hrun : delete_user req res users
                 = (delete (Http.params_id req) users,
                    Sent (UsersReplies.deleted req res))).
  { run_route. rewrite Hstored.
    rewrite bool_decide_eq_true_2 by eauto. reflexivity. }
  rewrite Hrun. cbn [fst snd].
  split; [reflexivity|]. split; [apply lookup_delete_eq|].
  split; [intros key Hkey; apply lookup_delete_ne; congruence|].
  split.
  - rewrite map_size_delete, Hstored. cbn.
    assert (size users <> 0) as Hsize.
    { intros Hzero. apply map_size_empty_inv in Hzero. subst users.
      rewrite lookup_empty in Hstored. discriminate. }
    lia.
  - assert (Hgone : delete (Http.params_id req) users !! Http.params_id req' = None)
      by (rewrite Hsame; apply lookup_delete_eq).
    destruct route; unfold id_route.
    + destruct (get_user_cases req' res' (delete (Http.params_id req) users))
        as [[_ ->] | (u & r & Hsome & _)]; [|congruence].
      rewrite Hsame. reflexivity.
    + rewrite put_user_run. cbv zeta. rewrite Hgone, Hsame. reflexivity.
    + destruct (delete_user_cases req' res' (delete (Http.params_id req) users))
        as [[_ ->] | (u & r & Hsome & _)]; [|congruence].
      rewrite Hsame. reflexivity.
Qed.

Lemma delete_user_removes_witness :
  let users := fst (post_users (lit "u1") 1733306400000 sample_req sample_res ∅) in
  snd (delete_user sample_req sample_res users)
  = Sent (UsersReplies.deleted sample_req sample_res)
  /\ snd (get_user sample_req sample_res
            (fst (delete_user sample_req sample_res users)))
     = Next (UsersReplies.not_found (lit "u1")).
Proof.
  intros users.
  destruct (delete_user_removes GET sample_req sample_res sample_req sample_res
              users
              (Http.mkUser (lit "u1") (lit "John Doe") (lit "john@example.com")
                 1733306400000) eq_refl eq_refl)
    as (Hsent & _ & _ & _ & Hgone).
  split; [exact Hsent | exact Hgone].
Defined.

Lemma narrow_truthy v : truthy_opt v = false <-> narrow v = None.
Proof. destruct v as [[|c v]|]; cbn; split; congruence. Qed.

(** X5. On a stored id, a PUT /users/:id that gives a name or an email,
    with the email, if given, accepted by [emailRegex] and held by no other
    user, stores under the same key the user with a given name and a given
    email replaced and with the id and the creation date kept, and answers
    200 with ['USER_UPDATED'] and that user. No key is added or removed. *)
Theorem put_user_updates req res users existingUser :
  users !! Http.params_id req = Some existingUser ->
  let email := Http.body_email (Http.body req) in
  let name := Http.body_name (Http.body req) in
  ~ (missing_or_empty email /\ missing_or_empty name) ->
  (forall e, narrow email = Some e ->
     Regex.test Regex.emailRegex e = true
     /\ ~ UsersReplies.taken_by_other users (Http.params_id req) e) ->
  let user' :=
    Http.mkUser (Http.id existingUser)
      (match narrow name with Some n => n | None => Http.name existingUser end)
      (match narrow email with Some e => e | None => Http.email existingUser end)
      (Http.createdAt existingUser) in
  put_user req res users
  = (<[Http.params_id req := user']> users, Sent (UsersReplies.updated req res user'))
  /\ size (<[Http.params_id req := user']> users) = size users
  /\ (forall key, key <> Http.params_id req ->
        <[Http.params_id req := user']> users !! key = users !! key).
Proof.
  intros Hstored email name Hgiven Hemail user'.
  assert (Huser : updatedUser req existingUser = user').
  { unfold updatedUser, user'. rewrite !or_else_narrow. reflexivity. }
  split; [|split].
  - rewrite put_user_run. cbv zeta. rewrite Hstored, Huser.
    destruct (negb _ && negb _) eqn:Hboth.
    { exfalso. apply Hgiven. apply andb_true_iff in Hboth as [H1 H2].
      apply negb_true_iff, narrow_truthy, narrow_None in H1, H2. auto. }
    fold email. destruct (narrow email) as [e|] eqn:He; [|reflexivity].
    destruct (Hemail e eq_refl) as [Htest Hfree]. rewrite Htest. cbn [negb].
    destruct (existsb _ _) eqn:Hex; [|reflexivity].
    apply taken_by_other_existsb in Hex. contradiction.
  - apply map_size_insert_Some. eauto.
  - intros key Hkey. apply lookup_insert_ne. congruence.
Qed.

Lemma put_user_updates_witness :
  let users := <[lit "u1" := UsersReplies.john]> ∅ in
  let johnny :=
    Http.mkUser (lit "u1") (lit "Johnny") (lit "john@example.com") 1733306400000 in
  put_user UsersReplies.rename_req sample_res users
  = (<[lit "u1" := johnny]> users,
     Sent (UsersReplies.updated UsersReplies.rename_req sample_res johnny)).
Proof.
  intros users johnny.
  destruct (put_user_updates UsersReplies.rename_req sample_res users
              UsersReplies.john eq_refl) as (Hrun & _).
  - intros [_ [H|H]]; discriminate.
  - intros e [=].
  - exact Hrun.
Defined.

End UsersRoutesRuns.

(* ===================================================================== *)
(** * Facts: the application *)
(* ===================================================================== *)

Section AppFacts.
Import JS.
Context {Seconds : Type}.
Implicit Types (users : gmap jsstring Http.User) (req : Http.Request)
  (res : Http.Response) (incoming : App.Incoming) (up : Seconds).

Ltac run_routes :=
  unfold UsersRoutes.get_user, UsersRoutes.get_users, UsersRoutes.delete_user,
    UsersRoutes.try_catch_next, UsersRoutes.bind, UsersRoutes.ret,
    UsersRoutes.throw, UsersRoutes.users_get, UsersRoutes.users_has,
    UsersRoutes.users_set, UsersRoutes.users_delete, UsersRoutes.users_values.

Lemma route_well_sent uuid now m u route req res users users' res' :
  App.userRoutes uuid now m u = Some route ->
  route req res users = (users', UsersRoutes.Sent res') ->
  App.well_sent req res res'.
Proof.
  intros Hroute Hrun.
  assert (Hcases :
            route = UsersRoutes.get_user \/ route = UsersRoutes.get_users
            \/ route = UsersRoutes.post_users uuid now
            \/ route = UsersRoutes.put_user \/ route = UsersRoutes.delete_user).
  { destruct u, m; cbn in Hroute; try discriminate;
      injection Hroute as <-; auto. }
  destruct Hcases as [-> | [-> | [-> | [-> | ->]]]].
  - revert Hrun. run_routes.
    destruct (users !! Http.params_id req); intros [= <- <-].
    split; [reflexivity|]. eexists. repeat split.
  - revert Hrun. run_routes. intros [= <- <-].
    split; [reflexivity|]. eexists. repeat split.
  - rewrite post_users_run in Hrun.
    destruct (UsersRoutes.narrow (Http.body_email _)); [|discriminate].
    destruct (UsersRoutes.narrow (Http.body_name _)); [|discriminate].
    destruct (negb _); [discriminate|].
    destruct (existsb _ _); [discriminate|]. injection Hrun as <- <-.
    split; [reflexivity|]. eexists. repeat split.
  - rewrite put_user_run in Hrun. cbv zeta in Hrun.
    destruct (users !! Http.params_id req); [|discriminate].
    destruct (negb _ && negb _); [discriminate|].
    destruct (UsersRoutes.narrow _).
    + destruct (negb _); [discriminate|].
      destruct (existsb _ _); [discriminate|]. injection Hrun as <- <-.
      split; [reflexivity|]. eexists. repeat split.
    + injection Hrun as <- <-. split; [reflexivity|]. eexists. repeat split.
  - revert Hrun. run_routes.
    destruct (bool_decide _); cbn; intros [= <- <-].
    split; [reflexivity|]. eexists. repeat split.
Qed.

Lemma errorHandler_well_sent error req res :
  App.well_sent req res (Middleware.errorHandler error req res).
Proof. split; [reflexivity|]. eexists. repeat split. Qed.

(** The application, after its first three middlewares. *)
Lemma handle_run (trace_uuid user_uuid : jsstring) (now : Z) up incoming res users :
  let req' := App.traced_req trace_uuid incoming in
  let res' := App.traced_res trace_uuid incoming res in
  App.handle trace_uuid user_uuid now up incoming res users
  = match App.method incoming with
    | App.OPTIONS => (users, App.sendStatus200 res')
    | m =>
        match App.url incoming, App.is_get m with
        | App.UrlHealth, true => (users, App.health now up req' res')
        | u, _ =>
            match App.userRoutes user_uuid now m u with
            | Some route =>
                match route req' res' users with
                | (users', UsersRoutes.Sent res'') => (users', App.of_http res'')
                | (users', UsersRoutes.Next error) =>
                    (users', App.of_http (Middleware.errorHandler error req' res'))
                end
            | None =>
                (users,
                 App.of_http
                   (Middleware.errorHandler
                      (Exceptions.NotFoundException
                         (Some (lit "Ruta no encontrada")) None)
                      req' res'))
            end
        end
    end.
Proof. reflexivity. Qed.

Lemma of_http_answers (trace_uuid : jsstring) incoming res r :
  App.well_sent (App.traced_req trace_uuid incoming)
    (App.traced_res trace_uuid incoming res) r ->
  App.answers_with (Seconds := Seconds) (App.trace_of trace_uuid incoming)
    (Http.res_headers (App.traced_res trace_uuid incoming res))
    (App.of_http r).
Proof.
  intros (Hheaders & payload & Hpayload & Htrace & Hstatus).
  split; [exact Hheaders|]. exists (App.Json payload).
  unfold App.of_http. cbn [App.sent App.statusCode]. rewrite Hpayload.
  split; [reflexivity|]. split; [symmetry; exact Hstatus|].
  cbn [App.body_traceId]. rewrite Htrace. reflexivity.
Qed.

(** Every request is answered. OPTIONS gets the bare 200; every other
    request gets a JSON answer that carries the trace id of the request,
    under the headers of the trace and CORS middlewares, and with the status
    of the response equal to the status in the body. *)
Lemma handle_answer (trace_uuid user_uuid : jsstring) (now : Z) up incoming res users :
  let response := snd (App.handle trace_uuid user_uuid now up incoming res users) in
  match App.method incoming with
  | App.OPTIONS =>
      response = App.sendStatus200 (App.traced_res trace_uuid incoming res)
  | _ =>
      App.answers_with (App.trace_of trace_uuid incoming)
        (Http.res_headers (App.traced_res trace_uuid incoming res)) response
  end.
Proof.
  cbv zeta. rewrite handle_run. cbv zeta.
  assert (Hroutes : forall m,
    App.answers_with (App.trace_of trace_uuid incoming)
      (Http.res_headers (App.traced_res trace_uuid incoming res))
      (snd (match App.userRoutes user_uuid now m (App.url incoming) with
            | Some route =>
                match route (App.traced_req trace_uuid incoming)
                        (App.traced_res trace_uuid incoming res) users with
                | (users', UsersRoutes.Sent res'') =>
                    (users', App.of_http (Seconds := Seconds) res'')
                | (users', UsersRoutes.Next error) =>
                    (users',
                     App.of_http
                       (Middleware.errorHandler error
                          (App.traced_req trace_uuid incoming)
                          (App.traced_res trace_uuid incoming res)))
                end
            | None =>
                (users,
                 App.of_http
                   (Middleware.errorHandler
                      (Exceptions.NotFoundException
                         (Some (lit "Ruta no encontrada")) None)
                      (App.traced_req trace_uuid incoming)
                      (App.traced_res trace_uuid incoming res)))
            end))).
  { intros m.
    destruct (App.userRoutes user_uuid now m (App.url incoming))
      as [route|] eqn:Hroute.
    - destruct (route _ _ users) as [users' [res''|error]] eqn:Hrun;
        cbn [snd]; apply of_http_answers.
      + eapply route_well_sent; eassumption.
      + apply errorHandler_well_sent.
    - cbn [snd]. apply of_http_answers, errorHandler_well_sent. }
  assert (Hhealth :
    App.answers_with (App.trace_of trace_uuid incoming)
      (Http.res_headers (App.traced_res trace_uuid incoming res))
      (App.health now up (App.traced_req trace_uuid incoming)
         (App.traced_res trace_uuid incoming res))).
  { split; [reflexivity|]. eexists. repeat split. }
  destruct (App.method incoming) eqn:Hmethod;
    try reflexivity;
    cbn [App.is_get];
    destruct (App.url incoming) eqn:Hurl;
    first [exact Hhealth | apply Hroutes].
Qed.

(** X9. Whatever the request (its body parsed), the response carries the
    header
    [x-trace-id] with the trace id of the request: the request's own
    [x-trace-id] header unless that is absent or empty, otherwise the
    generated UUID. Unless the request is an OPTIONS request, the body is
    JSON and its [traceId] is that same id. *)
Theorem app_trace_id (trace_uuid user_uuid : jsstring) (now : Z) up
    incoming res users :
  let response := snd (App.handle trace_uuid user_uuid now up incoming res users) in
  let trace :=
    match App.headers incoming !! lit "x-trace-id" with
    | Some (c :: header) => c :: header
    | Some [] | None => trace_uuid
    end in
  App.res_headers response !! lit "x-trace-id" = Some trace
  /\ match App.method incoming with
     | App.OPTIONS => App.sent response = Some (App.Text (lit "OK"))
     | _ => exists b, App.sent response = Some b
                      /\ App.body_traceId b = Some (Some trace)
     end.
Proof.
  cbv zeta.
  assert (Htrace :
            match App.headers incoming !! lit "x-trace-id" with
            | Some (c :: header) => c :: header
            | Some [] | None => trace_uuid
            end = App.trace_of trace_uuid incoming).
  { unfold App.trace_of.
    destruct (App.headers incoming !! lit "x-trace-id") as [[|c h]|]; reflexivity. }
  rewrite Htrace.
  pose proof (handle_answer trace_uuid user_uuid now up incoming res users) as H.
  cbv zeta in H.
  assert (Hheader :
            Http.res_headers (App.traced_res trace_uuid incoming res)
              !! lit "x-trace-id"
            = Some (App.trace_of trace_uuid incoming)).
  { unfold App.traced_res, App.cors_headers, Http.setHeader.
    cbn [Http.res_headers].
    rewrite !lookup_insert_ne by discriminate. apply lookup_insert_eq. }
  destruct (App.method incoming);
    try (destruct H as (-> & b & Hsent & _ & Hbody); split; [exact Hheader | eauto]).
  rewrite H. split; [exact Hheader | reflexivity].
Qed.

(** X10. Every request is answered, and the HTTP status of the answer is
    the [status] written in its JSON body (200 for the text answer to
    OPTIONS): routes, health check and error handler never let the two
    differ. *)
Theorem app_status_matches_body (trace_uuid user_uuid : jsstring) (now : Z) up
    incoming res users :
  let response := snd (App.handle trace_uuid user_uuid now up incoming res users) in
  exists b, App.sent response = Some b
            /\ App.statusCode response = App.body_status b.
Proof.
  cbv zeta.
  pose proof (handle_answer trace_uuid user_uuid now up incoming res users) as H.
  cbv zeta in H.
  destruct (App.method incoming);
    try (destruct H as (_ & b & Hsent & Hstatus & _); eauto).
  rewrite H. eexists. split; reflexivity.
Qed.

(** X11. Every response carries the three CORS headers. An OPTIONS request
    is answered 200 with the text ['OK'] before any route is looked at: it
    never reaches the users Map, whatever its path. *)
Theorem app_cors (trace_uuid user_uuid : jsstring) (now : Z) up
    incoming res users :
  let result := App.handle trace_uuid user_uuid now up incoming res users in
  App.res_headers (snd result) !! lit "Access-Control-Allow-Origin"
  = Some (lit "*")
  /\ App.res_headers (snd result) !! lit "Access-Control-Allow-Headers"
     = Some (lit "Origin, X-Requested-With, Content-Type, Accept, x-trace-id")
  /\ App.res_headers (snd result) !! lit "Access-Control-Allow-Methods"
     = Some (lit "GET, POST, PUT, DELETE, OPTIONS")
  /\ match App.method incoming with
     | App.OPTIONS =>
         fst result = users
         /\ App.statusCode (snd result) = 200%Z
         /\ App.sent (snd result) = Some (App.Text (lit "OK"))
     | _ => True
     end.
Proof.
  cbv zeta.
  assert (Hheaders :
            App.res_headers
              (snd (App.handle trace_uuid user_uuid now up incoming res users))
            = Http.res_headers (App.traced_res trace_uuid incoming res)).
  { pose proof (handle_answer trace_uuid user_uuid now up incoming res users) as H.
    cbv zeta in H.
    destruct (App.method incoming); try (destruct H as (-> & _); reflexivity).
    rewrite H. reflexivity. }
  rewrite Hheaders. unfold App.traced_res, App.cors_headers, Http.setHeader.
  cbn [Http.res_headers].
  split; [rewrite !lookup_insert_ne by discriminate; apply lookup_insert_eq|].
  split; [rewrite !lookup_insert_ne by discriminate; apply lookup_insert_eq|].
  split; [apply lookup_insert_eq|].
  rewrite handle_run. cbv zeta.
  destruct (App.method incoming); try exact I. repeat split.
Qed.

(** X12. Of the requests that reach the middlewares of [app.ts], body
    parsed by [express.json()] and path decoded by the router of Express:
    one that no route takes, and that is neither OPTIONS nor a GET or HEAD
    of the health check, goes to the error handler, which passes to
    [res.status(404).json] the code ['NOT_FOUND'], the message
    ['Ruta no encontrada'] and the trace id; the Map is not touched. *)
Theorem app_route_not_found (trace_uuid user_uuid : jsstring) (now : Z) up
    incoming res users :
  App.method incoming <> App.OPTIONS ->
  ~ (App.url incoming = App.UrlHealth /\ App.is_get (App.method incoming) = true) ->
  App.userRoutes user_uuid now (App.method incoming) (App.url incoming) = None ->
  App.handle trace_uuid user_uuid now up incoming res users
  = (users,
     App.mkResponse
       (Http.res_headers (App.traced_res trace_uuid incoming res)) 404
       (Some (App.error_body (App.trace_of trace_uuid incoming) 404
                (lit "NOT_FOUND") (lit "Ruta no encontrada")))).
Proof.
  intros Hoptions Hhealth Hroute. rewrite handle_run. cbv zeta.
  destruct (App.method incoming) eqn:Hm; try congruence;
    destruct (App.url incoming) eqn:Hu; cbn [App.is_get];
    try (exfalso; apply Hhealth; split; reflexivity);
    rewrite Hroute; reflexivity.
Qed.

(** X13. Of the requests that reach the routes of [app.ts], body parsed by
    [express.json()] and path decoded by the router of Express, so that
    [req.params.id] is the id: a GET, HEAD, PUT or DELETE of
    [/api/users/:id] for an id that is not stored goes to the error
    handler, which passes to [res.status(404).json] the code
    ['NOT_FOUND'], the message ['Usuario <id> no encontrado'] and the trace
    id of the request; the Map is not touched. *)
Theorem app_unknown_user (trace_uuid user_uuid : jsstring) (now : Z) up
    incoming res users (id : jsstring) :
  App.url incoming = App.UrlUser id ->
  App.method incoming = App.GET \/ App.method incoming = App.HEAD
  \/ App.method incoming = App.PUT \/ App.method incoming = App.DELETE ->
  users !! id = None ->
  App.handle trace_uuid user_uuid now up incoming res users
  = (users,
     App.mkResponse
       (Http.res_headers (App.traced_res trace_uuid incoming res)) 404
       (Some (App.error_body (App.trace_of trace_uuid incoming) 404
                (lit "NOT_FOUND") (UsersRoutes.msg_not_found id)))).
Proof.
  intros Hurl Hmethod Hmissing. rewrite handle_run. cbv zeta.
  assert (Hid : Http.params_id (App.traced_req trace_uuid incoming) = id)
    by (unfold App.traced_req; rewrite Hurl; reflexivity).
  rewrite Hurl.
  destruct Hmethod as [-> | [-> | [-> | ->]]]; cbn [App.is_get App.userRoutes].
  - run_routes. rewrite Hid, Hmissing. reflexivity.
  - run_routes. rewrite Hid, Hmissing. reflexivity.
  - rewrite put_user_run. cbv zeta. rewrite Hid, Hmissing. reflexivity.
  - run_routes. rewrite Hid, Hmissing.
    rewrite bool_decide_eq_false_2 by (intros [? ?]; discriminate).
    reflexivity.
Qed.

(** X14. GET, HEAD and OPTIONS requests never write to the users Map,
    whatever their path and whatever they are answered. *)
Theorem app_safe_methods (trace_uuid user_uuid : jsstring) (now : Z) up
    incoming res users :
  App.is_get (App.method incoming) = true \/ App.method incoming = App.OPTIONS ->
  fst (App.handle trace_uuid user_uuid now up incoming res users) = users.
Proof.
  intros Hsafe. rewrite handle_run. cbv zeta.
  destruct (App.method incoming) eqn:Hm;
    try (destruct Hsafe as [Hget | Hopt]; discriminate);
    try reflexivity;
    cbn [App.is_get]; destruct (App.url incoming) eqn:Hu;
    cbn [App.userRoutes]; try reflexivity.
  all: match goal with
       | |- context [UsersRoutes.get_users _ _ _] => reflexivity
       | |- context [UsersRoutes.get_user ?r ?s ?us] =>
           destruct (get_user_cases r s us)
             as [[_ ->] | (u & r' & _ & ->)]; reflexivity
       end.
Qed.

End AppFacts.

Lemma app_route_not_found_witness :
  App.handle (Seconds := Z) (JS.lit "t-9") (JS.lit "u9") 0 0%Z App.patch_users
    UsersRoutes.sample_res ∅
  = (∅,
     App.mkResponse
       (Http.res_headers
          (App.traced_res (JS.lit "t-9") App.patch_users UsersRoutes.sample_res))
       404
       (Some (App.error_body (JS.lit "t-9") 404 (JS.lit "NOT_FOUND")
                (JS.lit "Ruta no encontrada")))).
Proof.
  apply (app_route_not_found (Seconds := Z) (JS.lit "t-9") (JS.lit "u9") 0 0%Z
           App.patch_users UsersRoutes.sample_res ∅).
  - discriminate.
  - intros [H _]. discriminate.
  - reflexivity.
Defined.

Lemma app_unknown_user_witness :
  App.handle (Seconds := Z) (JS.lit "t-9") (JS.lit "u9") 0 0%Z App.get_john
    UsersRoutes.sample_res ∅
  = (∅,
     App.mkResponse
       (Http.res_headers
          (App.traced_res (JS.lit "t-9") App.get_john UsersRoutes.sample_res))
       404
       (Some (App.error_body (JS.lit "abc") 404 (JS.lit "NOT_FOUND")
                (JS.lit "Usuario u1 no encontrado")))).
Proof.
  apply (app_unknown_user (Seconds := Z) (JS.lit "t-9") (JS.lit "u9") 0 0%Z
           App.get_john UsersRoutes.sample_res ∅ (JS.lit "u1"));
    [reflexivity | left; reflexivity | reflexivity].
Defined.

Lemma app_safe_methods_witness :
  fst (App.handle (Seconds := Z) (JS.lit "t-9") (JS.lit "u9") 0 0%Z App.get_john
         UsersRoutes.sample_res (<[JS.lit "u1" := UsersReplies.john]> ∅))
  = <[JS.lit "u1" := UsersReplies.john]> ∅.
Proof.
  apply (app_safe_methods (Seconds := Z)). left. reflexivity.
Defined.

(* ===================================================================== *)
(** * Facts: more on the builder and the exceptions *)
(* ===================================================================== *)

Section BuilderOrder.
Import JS.
Context {T : Type}.
Implicit Types (this : ApiResponse.t T)
  (before after : list (ApiResponseBuilder.Setter T)).

Lemma chain_app before after this :
  ApiResponseBuilder.chain (before ++ after) this
  = ApiResponseBuilder.chain after (ApiResponseBuilder.chain before this).
Proof. apply fold_left_app. Qed.

(** X15. In a chain of setter calls the last call of a setter decides its
    field: whatever was chained before it, and whatever other setters are
    chained after it, [build] returns the response with that call's
    argument in the field. *)
Theorem last_setter_wins before after this :
  (existsb ApiResponseBuilder.is_SetStatus after = false ->
   forall status,
     ApiResponse.status
       (ApiResponseBuilder.build
          (ApiResponseBuilder.chain
             (before ++ ApiResponseBuilder.SetStatus status :: after) this))
     = status)
  /\ (existsb ApiResponseBuilder.is_SetCode after = false ->
      forall code,
        ApiResponse.code
          (ApiResponseBuilder.build
             (ApiResponseBuilder.chain
                (before ++ ApiResponseBuilder.SetCode code :: after) this))
        = code)
  /\ (existsb ApiResponseBuilder.is_SetMessage after = false ->
      forall message,
        ApiResponse.message
          (ApiResponseBuilder.build
             (ApiResponseBuilder.chain
                (before ++ ApiResponseBuilder.SetMessage message :: after) this))
        = message)
  /\ (existsb ApiResponseBuilder.is_SetData after = false ->
      forall data,
        ApiResponse.data
          (ApiResponseBuilder.build
             (ApiResponseBuilder.chain
                (before ++ ApiResponseBuilder.SetData data :: after) this))
        = Some data)
  /\ (existsb ApiResponseBuilder.is_SetDetails after = false ->
      forall details,
        ApiResponse.details
          (ApiResponseBuilder.build
             (ApiResponseBuilder.chain
                (before ++ ApiResponseBuilder.SetDetails details :: after) this))
        = details).
Proof.
  unfold ApiResponseBuilder.build.
  repeat split; intros Hnone x; rewrite chain_app, chain_cons.
  - rewrite chain_status by assumption. reflexivity.
  - rewrite chain_code by assumption. reflexivity.
  - rewrite chain_message by assumption. reflexivity.
  - rewrite chain_data by assumption. reflexivity.
  - rewrite chain_details by assumption. reflexivity.
Qed.

End BuilderOrder.

(** A status set twice, with the other setters of the POST route around:
    the second status stands. *)
Lemma last_setter_wins_witness :
  ApiResponse.status
    (ApiResponseBuilder.build
       (ApiResponseBuilder.chain
          ([ApiResponseBuilder.SetStatus 200]
           ++ ApiResponseBuilder.SetStatus 201
           :: [ApiResponseBuilder.SetCode (JS.lit "USER_CREATED");
               ApiResponseBuilder.SetData 7%Z])
          (ApiResponseBuilder.new (Some (JS.lit "t-1")))))
  = 201%Z.
Proof.
  destruct (last_setter_wins (T := Z) [ApiResponseBuilder.SetStatus 200]
              [ApiResponseBuilder.SetCode (JS.lit "USER_CREATED");
               ApiResponseBuilder.SetData 7%Z]
              (ApiResponseBuilder.new (Some (JS.lit "t-1")))) as (Hstatus & _).
  apply Hstatus. reflexivity.
Defined.

Section MessageFacts.
Import JS.

(** X16. The message that the error handler shows for a
    [NotFoundException] or a [BadRequestException]: the message given to
    the constructor when there is one and it is not empty; the default of
    the class (['Recurso no encontrado'], ['Solicitud inválida']) when none
    is given; and ['Error interno del servidor'], under the status and code
    of the class, when the empty string is given. *)
Theorem shown_message (message : option jsstring) (details : option JsValue)
    (req : Http.Request) :
  let shown e := Http.err_message (Middleware.errorResponse e req) in
  shown (Exceptions.NotFoundException message details)
  = match message with
    | None => lit "Recurso no encontrado"
    | Some [] => lit "Error interno del servidor"
    | Some (c :: m) => c :: m
    end
  /\ shown (Exceptions.BadRequestException message details)
     = match message with
       | None => lit "Solicitud inv" ++ [225%N] ++ lit "lida"
       | Some [] => lit "Error interno del servidor"
       | Some (c :: m) => c :: m
       end
  /\ Http.err_status
       (Middleware.errorResponse (Exceptions.NotFoundException (Some []) details) req)
     = 404%Z
  /\ Http.err_status
       (Middleware.errorResponse (Exceptions.BadRequestException (Some []) details) req)
     = 400%Z.
Proof.
  cbv zeta. destruct message as [[|c m]|]; repeat split; reflexivity.
Qed.

End MessageFacts.

(* ===================================================================== *)
(** * Facts: sessions of the task managers *)
(* ===================================================================== *)

Section AlterFacts.
Context {A B : Type} (P : A -> Prop) `{forall x, Decision (P x)}.

(** Writing an element leaves every projection alone that the write leaves
    alone. *)
Lemma fmap_alter_same (f : A -> B) (g : A -> A) (k : nat) (l : list A) :
  (forall x, f (g x) = f x) -> f <$> alter g k l = f <$> l.
Proof.
  intros Hfg. revert k. induction l as [|x l IH]; intros [|k]; cbn;
    try reflexivity.
  - rewrite Hfg. reflexivity.
  - rewrite IH. reflexivity.
Qed.

(** Where [find] stops, the list splits. *)
Lemma list_find_split (l : list A) (k : nat) (x : A) :
  list_find P l = Some (k, x) ->
  exists before after,
    l = before ++ x :: after /\ length before = k
    /\ Forall (fun y => ~ P y) before /\ P x.
Proof.
  intros Hfind. apply list_find_Some in Hfind as (Hk & Hx & Hbefore).
  exists (take k l), (drop (S k) l).
  split; [symmetry; apply take_drop_middle; exact Hk|].
  assert (Hlt : k < length l) by (eapply lookup_lt_Some; exact Hk).
  split; [rewrite length_take; lia|]. split; [|exact Hx].
  apply Forall_forall. intros y Hy.
  apply list_elem_of_lookup in Hy as [j Hj].
  assert (j < k).
  { apply lookup_lt_Some in Hj. rewrite length_take in Hj. lia. }
  rewrite lookup_take_lt in Hj by assumption. eauto.
Qed.

End AlterFacts.

Section SessionFacts.
Import JS.
Implicit Types (tasks : list TaskRefactor.Task) (calls : list TaskClients.Call).

Lemma session_cons {S : Type} (run : TaskClients.Call -> S -> S * bool)
    call calls (state : S) :
  TaskClients.session run (call :: calls) state
  = (fst (TaskClients.session run calls (fst (run call state))),
     snd (run call state)
     :: snd (TaskClients.session run calls (fst (run call state)))).
Proof.
  cbn [TaskClients.session]. destruct (run call state) as [state' result].
  cbn [fst snd]. destruct (TaskClients.session run calls state'). reflexivity.
Qed.

(** What [completeTask] does, in the terms of a split of the list. *)
Lemma completeTask_cases taskId tasks :
  (Forall (fun t => TaskRefactor.id t <> taskId) tasks
   /\ TaskRefactor.completeTask taskId tasks = (tasks, false))
  \/ (exists before task after,
        tasks = before ++ task :: after
        /\ Forall (fun t => TaskRefactor.id t <> taskId) before
        /\ TaskRefactor.id task = taskId
        /\ TaskRefactor.completeTask taskId tasks
           = (before ++ TaskRefactor.complete task :: after, true)).
Proof.
  unfold TaskRefactor.completeTask.
  destruct (list_find _ tasks) as [[k x]|] eqn:Hfind.
  - right.
    apply (list_find_split (fun t => TaskRefactor.id t = taskId)) in Hfind
      as (before & after & -> & <- & Hbefore & Hx).
    exists before, x, after. rewrite alter_first. auto.
  - left. apply list_find_None in Hfind. auto.
Qed.

Lemma completeTask_titles taskId tasks :
  TaskRefactor.title <$> fst (TaskRefactor.completeTask taskId tasks)
  = TaskRefactor.title <$> tasks.
Proof.
  unfold TaskRefactor.completeTask.
  destruct (list_find _ tasks) as [[k x]|]; [|reflexivity].
  cbn [fst]. apply fmap_alter_same. reflexivity.
Qed.

(** X18. What [getAllTasks] lists after a session of a [TaskManager]: the
    titles added with priority, latest first; then the titles that were
    there before, in their order; then the titles added without priority,
    earliest first. Completing tasks does not move them. *)
Theorem session_order calls : forall tasks,
  TaskRefactor.title
    <$> fst (TaskClients.session TaskClients.run_good calls tasks)
  = rev (TaskHistory.added true calls)
      ++ (TaskRefactor.title <$> tasks)
      ++ TaskHistory.added false calls.
Proof.
  induction calls as [|call calls IH]; intros tasks.
  - cbn. rewrite app_nil_r. reflexivity.
  - rewrite session_cons. cbn [fst]. rewrite IH.
    destruct call as [title [|] generatedId now|taskId];
      cbn [TaskClients.run_good TaskHistory.added Bool.eqb].
    + unfold TaskRefactor.addTask. cbn [fst fmap list_fmap TaskRefactor.title rev].
      rewrite <- app_assoc. reflexivity.
    + unfold TaskRefactor.addTask. cbn [fst]. rewrite fmap_app.
      cbn [fmap list_fmap TaskRefactor.title]. rewrite <- !app_assoc. reflexivity.
    + rewrite completeTask_titles. reflexivity.
Qed.

(** X19. Completing a task a second time changes nothing and returns what
    the first call returned; and [completeTask] never changes the ids, the
    titles, the priority flags or the dates of the list, nor its length. *)
Theorem completeTask_idempotent (taskId : jsstring) tasks :
  let tasks' := fst (TaskRefactor.completeTask taskId tasks) in
  TaskRefactor.completeTask taskId tasks'
  = (tasks', snd (TaskRefactor.completeTask taskId tasks))
  /\ TaskRefactor.id <$> tasks' = TaskRefactor.id <$> tasks
  /\ TaskRefactor.title <$> tasks' = TaskRefactor.title <$> tasks
  /\ TaskRefactor.isPriority <$> tasks' = TaskRefactor.isPriority <$> tasks
  /\ TaskRefactor.createdAt <$> tasks' = TaskRefactor.createdAt <$> tasks
  /\ length tasks' = length tasks.
Proof.
  cbv zeta. split.
  - destruct (completeTask_cases taskId tasks)
      as [[Hnone ->] | (before & task & after & -> & Hbefore & Hid & ->)];
      cbn [fst snd].
    + unfold TaskRefactor.completeTask.
      apply (list_find_None (fun t => TaskRefactor.id t = taskId)) in Hnone.
      rewrite Hnone. reflexivity.
    + unfold TaskRefactor.completeTask.
      rewrite (list_find_first (fun t => TaskRefactor.id t = taskId))
        by assumption.
      rewrite alter_first. reflexivity.
  - unfold TaskRefactor.completeTask.
    destruct (list_find _ tasks) as [[k x]|]; cbn [fst].
    + rewrite !fmap_alter_same by reflexivity. rewrite length_alter. auto.
    + auto.
Qed.

Lemma complete_complete (task : TaskRefactor.Task) :
  TaskRefactor.complete (TaskRefactor.complete task) = TaskRefactor.complete task.
Proof. reflexivity. Qed.

(** One call keeps every task, as it was or completed. *)
Lemma run_good_keeps call tasks (task : TaskRefactor.Task) :
  task ∈ tasks ->
  task ∈ fst (TaskClients.run_good call tasks)
  \/ TaskRefactor.complete task ∈ fst (TaskClients.run_good call tasks).
Proof.
  intros Hin. destruct call as [title [|] generatedId now|taskId];
    cbn [TaskClients.run_good].
  - left. cbn. apply list_elem_of_further. exact Hin.
  - left. cbn. apply elem_of_app. left. exact Hin.
  - destruct (completeTask_cases taskId tasks)
      as [[_ ->] | (before & found & after & -> & _ & _ & ->)]; cbn [fst];
      [left; exact Hin|].
    apply elem_of_app in Hin as [Hin|Hin].
    + left. apply elem_of_app. left. exact Hin.
    + apply elem_of_cons in Hin as [->|Hin].
      * right. apply elem_of_app. right. apply list_elem_of_here.
      * left. apply elem_of_app. right. apply list_elem_of_further.
        exact Hin.
Qed.

Lemma run_good_length call tasks :
  length (fst (TaskClients.run_good call tasks))
  = length tasks + length (TaskHistory.added true [call])
    + length (TaskHistory.added false [call]).
Proof.
  destruct call as [title [|] generatedId now|taskId];
    cbn [TaskClients.run_good TaskHistory.added Bool.eqb length].
  - cbn. lia.
  - cbn. rewrite length_app. cbn. lia.
  - unfold TaskRefactor.completeTask.
    destruct (list_find _ tasks) as [[k x]|]; cbn [fst];
      [rewrite length_alter|]; lia.
Qed.

Lemma added_cons isPriority call calls :
  TaskHistory.added isPriority (call :: calls)
  = TaskHistory.added isPriority [call] ++ TaskHistory.added isPriority calls.
Proof.
  destruct call as [title p generatedId now|taskId]; cbn; [|reflexivity].
  destruct (Bool.eqb p isPriority); reflexivity.
Qed.

(** X20. A [TaskManager] never loses a task: after any session every task
    that was in the list is still there, as it was or completed, and a
    completed task is still there completed; the list has grown by exactly
    the number of calls of [addTask]. *)
Theorem session_keeps_tasks calls : forall tasks (task : TaskRefactor.Task),
  task ∈ tasks ->
  let final := fst (TaskClients.session TaskClients.run_good calls tasks) in
  (task ∈ final \/ TaskRefactor.complete task ∈ final)
  /\ (TaskRefactor.status task = TaskRefactor.COMPLETED -> task ∈ final)
  /\ length final
     = length tasks + length (TaskHistory.added true calls)
       + length (TaskHistory.added false calls).
Proof.
  induction calls as [|call calls IH]; intros tasks task Hin; cbv zeta.
  - cbn. split; [auto|]. split; [auto | lia].
  - rewrite session_cons. cbn [fst].
    assert (Hlength :
              length (fst (TaskClients.session TaskClients.run_good calls
                             (fst (TaskClients.run_good call tasks))))
              = length tasks
                + length (TaskHistory.added true (call :: calls))
                + length (TaskHistory.added false (call :: calls))).
    { rewrite (added_cons true), (added_cons false), !length_app.
      destruct (run_good_keeps call tasks task Hin) as [Hkept|Hkept];
        destruct (IH _ _ Hkept) as (_ & _ & ->);
        rewrite run_good_length; lia. }
    assert (Hkeeps :
              task ∈ fst (TaskClients.session TaskClients.run_good calls
                            (fst (TaskClients.run_good call tasks)))
              \/ TaskRefactor.complete task
                 ∈ fst (TaskClients.session TaskClients.run_good calls
                          (fst (TaskClients.run_good call tasks)))).
    { destruct (run_good_keeps call tasks task Hin) as [Hkept|Hkept];
        destruct (IH _ _ Hkept) as (Hfinal & _ & _); cbv zeta in Hfinal.
      - exact Hfinal.
      - rewrite complete_complete in Hfinal. destruct Hfinal; auto. }
    split; [exact Hkeeps|]. split; [|exact Hlength].
    intros Hdone.
    assert (Hsame : TaskRefactor.complete task = task).
    { destruct task as [i t p st c]. cbn in Hdone. subst st. reflexivity. }
    rewrite Hsame in Hkeeps. destruct Hkeeps; assumption.
Qed.

Lemma session_keeps_tasks_witness :
  let final :=
    fst (TaskClients.session TaskClients.run_good TaskHistory.demo
           [TaskClients.tarea1]) in
  (TaskClients.tarea1 ∈ final
   \/ TaskRefactor.complete TaskClients.tarea1 ∈ final)
  /\ length final = 3.
Proof.
  intros final.
  destruct (session_keeps_tasks TaskHistory.demo [TaskClients.tarea1]
              TaskClients.tarea1) as (Hkept & _ & Hlength).
  - apply list_elem_of_here.
  - split; [exact Hkept | exact Hlength].
Defined.

(** X21. A task that was just added is the one that [completeTask]
    completes for the generated id, when the task has priority (it is found
    first) or when no other task has that id: the list is then as if the
    task had been added completed. *)
Theorem add_then_complete (generatedId : jsstring) (now : Z) (title : jsstring)
    (isPriority : bool) tasks :
  isPriority = true
  \/ Forall (fun t => TaskRefactor.id t <> generatedId) tasks ->
  let completed :=
    TaskRefactor.mkTask generatedId title isPriority TaskRefactor.COMPLETED now in
  TaskRefactor.completeTask generatedId
    (fst (TaskRefactor.addTask generatedId now title isPriority tasks))
  = (if isPriority then completed :: tasks else tasks ++ [completed], true).
Proof.
  intros Hfirst. cbv zeta. unfold TaskRefactor.addTask.
  destruct isPriority; cbn [fst].
  - unfold TaskRefactor.completeTask. cbn [list_find].
    rewrite decide_True by reflexivity. reflexivity.
  - destruct Hfirst as [|Hfresh]; [discriminate|].
    unfold TaskRefactor.completeTask.
    rewrite (list_find_first (fun t => TaskRefactor.id t = generatedId))
      by (assumption || reflexivity).
    rewrite alter_first. reflexivity.
Qed.

Lemma add_then_complete_witness :
  TaskRefactor.completeTask (lit "id3")
    (fst (TaskRefactor.addTask (lit "id3") 0 (lit "Tarea 3") false
            [TaskClients.tarea1; TaskClients.tarea2]))
  = ([TaskClients.tarea1; TaskClients.tarea2;
      TaskRefactor.mkTask (lit "id3") (lit "Tarea 3") false
        TaskRefactor.COMPLETED 0],
     true).
Proof.
  apply (add_then_complete (lit "id3") 0 (lit "Tarea 3") false
           [TaskClients.tarea1; TaskClients.tarea2]).
  right. repeat constructor; discriminate.
Defined.

End SessionFacts.

(* ===================================================================== *)
(** * Facts: one client, two managers *)
(* ===================================================================== *)

Section PairFacts.
Import JS.
Context `{Randoms}.
Implicit Types (d : list TaskBase.Item) (tasks : list TaskRefactor.Task)
  (calls : list TaskPairs.Call).

(** With no id twice in the list, [done] with the id read at a position
    completes the task at that position. *)
Lemma done_at d (k : nat) (item : TaskBase.Item) :
  NoDup (TaskBase.id <$> d) -> d !! k = Some item ->
  TaskBase.done (TaskBase.id item) d = (alter TaskBase.complete k d, true).
Proof.
  intros Hnodup Hk. unfold TaskBase.done.
  assert (Hfind : list_find (fun x => TaskBase.id x = TaskBase.id item) d
                  = Some (k, item)).
  { apply list_find_Some. split; [exact Hk|]. split; [reflexivity|].
    intros j y Hj Hlt Heq.
    assert (j = k); [|lia].
    apply (NoDup_lookup _ j k (TaskBase.id item) Hnodup);
      rewrite list_lookup_fmap; [rewrite Hj, <- Heq | rewrite Hk]; reflexivity. }
  rewrite Hfind. reflexivity.
Qed.

Lemma completeTask_at tasks (k : nat) (task : TaskRefactor.Task) :
  NoDup (TaskRefactor.id <$> tasks) -> tasks !! k = Some task ->
  TaskRefactor.completeTask (TaskRefactor.id task) tasks
  = (alter TaskRefactor.complete k tasks, true).
Proof.
  intros Hnodup Hk. unfold TaskRefactor.completeTask.
  assert (Hfind : list_find (fun x => TaskRefactor.id x = TaskRefactor.id task)
                    tasks
                  = Some (k, task)).
  { apply list_find_Some. split; [exact Hk|]. split; [reflexivity|].
    intros j y Hj Hlt Heq.
    assert (j = k); [|lia].
    apply (NoDup_lookup _ j k (TaskRefactor.id task) Hnodup);
      rewrite list_lookup_fmap; [rewrite Hj, <- Heq | rewrite Hk]; reflexivity. }
  rewrite Hfind. reflexivity.
Qed.

(** One call of the client does the same to both classes. *)
Lemma pair_call_agree call calls d tasks :
  Forall2 TaskPairs.same_content d tasks ->
  TaskPairs.added_title call <> Some [] ->
  NoDup ((TaskBase.id <$> d) ++ TaskPairs.bad_ids (call :: calls)) ->
  NoDup ((TaskRefactor.id <$> tasks) ++ TaskPairs.good_ids (call :: calls)) ->
  (TaskPairs.run_bad call d = None /\ TaskPairs.run_good call tasks = None)
  \/ exists d' tasks' result,
       TaskPairs.run_bad call d = Some (d', result)
       /\ TaskPairs.run_good call tasks = Some (tasks', result)
       /\ Forall2 TaskPairs.same_content d' tasks'
       /\ NoDup ((TaskBase.id <$> d') ++ TaskPairs.bad_ids calls)
       /\ NoDup ((TaskRefactor.id <$> tasks') ++ TaskPairs.good_ids calls).
Proof.
  intros Hsame Htitle Hbad Hgood.
  destruct call as [title isPriority bad good|index].
  - right. cbn [TaskPairs.run_bad TaskPairs.run_good].
    cbn [TaskPairs.bad_ids TaskPairs.good_ids] in Hbad, Hgood.
    unfold TaskBase.add, TaskRefactor.addTask.
    cbn [TaskBase.in_title TaskBase.in_p].
    destruct title as [|c title]; [exfalso; apply Htitle; reflexivity|].
    cbn [truthy_opt negb].
    assert (Hnew : TaskPairs.same_content
                     (TaskBase.mkItem (Some (c :: title)) (Some isPriority)
                        (TaskPairs.random_id (TaskPairs.drawn bad))
                        (lit "pending") (TaskPairs.now bad))
                     (TaskRefactor.mkTask
                        (TaskPairs.generateId (TaskPairs.drawn good))
                        (c :: title) isPriority TaskRefactor.PENDING
                        (TaskPairs.now good)))
      by (repeat split).
    destruct isPriority.
    + rewrite bool_decide_eq_true_2 by reflexivity.
      eexists _, _, _. split; [reflexivity|]. split; [reflexivity|].
      split; [constructor; assumption|].
      cbn [fmap list_fmap TaskBase.id TaskRefactor.id app].
      split; rewrite Permutation_middle; assumption.
    + rewrite bool_decide_eq_false_2 by discriminate.
      eexists _, _, _. split; [reflexivity|]. split; [reflexivity|].
      split.
      { apply Forall2_app; [assumption|].
        constructor; [assumption | constructor]. }
      rewrite !fmap_app. cbn [fmap list_fmap TaskBase.id TaskRefactor.id].
      rewrite <- !app_assoc. cbn [app]. split; assumption.
  - cbn [TaskPairs.run_bad TaskPairs.run_good TaskBase.getAll
         TaskRefactor.getAllTasks snd].
    cbn [TaskPairs.bad_ids TaskPairs.good_ids] in Hbad, Hgood.
    destruct (d !! index) as [item|] eqn:Hitem.
    + destruct (Forall2_lookup_l _ _ _ _ _ Hsame Hitem) as (task & Htask & Hboth).
      rewrite Htask. right.
      apply NoDup_app in Hbad as Hd. destruct Hd as [Hd _].
      apply NoDup_app in Hgood as Htasks. destruct Htasks as [Htasks _].
      rewrite (done_at d index item Hd Hitem).
      rewrite (completeTask_at tasks index task Htasks Htask).
      eexists _, _, _. split; [reflexivity|]. split; [reflexivity|].
      split.
      { apply Forall2_alter; [exact Hsame|].
        intros x y Hx Hy (Ht & Hp & _). repeat split; assumption. }
      rewrite !fmap_alter_same by reflexivity. split; assumption.
    + left. split; [reflexivity|].
      destruct (tasks !! index) as [task|] eqn:Htask; [|reflexivity].
      destruct (Forall2_lookup_r _ _ _ _ _ Hsame Htask) as (item & Hsome & _).
      congruence.
Qed.

Lemma pair_sessions_agree calls : forall d tasks,
  Forall2 TaskPairs.same_content d tasks ->
  Forall (fun call => TaskPairs.added_title call <> Some []) calls ->
  NoDup ((TaskBase.id <$> d) ++ TaskPairs.bad_ids calls) ->
  NoDup ((TaskRefactor.id <$> tasks) ++ TaskPairs.good_ids calls) ->
  snd (TaskPairs.session TaskPairs.run_bad calls d)
  = snd (TaskPairs.session TaskPairs.run_good calls tasks)
  /\ Forall2 TaskPairs.same_content
       (fst (TaskPairs.session TaskPairs.run_bad calls d))
       (fst (TaskPairs.session TaskPairs.run_good calls tasks)).
Proof.
  induction calls as [|call calls IH]; intros d tasks Hsame Htitles Hbad Hgood.
  - split; [reflexivity | assumption].
  - apply Forall_cons in Htitles as [Htitle Htitles].
    cbn [TaskPairs.session].
    destruct (pair_call_agree call calls d tasks Hsame Htitle Hbad Hgood)
      as [[-> ->] | (d' & tasks' & result & -> & -> & Hsame' & Hbad' & Hgood')].
    + split; [reflexivity | assumption].
    + destruct (IH d' tasks' Hsame' Htitles Hbad' Hgood') as [Hresults Hfinal].
      destruct (TaskPairs.session TaskPairs.run_bad calls d') as [d'' results].
      destruct (TaskPairs.session TaskPairs.run_good calls tasks')
        as [tasks'' results'].
      cbn [fst snd] in *. subst results'. auto.
Qed.

(** X17. A fresh [TaskMgr] and a fresh [TaskManager] driven by one client,
    which adds the same titles and flags to both and completes the task at
    a position of the list with the id it reads there, each class computing
    its own ids and dates: as long as no call adds an empty title and
    neither class computes the same id twice, both return the same
    booleans, both stop at the same call if a position is out of range, and
    they hold lists with the same titles, priority flags and statuses in
    the same order. *)
Theorem paired_managers_agree calls :
  Forall (fun call => TaskPairs.added_title call <> Some []) calls ->
  NoDup (TaskPairs.bad_ids calls) ->
  NoDup (TaskPairs.good_ids calls) ->
  snd (TaskPairs.session TaskPairs.run_bad calls [])
  = snd (TaskPairs.session TaskPairs.run_good calls [])
  /\ Forall2 TaskPairs.same_content
       (fst (TaskPairs.session TaskPairs.run_bad calls []))
       (fst (TaskPairs.session TaskPairs.run_good calls [])).
Proof.
  intros Htitles Hbad Hgood.
  apply pair_sessions_agree; [constructor | exact Htitles | exact Hbad | exact Hgood].
Qed.

End PairFacts.

(** The demo on both classes: the priority task, first in the list, is the
    one completed. *)
Lemma paired_managers_agree_witness :
  snd (TaskPairs.session TaskPairs.run_bad TaskPairs.demo [])
  = snd (TaskPairs.session TaskPairs.run_good TaskPairs.demo [])
  /\ TaskBase.st <$> fst (TaskPairs.session TaskPairs.run_bad TaskPairs.demo [])
     = [JS.lit "completed"; JS.lit "pending"]
  /\ TaskRefactor.id
       <$> fst (TaskPairs.session TaskPairs.run_good TaskPairs.demo [])
     = [JS.lit "41o6bzc7v"; JS.lit "wk8s1n4y6"]
  /\ TaskBase.id <$> fst (TaskPairs.session TaskPairs.run_bad TaskPairs.demo [])
     = [JS.lit "0.7351"; JS.lit "0.2908"].
Proof.
  destruct (paired_managers_agree TaskPairs.demo) as [Hresults _].
  - repeat constructor; discriminate.
  - apply (bool_decide_unpack _). vm_compute. exact I.
  - apply (bool_decide_unpack _). vm_compute. exact I.
  - split; [exact Hresults|]. repeat split; reflexivity.
Defined.

(* ===================================================================== *)
(** * Facts: the two designs of the purchase, and processing an order *)
(* ===================================================================== *)

Section DesignFacts.
Import JS.
Context `{Number}.
Implicit Types (lista extra : list Compra.Producto).

(** X22. In the bad design the total lags behind the products:
    [agregarProducto] never recomputes it. Products added after a purchase
    was processed are held by the object, but [obtenerTotal] still returns
    the total of the processed products alone, until [procesarCompra] runs
    again; on a new object it returns 0 whatever has been added. *)
Theorem gestor_total_lags (emailCliente : jsstring) lista extra :
  match Ejemplo1.comprar emailCliente lista with
  | inr gestor =>
      Ejemplo1.productos (Clientes.agregar_lista extra gestor) = lista ++ extra
      /\ Ejemplo1.obtenerTotal (Clientes.agregar_lista extra gestor)
         = Compra.reduce_total lista
  | inl _ => False
  end
  /\ Ejemplo1.obtenerTotal
       (Clientes.agregar_lista lista (Ejemplo1.new emailCliente))
     = zero.
Proof.
  split.
  - unfold Ejemplo1.comprar, Ejemplo1.procesarCompra, Clientes.agregar_lista,
      Ejemplo1.obtenerTotal.
    rewrite validarStock_None.
    destruct (agregar_todos lista (Ejemplo1.new emailCliente)) as [Hlista _].
    cbv zeta in Hlista.
    set (gestor := fold_left _ lista (Ejemplo1.new emailCliente)) in *.
    destruct (agregar_todos extra (Ejemplo1.calcularPrecioTotal gestor))
      as [Hproductos Htotal].
    cbv zeta in Hproductos, Htotal. rewrite Hproductos, Htotal.
    unfold Ejemplo1.calcularPrecioTotal.
    cbn [Ejemplo1.productos Ejemplo1.precioTotal]. rewrite Hlista.
    split; reflexivity.
  - destruct (agregar_todos lista (Ejemplo1.new emailCliente)) as [_ Htotal].
    exact Htotal.
Qed.

End DesignFacts.

Section ReferenciasFacts.
Import JS.
Context `{Number}.
Implicit Types (heap : Referencias.Heap) (orden : Referencias.Orden).

(** Writing to an object that the order does not hold changes none of the
    products of the order. *)
Lemma getProductos_escribir heap orden (ref : Referencias.Ref)
    (producto : Compra.Producto) :
  ref ∉ Referencias.productos orden ->
  Referencias.getProductos (Referencias.escribir ref producto heap) orden
  = Referencias.getProductos heap orden.
Proof.
  unfold Referencias.getProductos.
  induction (Referencias.productos orden) as [|r refs IH]; intros Hfresh;
    [reflexivity|].
  apply not_elem_of_cons in Hfresh as [Hr Hrefs].
  cbn [fmap list_fmap]. f_equal; [|apply IH; exact Hrefs].
  unfold Referencias.escribir. destruct (decide (r = ref)); congruence.
Qed.

(** X23. In the good design the total does not lag behind the calls of
    [agregarProducto]: as long as the client writes to none of the
    [Producto] objects that the order holds, in every state that an [Orden]
    of Ejemplo 2 reaches through [agregarProducto], whatever its inventory
    answers and whatever the client writes to its other objects, [getTotal]
    is the reduction of the products that [getProductos] returns, and every
    one of those products passed the stock check of that inventory. *)
Theorem orden_total_in_sync (inventario : Ejemplo2.IInventario) heap orden :
  Referencias.alcanzable inventario heap orden ->
  Referencias.getTotal orden
  = Compra.reduce_total (Referencias.getProductos heap orden)
  /\ Forall (fun p => Ejemplo2.verificarStock inventario (Compra.id p) = true)
       (Referencias.getProductos heap orden)
  /\ Referencias.inventario orden = inventario.
Proof.
  induction 1 as [heap emailCliente
                 |heap orden producto orden' _ (Htotal & Hstock & Hinv) Hadd
                 |heap orden ref producto _ (Htotal & Hstock & Hinv) Hfresh].
  - repeat split. constructor.
  - unfold Referencias.agregarProducto in Hadd. rewrite Hinv in Hadd.
    destruct (Ejemplo2.verificarStock inventario (Compra.id (heap producto)))
      eqn:Hp; [|discriminate].
    injection Hadd as <-. split; [reflexivity|]. split; [|reflexivity].
    unfold Referencias.getProductos in *.
    cbn [Referencias.recalcularTotal Referencias.productos].
    rewrite fmap_app. apply Forall_app. split; [exact Hstock|].
    repeat constructor. exact Hp.
  - rewrite getProductos_escribir by exact Hfresh. auto.
Qed.

End ReferenciasFacts.

(** The laptop is added, then the client writes to an object that the
    order does not hold: the total is still that of the products. *)
Lemma orden_total_in_sync_witness :
  let heap :=
    Referencias.escribir 1
      (Compra.mkProducto (JS.lit "2") (JS.lit "Mouse") 50%Z 2%Z)
      (fun _ => Referencias.laptop) in
  Referencias.getTotal Referencias.con_laptop
  = Compra.reduce_total (Referencias.getProductos heap Referencias.con_laptop)
  /\ Referencias.getTotal Referencias.con_laptop = 1200%Z.
Proof.
  intros heap.
  destruct (orden_total_in_sync Ejemplo2.InventarioDB heap Referencias.con_laptop)
    as (Htotal & _).
  - apply Referencias.alcanzable_escribir.
    + eapply Referencias.alcanzable_agregar with (producto := 0%nat);
        [apply (Referencias.alcanzable_new _ _ (JS.lit "cliente@email.com"))
        | reflexivity].
    + cbn. intros Hin. apply list_elem_of_singleton in Hin. discriminate.
  - split; [exact Htotal | reflexivity].
Defined.

(** What the condition is for: once the client writes to the laptop that
    the order holds, [getTotal] is no longer the reduction of the products
    that [getProductos] returns. *)
Lemma orden_total_stale :
  let heap :=
    Referencias.escribir 0
      (Compra.mkProducto (JS.lit "1") (JS.lit "Laptop") 1%Z 1%Z)
      (fun _ => Referencias.laptop) in
  Referencias.getTotal Referencias.con_laptop = 1200%Z
  /\ Compra.reduce_total (Referencias.getProductos heap Referencias.con_laptop)
     = 1%Z.
Proof. split; reflexivity. Qed.

Section ProcesoFacts.
Import JS.
Context `{Comparable} {World : Type}.
Implicit Types (c : Proceso.Colaboradores (World := World))
  (this : Solucion.Orden) (world : World)
  (lista antes despues : list (Proceso.INotificador (World := World))).

(** X24. However [procesar] ends, the state of the order says so: it is
    [PROCESADA] exactly when the promise is fulfilled and [ERROR] exactly
    when it is rejected, whichever collaborator failed, a notifier whose
    rejection cannot be logged included. With collaborators that only read
    the order they are handed, [procesar] changes nothing else of the
    order. *)
Theorem procesar_estado c this world :
  let result := snd (Proceso.procesar c this world) in
  fst result
  = Proceso.set_estado
      (match snd result with
       | Solucion.Fulfilled _ => Solucion.PROCESADA
       | Solucion.Rejected _ => Solucion.ERROR
       end)
      this.
Proof.
  cbv zeta. unfold Proceso.procesar.
  destruct (Proceso.validarOrden c this world) as [w1 [v|r]]; [|reflexivity].
  destruct (negb (Proceso.esValida v)); [reflexivity|].
  destruct (Proceso.actualizarInventario c (Solucion.productos this) w1)
    as [w2 [[]|r]]; [|reflexivity].
  destruct (Proceso.guardarOrden c this w2) as [w3 [[]|r]]; [|reflexivity].
  destruct (Proceso.notificarCliente (Proceso.notificadores c)
              (Proceso.set_estado Solucion.PROCESADA this) w3)
    as [w4 [[]|r]]; reflexivity.
Qed.

(** The notifiers before the first one that stops the loop are called once
    each, in order, each on the world that the one before it left. *)
Lemma notificarCliente_app antes despues this : forall world,
  Forall (fun notificador =>
            forall destinatario orden w,
              Proceso.interrumpe (snd (notificador destinatario orden w)) = None)
    antes ->
  Proceso.notificarCliente (antes ++ despues) this world
  = Proceso.notificarCliente despues this
      (fold_left
         (fun world notificador =>
            fst (notificador (Solucion.emailCliente this) this world))
         antes world).
Proof.
  induction antes as [|notificador antes IH]; intros world Hantes;
    [reflexivity|].
  apply Forall_cons in Hantes as [Hnotificador Hantes].
  cbn [app Proceso.notificarCliente fold_left].
  specialize (Hnotificador (Solucion.emailCliente this) this world).
  destruct (notificador (Solucion.emailCliente this) this world)
    as [w [|reason]]; cbn [fst snd] in *.
  - apply IH. exact Hantes.
  - unfold Proceso.interrumpe in Hnotificador.
    destruct (Proceso.leer_mensaje reason) as [typeError|mensaje];
      [discriminate|].
    apply IH. exact Hantes.
Qed.

(** The inventory and the store do not see the notifiers. *)
Lemma actualizarInventario_con_notificadores c lista
    (productos : list Compra.Producto) : forall world,
  Proceso.actualizarInventario (Proceso.con_notificadores lista c) productos world
  = Proceso.actualizarInventario c productos world.
Proof.
  induction productos as [|p productos IH]; intros world; [reflexivity|].
  cbn [Proceso.actualizarInventario Proceso.con_notificadores
       Proceso.reducirStock].
  destruct (Proceso.reducirStock c (Compra.id p) (Compra.cantidad p) world)
    as [w [[]|r]]; [|reflexivity].
  rewrite <- IH. reflexivity.
Qed.

(** X25. Up to the notifications [procesar] goes as it does without
    notifiers, and when it is rejected there no notifier is called.
    Otherwise the notifiers are called in order, with the email of the
    client and the order in state [PROCESADA]. A notifier that fulfils, or
    rejects with an Error, whose message is a string, does not keep the
    next one from being called,
    and when all are such the order is fulfilled. A notifier that rejects
    with [null] or [undefined] fails the order: the [catch] throws a
    TypeError on reading the message, no later notifier is called,
    [procesar] rejects with that TypeError and the order ends in state
    [ERROR]. *)
Theorem notifiers_and_the_order c this world :
  let procesada := Proceso.set_estado Solucion.PROCESADA this in
  let llamar world (notificador : Proceso.INotificador) :=
    fst (notificador (Solucion.emailCliente this) procesada world) in
  (forall lista,
     Proceso.procesar (Proceso.con_notificadores lista c) this world
     = match Proceso.procesar (Proceso.con_notificadores [] c) this world with
       | (world', (_, Solucion.Fulfilled _)) =>
           match Proceso.notificarCliente lista procesada world' with
           | (world'', Solucion.Fulfilled _) =>
               (world'', (procesada, Solucion.Fulfilled tt))
           | (world'', Solucion.Rejected typeError) =>
               (world'',
                (Proceso.set_estado Solucion.ERROR this,
                 Solucion.Rejected typeError))
           end
       | failed => failed
       end)
  /\ (forall lista world',
        Forall (fun notificador =>
                  forall destinatario orden w,
                    snd (notificador destinatario orden w) = Proceso.Avisado
                    \/ exists error,
                         snd (notificador destinatario orden w)
                         = Proceso.Rechazado (Proceso.UnError error))
          lista ->
        Proceso.notificarCliente lista procesada world'
        = (fold_left llamar lista world', Solucion.Fulfilled tt))
  /\ (forall antes (culpable : Proceso.INotificador) despues world' reason,
        Forall (fun notificador =>
                  forall destinatario orden w,
                    snd (notificador destinatario orden w) = Proceso.Avisado
                    \/ exists error,
                         snd (notificador destinatario orden w)
                         = Proceso.Rechazado (Proceso.UnError error))
          antes ->
        snd (culpable (Solucion.emailCliente this) procesada
               (fold_left llamar antes world'))
        = Proceso.Rechazado reason ->
        reason = Proceso.Null \/ reason = Proceso.Undefined ->
        exists typeError,
          Proceso.leer_mensaje reason = inl typeError
          /\ Proceso.notificarCliente (antes ++ culpable :: despues)
               procesada world'
             = (llamar (fold_left llamar antes world') culpable,
                Solucion.Rejected typeError)).
Proof.
  cbv zeta.
  assert (Hlegible : forall lista,
    Forall (fun notificador : Proceso.INotificador =>
              forall destinatario orden w,
                snd (notificador destinatario orden w) = Proceso.Avisado
                \/ exists error,
                     snd (notificador destinatario orden w)
                     = Proceso.Rechazado (Proceso.UnError error))
      lista ->
    Forall (fun notificador : Proceso.INotificador =>
              forall destinatario orden w,
                Proceso.interrumpe (snd (notificador destinatario orden w))
                = None)
      lista).
  { intros lista Hlista. eapply Forall_impl; [exact Hlista|].
    intros notificador Hn destinatario orden w.
    destruct (Hn destinatario orden w) as [-> | [error ->]]; reflexivity. }
  split; [|split].
  - intros lista. unfold Proceso.procesar.
    cbn [Proceso.validarOrden Proceso.guardarOrden Proceso.notificadores
         Proceso.con_notificadores].
    destruct (Proceso.validarOrden c this world) as [w1 [v|r]]; [|reflexivity].
    destruct (negb (Proceso.esValida v)); [reflexivity|].
    fold (Proceso.con_notificadores lista c).
    fold (Proceso.con_notificadores [] c).
    rewrite !actualizarInventario_con_notificadores.
    destruct (Proceso.actualizarInventario c (Solucion.productos this) w1)
      as [w2 [[]|r]]; [|reflexivity].
    destruct (Proceso.guardarOrden c this w2) as [w3 [[]|r]]; [|reflexivity].
    cbn [Proceso.notificarCliente].
    destruct (Proceso.notificarCliente lista _ w3) as [w4 [[]|r]]; reflexivity.
  - intros lista world' Hlista.
    rewrite <- (app_nil_r lista) at 1.
    rewrite notificarCliente_app by (apply Hlegible; exact Hlista).
    reflexivity.
  - intros antes culpable despues world' reason Hantes Hculpable Hreason.
    exists (match reason with
            | Proceso.Undefined =>
                Exceptions.PlainError
                  (lit "Cannot read properties of undefined (reading 'message')")
            | _ =>
                Exceptions.PlainError
                  (lit "Cannot read properties of null (reading 'message')")
            end).
    split; [destruct Hreason as [-> | ->]; reflexivity|].
    rewrite notificarCliente_app by (apply Hlegible; exact Hantes).
    cbn [Proceso.notificarCliente].
    change (Solucion.emailCliente (Proceso.set_estado Solucion.PROCESADA this))
      with (Solucion.emailCliente this).
    destruct (culpable (Solucion.emailCliente this) _ _) as [w aviso].
    cbn [fst snd] in *. subst aviso.
    destruct Hreason as [-> | ->]; reflexivity.
Qed.

Lemma actualizarInventario_ejemploUso (productos : list Compra.Producto) world :
  Proceso.actualizarInventario Proceso.ejemploUso productos world
  = (world, Solucion.Fulfilled tt).
Proof. induction productos as [|p productos IH]; [reflexivity | exact IH]. Qed.

(** X26. With the collaborators of [ejemploUso], [procesar] is decided by
    the fraud rules alone, the amount first: an order of more than 10000 is
    rejected with ['Fraude detectado: Monto excede límite permitido'];
    otherwise an order of more than 10 products is rejected with ['Fraude
    detectado: Demasiados productos en una sola orden']; every other order
    is fulfilled. The order ends in state [ERROR] or [PROCESADA]
    accordingly. *)
Theorem ejemploUso_procesar this world :
  Proceso.procesar Proceso.ejemploUso this world
  = (world,
     if gtb (Solucion.getTotal this) (literal 10000) then
       (Proceso.set_estado Solucion.ERROR this,
        Solucion.Rejected
          (Exceptions.PlainError
             (lit "Fraude detectado: Monto excede l" ++ [237%N]
                ++ lit "mite permitido")))
     else if (10 <? length (Solucion.productos this))%nat then
       (Proceso.set_estado Solucion.ERROR this,
        Solucion.Rejected
          (Exceptions.PlainError
             (lit "Fraude detectado: Demasiados productos en una sola orden")))
     else
       (Proceso.set_estado Solucion.PROCESADA this, Solucion.Fulfilled tt)).
Proof.
  unfold Proceso.procesar.
  cbn [Proceso.validarOrden Proceso.ejemploUso].
  unfold Proceso.ValidadorFraudeBasico.
  destruct (gtb (Solucion.getTotal this) (literal 10000)); [reflexivity|].
  destruct (10 <? length (Solucion.productos this))%nat; [reflexivity|].
  cbn [negb Proceso.esValida].
  fold (Proceso.ejemploUso (World := World)).
  rewrite actualizarInventario_ejemploUso. reflexivity.
Qed.

End ProcesoFacts.

(** The order of the text, 1300 in two products, is processed; one laptop
    at 10001 is not. *)
Example ejemploUso_en_Z :
  let orden lista :=
    Solucion.recalcularTotal
      (Solucion.mkOrden lista 0%Z Solucion.CREADA (JS.lit "ORD-001")
         (JS.lit "cliente@email.com") (JS.lit "+1234567890")
         Solucion.InventarioReal) in
  let estado lista :=
    Solucion.estado
      (fst (snd (Proceso.procesar (World := unit) Proceso.ejemploUso
                   (orden lista) tt))) in
  estado [Compra.mkProducto (JS.lit "1") (JS.lit "Laptop") 1200%Z 1%Z;
          Compra.mkProducto (JS.lit "2") (JS.lit "Mouse") 50%Z 2%Z]
  = Solucion.PROCESADA
  /\ estado [Compra.mkProducto (JS.lit "1") (JS.lit "Laptop") 10001%Z 1%Z]
     = Solucion.ERROR.
Proof. split; reflexivity. Qed.

(** Three notifiers, the second of which rejects with [null]: the first
    is called, the third is not, and the notifications end in the
    TypeError. *)
Lemma notifiers_and_the_order_witness :
  let registra : Proceso.INotificador (World := list JS.jsstring) :=
    fun destinatario orden world => (world ++ [destinatario], Proceso.Avisado) in
  let nulo : Proceso.INotificador (World := list JS.jsstring) :=
    fun destinatario orden world => (world, Proceso.Rechazado Proceso.Null) in
  let orden :=
    Solucion.new (JS.lit "ORD-001") (JS.lit "cliente@email.com")
      (JS.lit "+1234567890") Solucion.InventarioReal in
  Proceso.notificarCliente [registra; nulo; registra]
    (Proceso.set_estado Solucion.PROCESADA orden) []
  = ([JS.lit "cliente@email.com"],
     Solucion.Rejected
       (Exceptions.PlainError
          (JS.lit "Cannot read properties of null (reading 'message')"))).
Proof.
  intros registra nulo orden.
  destruct (@notifiers_and_the_order Z_Number (list JS.jsstring)
              Proceso.ejemploUso orden [])
    as (_ & _ & Hnull).
  destruct (Hnull [registra] nulo [registra] [] Proceso.Null)
    as (typeError & Hread & Hrun).
  - repeat constructor.
  - reflexivity.
  - left. reflexivity.
  - injection Hread as <-. exact Hrun.
Defined.

(* ===================================================================== *)
(** * Facts: the router on bodies of any shape *)
(* ===================================================================== *)

Section AnyBodyFacts.
Import JS.
Context `{Doubles}.
Implicit Types (users : gmap jsstring AnyBody.User) (body : AnyBody.Body)
  (traceId : option jsstring) (v : AnyBody.Value).

Ltac run_any :=
  unfold AnyBody.post_users, AnyBody.put_user, AnyBody.delete_user,
    AnyBody.try_catch_next, AnyBody.bind, AnyBody.ret, AnyBody.throw,
    AnyBody.users_get, AnyBody.users_has, AnyBody.users_set,
    AnyBody.users_delete, AnyBody.users_values.

Lemma any_values_some users (p : AnyBody.User -> bool) :
  existsb p (snd <$> map_to_list users) = true
  <-> exists key user, users !! key = Some user /\ p user = true.
Proof.
  rewrite existsb_exists. split.
  - intros (user & Hin & Hp).
    apply list_elem_of_In, list_elem_of_fmap in Hin as ([key user'] & -> & Hin).
    apply elem_of_map_to_list in Hin. exists key, user'. auto.
  - intros (key & user & Hlookup & Hp). exists user. split; [|assumption].
    apply list_elem_of_In, list_elem_of_fmap. exists (key, user).
    split; [reflexivity|]. apply elem_of_map_to_list. assumption.
Qed.

Lemma any_narrow_Some (o : option AnyBody.Value) v :
  AnyBody.narrow o = Some v <-> o = Some v /\ AnyBody.truthy v = true.
Proof.
  destruct o as [w|]; cbn; [|split; [discriminate | intros [? _]; discriminate]].
  destruct (AnyBody.truthy w) eqn:Hw; split.
  - intros [= <-]. auto.
  - intros [[= <-] _]. reflexivity.
  - discriminate.
  - intros [[= <-] Hv]. congruence.
Qed.

Lemma any_narrow_None (o : option AnyBody.Value) :
  AnyBody.narrow o = None <-> AnyBody.falsy o.
Proof.
  unfold AnyBody.falsy. destruct o as [w|]; cbn; [|tauto].
  destruct (AnyBody.truthy w); split; congruence.
Qed.

(** ToString of a primitive never throws. *)
Lemma to_string_primitive v :
  AnyBody.is_object v = false -> exists text, AnyBody.to_string v = Some text.
Proof. destruct v as [|[|]| | | |]; cbn; try discriminate; eauto. Qed.

(** What POST /users does, case by case. *)
Lemma any_post_users_run (uuid : jsstring) (now : Z) traceId body users :
  AnyBody.post_users uuid now traceId body users
  = match AnyBody.narrow (AnyBody.body_email body),
          AnyBody.narrow (AnyBody.body_name body) with
    | Some email, Some name =>
        match AnyBody.to_string email with
        | None => (users, AnyBody.Next AnyBody.TypeError)
        | Some text =>
            if negb (Regex.test Regex.emailRegex text)
            then (users, AnyBody.Next AnyBody.invalid_email)
            else if existsb
                      (fun user => AnyBody.strict_eq (AnyBody.email user) email)
                      (snd <$> map_to_list users)
            then (users, AnyBody.Next AnyBody.email_taken)
            else (<[uuid := AnyBody.mkUser uuid name email now]> users,
                  AnyBody.Sent
                    (AnyBody.created traceId (AnyBody.mkUser uuid name email now)))
        end
    | _, _ => (users, AnyBody.Next (AnyBody.fields_required body))
    end.
Proof.
  run_any.
  destruct (AnyBody.narrow (AnyBody.body_email body)) as [email|]; [|reflexivity].
  destruct (AnyBody.narrow (AnyBody.body_name body)) as [name|]; [|reflexivity].
  destruct (AnyBody.to_string email) as [text|]; [|reflexivity].
  destruct (negb (Regex.test _ _)); [reflexivity|].
  unfold AnyBody.email_of. destruct (existsb _ _); reflexivity.
Qed.

(** What PUT /users/:id does, case by case. *)
Lemma any_put_user_run traceId (userId : jsstring) body users :
  AnyBody.put_user traceId userId body users
  = match users !! userId with
    | None => (users, AnyBody.Next (AnyBody.not_found userId))
    | Some existingUser =>
        if negb (AnyBody.truthy_opt (AnyBody.body_email body))
           && negb (AnyBody.truthy_opt (AnyBody.body_name body))
        then (users, AnyBody.Next AnyBody.nothing_to_update)
        else
          let stored :=
            (<[userId := AnyBody.updatedUser body existingUser]> users,
             AnyBody.Sent
               (AnyBody.updated traceId (AnyBody.updatedUser body existingUser))) in
          match AnyBody.narrow (AnyBody.body_email body) with
          | None => stored
          | Some email =>
              match AnyBody.to_string email with
              | None => (users, AnyBody.Next AnyBody.TypeError)
              | Some text =>
                  if negb (Regex.test Regex.emailRegex text)
                  then (users, AnyBody.Next AnyBody.invalid_email)
                  else if existsb
                            (fun user =>
                               AnyBody.strict_eq (AnyBody.email user) email
                               && negb (streq (AnyBody.id user) userId))
                            (snd <$> map_to_list users)
                  then (users, AnyBody.Next AnyBody.email_taken)
                  else stored
              end
          end
    end.
Proof.
  cbv zeta. run_any.
  destruct (users !! userId) as [existingUser|]; [|reflexivity].
  destruct (negb _ && negb _); [reflexivity|].
  destruct (AnyBody.narrow _) as [email|]; [|reflexivity].
  destruct (AnyBody.to_string email) as [text|]; [|reflexivity].
  destruct (negb (Regex.test _ _)); [reflexivity|].
  unfold AnyBody.email_of. destruct (existsb _ _); reflexivity.
Qed.

(** What DELETE /users/:id does. *)
Lemma any_delete_user_run traceId (userId : jsstring) users :
  AnyBody.delete_user traceId userId users
  = match users !! userId with
    | None => (users, AnyBody.Next (AnyBody.not_found userId))
    | Some _ => (delete userId users, AnyBody.Sent (AnyBody.deleted traceId))
    end.
Proof.
  run_any. destruct (users !! userId) as [user|] eqn:Hget.
  - rewrite bool_decide_eq_true_2 by eauto. reflexivity.
  - rewrite bool_decide_eq_false_2 by (intros [? ?]; discriminate). reflexivity.
Qed.

Lemma narrow_of_string (o : option jsstring) :
  AnyBody.narrow (AnyBody.Str <$> o) = AnyBody.Str <$> UsersRoutes.narrow o.
Proof. destruct o as [[|c s]|]; reflexivity. Qed.

Lemma truthy_of_string (o : option jsstring) :
  AnyBody.truthy_opt (AnyBody.Str <$> o) = truthy_opt o.
Proof. destruct o as [[|c s]|]; reflexivity. Qed.

Lemma values_of_user (users : gmap jsstring Http.User)
    (p : AnyBody.User -> bool) :
  existsb p (snd <$> map_to_list (AnyBody.of_user <$> users))
  = existsb (fun user => p (AnyBody.of_user user)) (snd <$> map_to_list users).
Proof.
  apply eq_true_iff_eq. rewrite any_values_some, values_some.
  split; intros (key & user & Hlookup & Hp).
  - rewrite lookup_fmap in Hlookup.
    destruct (users !! key) as [user'|] eqn:Huser; [|discriminate].
    injection Hlookup as <-. eauto.
  - exists key, (AnyBody.of_user user). rewrite lookup_fmap, Hlookup. auto.
Qed.

Lemma missing_fields_of_body (body : Http.Body) :
  AnyBody.missing_fields (AnyBody.of_body body) = UsersRoutes.missing_fields body.
Proof. destruct body as [[[|c s]|] [[|c' s']|]]; reflexivity. Qed.

Lemma or_else_of_string (o : option jsstring) (d : jsstring) :
  AnyBody.or_else (AnyBody.Str <$> o) (AnyBody.Str d)
  = AnyBody.Str (or_else o d).
Proof. destruct o as [[|c s]|]; reflexivity. Qed.

(** On a body of the declared type and a Map of users of the declared
    type, the routes on any body are the routes of [UsersRoutes]. *)
Lemma typed_post_users (uuid : jsstring) (now : Z) (req : Http.Request)
    (res : Http.Response) (users : gmap jsstring Http.User) :
  let typed := UsersRoutes.post_users uuid now req res users in
  let any :=
    AnyBody.post_users uuid now (Http.traceId req)
      (AnyBody.of_body (Http.body req)) (AnyBody.of_user <$> users) in
  fst any = AnyBody.of_user <$> fst typed
  /\ AnyBody.of_outcome (snd typed) = Some (snd any).
Proof.
  cbv zeta. rewrite post_users_run, any_post_users_run.
  cbn [AnyBody.of_body AnyBody.body_email AnyBody.body_name].
  rewrite !narrow_of_string.
  destruct (UsersRoutes.narrow (Http.body_email _)) as [email|];
    cbn [fmap option_fmap option_map].
  2:{ split; [reflexivity|]. cbn [snd AnyBody.of_outcome].
      unfold AnyBody.fields_required, UsersReplies.fields_required.
      rewrite <- missing_fields_of_body. reflexivity. }
  destruct (UsersRoutes.narrow (Http.body_name _)) as [name|];
    cbn [fmap option_fmap option_map].
  2:{ split; [reflexivity|]. cbn [snd AnyBody.of_outcome].
      unfold AnyBody.fields_required, UsersReplies.fields_required.
      rewrite <- missing_fields_of_body. reflexivity. }
  cbn [AnyBody.to_string].
  destruct (negb (Regex.test _ _)); [split; reflexivity|].
  rewrite values_of_user. cbn [AnyBody.of_user AnyBody.email AnyBody.strict_eq].
  destruct (existsb _ _); [split; reflexivity|].
  cbn [fst snd]. rewrite fmap_insert. split; reflexivity.
Qed.

Lemma typed_put_user (req : Http.Request) (res : Http.Response)
    (users : gmap jsstring Http.User) :
  let typed := UsersRoutes.put_user req res users in
  let any :=
    AnyBody.put_user (Http.traceId req) (Http.params_id req)
      (AnyBody.of_body (Http.body req)) (AnyBody.of_user <$> users) in
  fst any = AnyBody.of_user <$> fst typed
  /\ AnyBody.of_outcome (snd typed) = Some (snd any).
Proof.
  cbv zeta. rewrite put_user_run, any_put_user_run. cbv zeta.
  rewrite lookup_fmap.
  destruct (users !! Http.params_id req) as [existingUser|];
    cbn [fmap option_fmap option_map]; [|split; reflexivity].
  cbn [AnyBody.of_body AnyBody.body_email AnyBody.body_name].
  rewrite !truthy_of_string, narrow_of_string.
  destruct (negb _ && negb _); [split; reflexivity|].
  assert (Huser : AnyBody.updatedUser (AnyBody.of_body (Http.body req))
                    (AnyBody.of_user existingUser)
                  = AnyBody.of_user (UsersRoutes.updatedUser req existingUser)).
  { unfold AnyBody.updatedUser, UsersRoutes.updatedUser, AnyBody.of_user,
      AnyBody.of_body.
    cbn [AnyBody.body_email AnyBody.body_name AnyBody.id AnyBody.name
         AnyBody.email AnyBody.createdAt Http.id Http.name Http.email
         Http.createdAt].
    rewrite !or_else_of_string. reflexivity. }
  fold (AnyBody.of_body (Http.body req)). rewrite Huser.
  destruct (UsersRoutes.narrow (Http.body_email _)) as [email|];
    cbn [fmap option_fmap option_map].
  2:{ cbn [fst snd]. rewrite fmap_insert. split; reflexivity. }
  cbn [AnyBody.to_string].
  destruct (negb (Regex.test _ _)); [split; reflexivity|].
  rewrite values_of_user.
  cbn [AnyBody.of_user AnyBody.email AnyBody.id AnyBody.strict_eq].
  destruct (existsb _ _); [split; reflexivity|].
  cbn [fst snd]. rewrite fmap_insert. split; reflexivity.
Qed.

Lemma typed_delete_user (req : Http.Request) (res : Http.Response)
    (users : gmap jsstring Http.User) :
  let typed := UsersRoutes.delete_user req res users in
  let any :=
    AnyBody.delete_user (Http.traceId req) (Http.params_id req)
      (AnyBody.of_user <$> users) in
  fst any = AnyBody.of_user <$> fst typed
  /\ AnyBody.of_outcome (snd typed) = Some (snd any).
Proof.
  cbv zeta. rewrite any_delete_user_run, lookup_fmap.
  destruct (delete_user_cases req res users)
    as [[Hnone Hrun] | (user & res' & Hsome & Hrun)].
  - rewrite Hnone. cbn [fmap option_fmap option_map]. rewrite Hrun.
    split; reflexivity.
  - rewrite Hsome. cbn [fmap option_fmap option_map fst snd].
    split; [rewrite Hrun; cbn [fst]; rewrite fmap_delete; reflexivity|].
    clear Hrun. unfold UsersRoutes.delete_user, UsersRoutes.try_catch_next,
      UsersRoutes.bind, UsersRoutes.users_has, UsersRoutes.users_delete,
      UsersRoutes.ret, UsersRoutes.throw.
    rewrite bool_decide_eq_true_2 by eauto. reflexivity.
Qed.

(** On a body whose email is no array and no object, POST /users refuses
    the body with a [BadRequestException] and leaves the Map alone, or
    stores the new user under the generated id and answers 201; it refuses
    exactly the bodies in [refused]. *)
Lemma any_post_users_cases (uuid : jsstring) (now : Z) traceId body users :
  (forall email, AnyBody.body_email body = Some email ->
                 AnyBody.is_object email = false) ->
  (AnyBody.refused body users
   /\ exists error,
        Exceptions.instanceof_BadRequestException error = true
        /\ AnyBody.post_users uuid now traceId body users
           = (users, AnyBody.Next error))
  \/ (~ AnyBody.refused body users
      /\ exists email name,
           AnyBody.body_email body = Some email
           /\ AnyBody.body_name body = Some name
           /\ AnyBody.post_users uuid now traceId body users
              = (<[uuid := AnyBody.mkUser uuid name email now]> users,
                 AnyBody.Sent
                   (AnyBody.created traceId
                      (AnyBody.mkUser uuid name email now)))).
Proof.
  intros Hprimitive. rewrite any_post_users_run. unfold AnyBody.refused.
  destruct (AnyBody.narrow (AnyBody.body_email body)) as [email|] eqn:Hemail.
  2:{ left. apply any_narrow_None in Hemail. split; [auto|].
      eexists; split; [|reflexivity]; reflexivity. }
  destruct (AnyBody.narrow (AnyBody.body_name body)) as [name|] eqn:Hname.
  2:{ left. apply any_narrow_None in Hname. split; [auto|].
      eexists; split; [|reflexivity]; reflexivity. }
  apply any_narrow_Some in Hemail as [Hemail Hemail_truthy].
  apply any_narrow_Some in Hname as [Hname Hname_truthy].
  destruct (to_string_primitive email (Hprimitive _ Hemail)) as [text Htext].
  rewrite Htext.
  destruct (Regex.test Regex.emailRegex text) eqn:Htest; cbn [negb].
  2:{ left. split; [right; right; left; eauto|].
      eexists; split; [|reflexivity]; reflexivity. }
  destruct (existsb _ _) eqn:Hex.
  { left. apply any_values_some in Hex as (key & user & Hlookup & Heq).
    split; [|eexists; split; [|reflexivity]; reflexivity].
    right; right; right. exists key, user, email. auto. }
  right. split.
  - unfold AnyBody.falsy. rewrite Hemail, Hname. cbn [AnyBody.truthy_opt].
    intros [Hf | [Hf | [(e & t & [= <-] & Ht & Hno)
                       | (key & user & e & Hlookup & [= <-] & Heq)]]];
      try congruence.
    assert (Hnone : existsb
                      (fun user => AnyBody.strict_eq (AnyBody.email user) email)
                      (snd <$> map_to_list users) = true)
      by (apply any_values_some; eauto).
    congruence.
  - exists email, name. auto.
Qed.

(** C3, as amended. For a POST /users whose email is no array and no
    object: the handler throws [BadRequestException] if and only if the
    body's email or name is absent or falsy ([null], [false], [0], ['']),
    or the email, as a string, does not match [emailRegex], or the email of
    a stored user is [===] it. When it throws, the Map is as it was.
    Otherwise it stores, under the generated UUID, the user with that id
    and the given name and email, touches no other key, and answers status
    201 with code ['USER_CREATED'] and the new user as data; when the UUID
    is fresh the Map has grown by exactly one user. *)
Theorem post_users_on_any_body (uuid : jsstring) (now : Z) traceId body users :
  (forall email, AnyBody.body_email body = Some email ->
                 AnyBody.is_object email = false) ->
  let result := AnyBody.post_users uuid now traceId body users in
  (AnyBody.throws_BadRequestException (snd result) <-> AnyBody.refused body users)
  /\ (AnyBody.throws (snd result) -> fst result = users)
  /\ (~ AnyBody.refused body users ->
      exists email name,
        AnyBody.body_email body = Some email
        /\ AnyBody.body_name body = Some name
        /\ snd result
           = AnyBody.Sent
               (AnyBody.created traceId (AnyBody.mkUser uuid name email now))
        /\ fst result !! uuid = Some (AnyBody.mkUser uuid name email now)
        /\ (forall key, key <> uuid -> fst result !! key = users !! key)
        /\ (users !! uuid = None -> size (fst result) = S (size users))).
Proof.
  intros Hprimitive. cbv zeta.
  unfold AnyBody.throws_BadRequestException, AnyBody.throws.
  destruct (any_post_users_cases uuid now traceId body users Hprimitive)
    as [(Href & error & Hbad & ->)
       | (Hok & email & name & Hemail & Hname & ->)]; cbn [fst snd].
  - split; [split; eauto|]. split; [reflexivity|]. contradiction.
  - split; [split; [intros (error & [=] & _) | contradiction]|].
    split; [intros (error & [=])|].
    intros _. exists email, name. repeat split; try assumption.
    + apply lookup_insert_eq.
    + intros key Hkey. apply lookup_insert_ne. congruence.
    + intros Hfresh. apply map_size_insert_None. assumption.
Qed.

Lemma any_taken_by_other_existsb users (userId : jsstring) v :
  existsb (fun user => AnyBody.strict_eq (AnyBody.email user) v
                       && negb (streq (AnyBody.id user) userId))
    (snd <$> map_to_list users) = true
  <-> AnyBody.taken_by_other users userId v.
Proof.
  rewrite any_values_some. unfold AnyBody.taken_by_other, AnyBody.email_of.
  split; intros (key & user & Hlookup & Htaken); exists key, user;
    (split; [assumption|]).
  - apply andb_true_iff in Htaken as [Heq Hid]. split; [assumption|].
    apply negb_true_iff, streq_false in Hid. assumption.
  - destruct Htaken as [Heq Hid]. apply andb_true_iff. split; [assumption|].
    apply negb_true_iff, streq_false. assumption.
Qed.

Lemma any_narrow_truthy (o : option AnyBody.Value) v :
  AnyBody.narrow o = Some v -> AnyBody.truthy_opt o = true.
Proof. intros Hnarrow. apply any_narrow_Some in Hnarrow as [-> Hv]. exact Hv. Qed.

(** [stored === incoming] holds for no array and no object of the body. *)
Lemma strict_eq_object (stored incoming : AnyBody.Value) :
  AnyBody.is_object incoming = true -> AnyBody.strict_eq stored incoming = false.
Proof. destruct stored, incoming; cbn; congruence. Qed.

(** A string is [===] itself. *)
Lemma strict_eq_string (s : jsstring) :
  AnyBody.strict_eq (AnyBody.Str s) (AnyBody.Str s) = true.
Proof. cbn. apply streq_true. reflexivity. Qed.

(** X4. On a stored id, PUT /users/:id refuses a body in this order:
    neither email nor name is truthy; the truthy email is an object that
    cannot be converted to a string (the TypeError goes to [next]); the
    email, as a string, is rejected by [emailRegex]; the email is [===] the
    email of a user stored under another id, which no array and no object
    of a body is. Whenever PUT throws, the Map is as it was. *)
Theorem any_put_user_refusals traceId (userId : jsstring) body users
    (existingUser : AnyBody.User) :
  users !! userId = Some existingUser ->
  let email := AnyBody.body_email body in
  let name := AnyBody.body_name body in
  let result := AnyBody.put_user traceId userId body users in
  (AnyBody.falsy email /\ AnyBody.falsy name ->
   result = (users, AnyBody.Next AnyBody.nothing_to_update))
  /\ (forall e, AnyBody.narrow email = Some e ->
        AnyBody.to_string e = None ->
        result = (users, AnyBody.Next AnyBody.TypeError))
  /\ (forall e text, AnyBody.narrow email = Some e ->
        AnyBody.to_string e = Some text ->
        Regex.test Regex.emailRegex text = false ->
        result = (users, AnyBody.Next AnyBody.invalid_email))
  /\ (forall e text, AnyBody.narrow email = Some e ->
        AnyBody.to_string e = Some text ->
        Regex.test Regex.emailRegex text = true ->
        AnyBody.taken_by_other users userId e ->
        result = (users, AnyBody.Next AnyBody.email_taken))
  /\ (forall e, AnyBody.is_object e = true ->
        ~ AnyBody.taken_by_other users userId e)
  /\ (AnyBody.throws (snd result) -> fst result = users).
Proof.
  intros Hstored. cbv zeta. rewrite any_put_user_run. cbv zeta. rewrite Hstored.
  split; [|split; [|split; [|split; [|split]]]].
  - unfold AnyBody.falsy. intros [-> ->]. reflexivity.
  - intros e He Hstring. rewrite (any_narrow_truthy _ _ He), He, Hstring.
    reflexivity.
  - intros e text He Hstring Htest.
    rewrite (any_narrow_truthy _ _ He), He, Hstring, Htest. reflexivity.
  - intros e text He Hstring Htest Htaken.
    rewrite (any_narrow_truthy _ _ He), He, Hstring, Htest. cbn [negb andb].
    apply any_taken_by_other_existsb in Htaken. rewrite Htaken. reflexivity.
  - intros e He (key & user & _ & Heq & _).
    unfold AnyBody.email_of in Heq. rewrite strict_eq_object in Heq by exact He.
    discriminate.
  - destruct (negb _ && negb _); [reflexivity|].
    destruct (AnyBody.narrow _) as [e|]; [|intros (error & [=])].
    destruct (AnyBody.to_string e) as [text|]; [|reflexivity].
    destruct (negb (Regex.test _ _)); [reflexivity|].
    destruct (existsb _ _); [reflexivity | intros (error & [=])].
Qed.

Lemma missing_fields_email body :
  lit "email" ∈ AnyBody.missing_fields body
  <-> AnyBody.falsy (AnyBody.body_email body).
Proof.
  unfold AnyBody.falsy, AnyBody.missing_fields.
  rewrite list_elem_of_In, filter_In. cbn -[lit].
  change (AnyBody.body_get body (lit "email")) with (AnyBody.body_email body).
  rewrite negb_true_iff. split; [tauto | auto].
Qed.

Lemma missing_fields_name body :
  lit "name" ∈ AnyBody.missing_fields body
  <-> AnyBody.falsy (AnyBody.body_name body).
Proof.
  unfold AnyBody.falsy, AnyBody.missing_fields.
  rewrite list_elem_of_In, filter_In. cbn -[lit].
  change (AnyBody.body_get body (lit "name")) with (AnyBody.body_name body).
  rewrite negb_true_iff. split; [|auto].
  intros [[Heq | [Heq | []]] Hfalsy]; [discriminate Heq | exact Hfalsy].
Qed.

(** X6. POST /users checks in this order and passes the first failure to
    [next]: an email or name that is absent or falsy gives
    ['Email y nombre son requeridos'] with [missing_fields] in the details;
    then an email that cannot be converted to a string gives the TypeError;
    then an email that, as a string, [emailRegex] rejects gives the
    invalid-format error; then an email that is [===] the email of a stored
    user gives the already-registered error. [missing_fields] lists a field
    exactly when it is absent or falsy. In each case the Map is as it
    was. *)
Theorem any_post_users_refusals (uuid : jsstring) (now : Z) traceId body users :
  let email := AnyBody.body_email body in
  let name := AnyBody.body_name body in
  let result := AnyBody.post_users uuid now traceId body users in
  (AnyBody.falsy email \/ AnyBody.falsy name ->
   result = (users, AnyBody.Next (AnyBody.fields_required body)))
  /\ (forall e n, AnyBody.narrow email = Some e ->
        AnyBody.narrow name = Some n ->
        AnyBody.to_string e = None ->
        result = (users, AnyBody.Next AnyBody.TypeError))
  /\ (forall e n text, AnyBody.narrow email = Some e ->
        AnyBody.narrow name = Some n ->
        AnyBody.to_string e = Some text ->
        Regex.test Regex.emailRegex text = false ->
        result = (users, AnyBody.Next AnyBody.invalid_email))
  /\ (forall e n text key user, AnyBody.narrow email = Some e ->
        AnyBody.narrow name = Some n ->
        AnyBody.to_string e = Some text ->
        Regex.test Regex.emailRegex text = true ->
        users !! key = Some user ->
        AnyBody.strict_eq (AnyBody.email user) e = true ->
        result = (users, AnyBody.Next AnyBody.email_taken))
  /\ (lit "email" ∈ AnyBody.missing_fields body <-> AnyBody.falsy email)
  /\ (lit "name" ∈ AnyBody.missing_fields body <-> AnyBody.falsy name).
Proof.
  cbv zeta. rewrite any_post_users_run.
  split; [|split; [|split; [|split; [|split]]]].
  - intros [Hfalsy | Hfalsy]; apply any_narrow_None in Hfalsy; rewrite Hfalsy;
      [reflexivity|].
    destruct (AnyBody.narrow (AnyBody.body_email _)); reflexivity.
  - intros e n -> -> ->. reflexivity.
  - intros e n text -> -> -> ->. reflexivity.
  - intros e n text key user -> -> -> -> Hlookup Heq. cbn [negb].
    assert (Hex : existsb
                    (fun user => AnyBody.strict_eq (AnyBody.email user) e)
                    (snd <$> map_to_list users) = true)
      by (apply any_values_some; eauto).
    rewrite Hex. reflexivity.
  - apply missing_fields_email.
  - apply missing_fields_name.
Qed.

(** X7. Once POST /users has created a user whose email came as a string,
    a further POST with that string as email is refused with a
    [BadRequestException], whatever name and generated id come with it, and
    leaves the Map as the first POST left it. *)
Theorem any_post_same_email_twice (uuid uuid' : jsstring) (now now' : Z)
    traceId traceId' body body' users (address : jsstring) :
  AnyBody.body_email body = Some (AnyBody.Str address) ->
  AnyBody.body_email body' = Some (AnyBody.Str address) ->
  ~ AnyBody.refused body users ->
  let users' := fst (AnyBody.post_users uuid now traceId body users) in
  AnyBody.throws_BadRequestException
    (snd (AnyBody.post_users uuid' now' traceId' body' users'))
  /\ fst (AnyBody.post_users uuid' now' traceId' body' users') = users'.
Proof.
  intros Hfirst Hsecond Hok.
  destruct (any_post_users_cases uuid now traceId body users)
    as [(Href & _) | (_ & email & name & Hemail & Hname & ->)];
    [intros e He; rewrite Hfirst in He; injection He as <-; reflexivity
    | contradiction |].
  cbn [fst].
  destruct (any_post_users_cases uuid' now' traceId' body'
              (<[uuid := AnyBody.mkUser uuid name email now]> users))
    as [(_ & error & Hbad & ->) | (Hok' & _)].
  - intros e He. rewrite Hsecond in He. injection He as <-. reflexivity.
  - cbn [fst snd]. split; [exists error; auto | reflexivity].
  - exfalso. apply Hok'. right; right; right.
    exists uuid, (AnyBody.mkUser uuid name email now), (AnyBody.Str address).
    split; [apply lookup_insert_eq|]. split; [assumption|].
    rewrite Hfirst in Hemail. injection Hemail as <-.
    apply strict_eq_string.
Qed.

Lemma any_well_formed_insert users (key : jsstring) (user : AnyBody.User) :
  AnyBody.well_formed users ->
  AnyBody.truthy (AnyBody.name user) = true ->
  AnyBody.truthy (AnyBody.email user) = true ->
  (exists text, AnyBody.to_string (AnyBody.email user) = Some text
                /\ Regex.test Regex.emailRegex text = true) ->
  AnyBody.well_formed (<[key := user]> users).
Proof.
  intros Hinv Hname Hemail Htext key' user'. rewrite lookup_insert.
  case_decide; [intros [= <-]; auto | apply Hinv].
Qed.

Lemma any_or_else_Some (o : option AnyBody.Value) v d :
  AnyBody.narrow o = Some v -> AnyBody.or_else o d = v.
Proof. unfold AnyBody.or_else. intros ->. reflexivity. Qed.

Lemma any_or_else_None (o : option AnyBody.Value) d :
  AnyBody.narrow o = None -> AnyBody.or_else o d = d.
Proof. unfold AnyBody.or_else. intros ->. reflexivity. Qed.

Lemma any_or_else_truthy (o : option AnyBody.Value) d :
  AnyBody.truthy d = true -> AnyBody.truthy (AnyBody.or_else o d) = true.
Proof.
  intros Hd. destruct (AnyBody.narrow o) as [v|] eqn:Hnarrow.
  - rewrite (any_or_else_Some _ _ _ Hnarrow).
    apply any_narrow_Some in Hnarrow as [_ Hv]. exact Hv.
  - rewrite (any_or_else_None _ _ Hnarrow). exact Hd.
Qed.

(** Every write of the router keeps the stored users well formed. *)
Lemma any_step_well_formed users users' :
  AnyBody.step users users' ->
  AnyBody.well_formed users -> AnyBody.well_formed users'.
Proof.
  intros Hstep Hinv.
  destruct Hstep as [uuid now traceId body users | traceId userId body users
                    | traceId userId users].
  - rewrite any_post_users_run.
    destruct (AnyBody.narrow (AnyBody.body_email _)) as [email|] eqn:Hemail;
      [|exact Hinv].
    destruct (AnyBody.narrow (AnyBody.body_name _)) as [name|] eqn:Hname;
      [|exact Hinv].
    destruct (AnyBody.to_string email) as [text|] eqn:Htext; [|exact Hinv].
    destruct (Regex.test _ _) eqn:Htest; [|exact Hinv]. cbn [negb].
    destruct (existsb _ _); [exact Hinv|]. cbn [fst].
    apply any_narrow_Some in Hemail as [_ Hemail].
    apply any_narrow_Some in Hname as [_ Hname].
    apply any_well_formed_insert; eauto.
  - rewrite any_put_user_run. cbv zeta.
    destruct (users !! userId) as [existing|] eqn:Hstored; [|exact Hinv].
    destruct (negb _ && negb _); [exact Hinv|].
    destruct (Hinv _ _ Hstored) as (Hname & Hemail & Htext).
    assert (Hname' : AnyBody.truthy
                       (AnyBody.name (AnyBody.updatedUser body existing)) = true)
      by (apply any_or_else_truthy; exact Hname).
    assert (Hemail' : AnyBody.truthy
                        (AnyBody.email (AnyBody.updatedUser body existing)) = true)
      by (apply any_or_else_truthy; exact Hemail).
    destruct (AnyBody.narrow (AnyBody.body_email _)) as [e|] eqn:He.
    + destruct (AnyBody.to_string e) as [text|] eqn:Hstring; [|exact Hinv].
      destruct (Regex.test _ text) eqn:Htest; [|exact Hinv]. cbn [negb].
      destruct (existsb _ _); [exact Hinv|]. cbn [fst].
      apply any_well_formed_insert; try assumption.
      cbn [AnyBody.updatedUser AnyBody.email].
      rewrite (any_or_else_Some _ _ _ He). eauto.
    + cbn [fst]. apply any_well_formed_insert; try assumption.
      cbn [AnyBody.updatedUser AnyBody.email].
      rewrite (any_or_else_None _ _ He). exact Htext.
  - rewrite any_delete_user_run.
    destruct (users !! userId) as [user|]; [|exact Hinv]. cbn [fst].
    intros key user'. rewrite lookup_delete.
    case_decide; [discriminate | apply Hinv].
Qed.

(** X8. In every state of the users Map that POST, PUT and DELETE requests
    can reach from the empty Map, each stored user has a truthy name and a
    truthy email that, converted to a string, [emailRegex] accepts. *)
Theorem any_reachable_well_formed users :
  AnyBody.reachable users -> AnyBody.well_formed users.
Proof.
  induction 1 as [|users users' _ IH Hstep].
  - intros key user. rewrite lookup_empty. discriminate.
  - eapply any_step_well_formed; eassumption.
Qed.

(** Every write of the router keeps each user under its own id. *)
Lemma any_step_keyed_by_id users users' :
  AnyBody.step users users' ->
  AnyBody.keyed_by_id users -> AnyBody.keyed_by_id users'.
Proof.
  intros Hstep Hinv.
  destruct Hstep as [uuid now traceId body users | traceId userId body users
                    | traceId userId users].
  - rewrite any_post_users_run.
    destruct (AnyBody.narrow (AnyBody.body_email _)) as [email|]; [|exact Hinv].
    destruct (AnyBody.narrow (AnyBody.body_name _)) as [name|]; [|exact Hinv].
    destruct (AnyBody.to_string email) as [text|]; [|exact Hinv].
    destruct (negb (Regex.test _ _)); [exact Hinv|].
    destruct (existsb _ _); [exact Hinv|]. cbn [fst].
    intros key user. rewrite lookup_insert.
    case_decide as Hkey; [intros [= <-]; exact Hkey | apply Hinv].
  - rewrite any_put_user_run. cbv zeta.
    destruct (users !! userId) as [existing|] eqn:Hstored; [|exact Hinv].
    assert (Hstore : AnyBody.keyed_by_id
                       (<[userId := AnyBody.updatedUser body existing]> users)).
    { intros key user. rewrite lookup_insert.
      case_decide as Hkey; [|apply Hinv].
      intros [= <-]. cbn. rewrite <- Hkey. apply Hinv. assumption. }
    destruct (negb _ && negb _); [exact Hinv|].
    destruct (AnyBody.narrow (AnyBody.body_email _)) as [e|]; [|exact Hstore].
    destruct (AnyBody.to_string e) as [text|]; [|exact Hinv].
    destruct (negb (Regex.test _ _)); [exact Hinv|].
    destruct (existsb _ _); [exact Hinv | exact Hstore].
  - rewrite any_delete_user_run.
    destruct (users !! userId) as [user|]; [|exact Hinv]. cbn [fst].
    intros key user'. rewrite lookup_delete.
    case_decide; [discriminate | apply Hinv].
Qed.

(** The half of the invariant that holds whatever the bodies are: in every
    reachable state of the Map each user sits under its own id. *)
Lemma any_reachable_keyed_by_id users :
  AnyBody.reachable users -> AnyBody.keyed_by_id users.
Proof.
  induction 1 as [|users users' _ IH Hstep].
  - intros key user. rewrite lookup_empty. discriminate.
  - eapply any_step_keyed_by_id; eassumption.
Qed.

End AnyBodyFacts.

Lemma ann_string_not_refused : ~ AnyBody.refused AnyBody.ann_string ∅.
Proof.
  intros [H | [H | [(e & t & [= <-] & [= <-] & Ht)
                   | (key & user & e & Hlookup & _)]]];
    discriminate.
Qed.

Lemma post_users_on_any_body_witness :
  let ann :=
    AnyBody.mkUser (JS.lit "u1") (AnyBody.Str (JS.lit "Ann"))
      (AnyBody.Str (JS.lit "ann@example.com")) 1 in
  let result :=
    AnyBody.post_users (JS.lit "u1") 1 (Some (JS.lit "t-1")) AnyBody.ann_string ∅ in
  snd result = AnyBody.Sent (AnyBody.created (Some (JS.lit "t-1")) ann)
  /\ fst result !! JS.lit "u1" = Some ann
  /\ size (fst result) = 1.
Proof.
  intros ann result.
  destruct (post_users_on_any_body (JS.lit "u1") 1 (Some (JS.lit "t-1"))
              AnyBody.ann_string ∅) as (_ & _ & Hok).
  - intros email [= <-]. reflexivity.
  - destruct (Hok ann_string_not_refused)
      as (email & name & [= <-] & [= <-] & Hsent & Hstored & _ & Hsize).
    split; [exact Hsent|]. split; [exact Hstored|].
    apply Hsize. reflexivity.
Defined.

(** C3 as it was stated fails, both ways. After [ann_array] was posted
    once, a stored user has the email of [ann_array], and neither field is
    missing or empty, yet a second POST of [ann_array] is answered 201: the
    handler compares the emails with [===], which holds for no two arrays.
    And [ann_false] has a name that is neither missing nor empty, an email
    that matches and that nobody has, yet POST throws
    [BadRequestException]: [!name] is true of [false]. *)
Lemma post_users_claim_fails :
  (AnyBody.refused_as_claimed AnyBody.ann_array AnyBody.ann_once
   /\ snd (AnyBody.post_users (JS.lit "u2") 2 None AnyBody.ann_array
             AnyBody.ann_once)
      = AnyBody.Sent
          (AnyBody.created None
             (AnyBody.mkUser (JS.lit "u2") (AnyBody.Str (JS.lit "Ann"))
                (AnyBody.Arr [AnyBody.Str (JS.lit "ann@example.com")]) 2))
   /\ ~ AnyBody.throws_BadRequestException
          (snd (AnyBody.post_users (JS.lit "u2") 2 None AnyBody.ann_array
                  AnyBody.ann_once)))
  /\ (~ AnyBody.refused_as_claimed AnyBody.ann_false ∅
      /\ AnyBody.throws_BadRequestException
           (snd (AnyBody.post_users (JS.lit "u3") 3 None AnyBody.ann_false ∅))).
Proof.
  assert (Hsecond :
            snd (AnyBody.post_users (JS.lit "u2") 2 None AnyBody.ann_array
                   AnyBody.ann_once)
            = AnyBody.Sent
                (AnyBody.created None
                   (AnyBody.mkUser (JS.lit "u2") (AnyBody.Str (JS.lit "Ann"))
                      (AnyBody.Arr [AnyBody.Str (JS.lit "ann@example.com")]) 2)))
    by reflexivity.
  split; [split; [|split] | split].
  - right; right; right.
    exists (JS.lit "u1"),
      (AnyBody.mkUser (JS.lit "u1") (AnyBody.Str (JS.lit "Ann"))
         (AnyBody.Arr [AnyBody.Str (JS.lit "ann@example.com")]) 1).
    split; reflexivity.
  - exact Hsecond.
  - rewrite Hsecond. intros (error & Hsent & _). discriminate.
  - unfold AnyBody.refused_as_claimed. cbn [AnyBody.ann_false AnyBody.body_email AnyBody.body_name].
    intros [[H|H] | [[H|H] | [(e & He & Hno)
                             | (key & user & Hlookup & _)]]].
    + discriminate H.
    + discriminate H.
    + discriminate H.
    + discriminate H.
    + injection He as <-.
      assert (Htest : Regex.test Regex.emailRegex (JS.lit "ann@example.com")
                      = false) by (apply Hno; reflexivity).
      vm_compute in Htest. discriminate Htest.
    + rewrite lookup_empty in Hlookup. discriminate Hlookup.
  - eexists. split; reflexivity.
Qed.

(** C4. Two POST /users requests with the body
    [{ email: ['ann@example.com'], name: 'Ann' }] are both answered 201:
    the array, as a string, matches [emailRegex], and [===] finds it
    identical to nothing stored. The Map so reached holds two users, under
    distinct keys, with the same email. *)
Theorem duplicate_array_emails :
  let email := AnyBody.Arr [AnyBody.Str (JS.lit "ann@example.com")] in
  let ann1 := AnyBody.mkUser (JS.lit "u1") (AnyBody.Str (JS.lit "Ann")) email 1 in
  let ann2 := AnyBody.mkUser (JS.lit "u2") (AnyBody.Str (JS.lit "Ann")) email 2 in
  AnyBody.post_users (JS.lit "u1") 1 None AnyBody.ann_array ∅
  = (AnyBody.ann_once, AnyBody.Sent (AnyBody.created None ann1))
  /\ AnyBody.post_users (JS.lit "u2") 2 None AnyBody.ann_array AnyBody.ann_once
     = (AnyBody.ann_twice, AnyBody.Sent (AnyBody.created None ann2))
  /\ AnyBody.reachable AnyBody.ann_twice
  /\ AnyBody.ann_twice !! JS.lit "u1" = Some ann1
  /\ AnyBody.ann_twice !! JS.lit "u2" = Some ann2
  /\ AnyBody.email ann1 = AnyBody.email ann2
  /\ JS.lit "u1" <> JS.lit "u2"
  /\ ~ AnyBody.emails_unique AnyBody.ann_twice.
Proof.
  intros email ann1 ann2.
  assert (Hfirst : AnyBody.ann_twice !! JS.lit "u1" = Some ann1)
    by (vm_compute; reflexivity).
  assert (Hsecond : AnyBody.ann_twice !! JS.lit "u2" = Some ann2)
    by (vm_compute; reflexivity).
  assert (Hkeys : JS.lit "u1" <> JS.lit "u2") by discriminate.
  split; [vm_compute; reflexivity|].
  split; [vm_compute; reflexivity|].
  split.
  { eapply AnyBody.reachable_step;
      [eapply AnyBody.reachable_step; [apply AnyBody.reachable_empty|] |].
    - apply (AnyBody.step_post (JS.lit "u1") 1 None AnyBody.ann_array).
    - apply (AnyBody.step_post (JS.lit "u2") 2 None AnyBody.ann_array). }
  repeat split; try assumption.
  intros Hunique. apply Hkeys.
  apply (Hunique _ _ _ _ Hfirst Hsecond). reflexivity.
Qed.

Lemma any_put_user_refusals_witness :
  let ann :=
    AnyBody.mkUser (JS.lit "u1") (AnyBody.Str (JS.lit "Ann"))
      (AnyBody.Str (JS.lit "ann@example.com")) 1 in
  let users : gmap JS.jsstring AnyBody.User := <[JS.lit "u1" := ann]> ∅ in
  AnyBody.put_user None (JS.lit "u1")
    (AnyBody.mkBody (Some (AnyBody.Str (JS.lit "ann@"))) None) users
  = (users, AnyBody.Next AnyBody.invalid_email).
Proof.
  intros ann users.
  destruct (any_put_user_refusals None (JS.lit "u1")
              (AnyBody.mkBody (Some (AnyBody.Str (JS.lit "ann@"))) None)
              users ann eq_refl)
    as (_ & _ & Hinvalid & _).
  apply (Hinvalid (AnyBody.Str (JS.lit "ann@")) (JS.lit "ann@"));
    reflexivity.
Defined.

Lemma any_post_users_refusals_witness :
  AnyBody.post_users (JS.lit "u3") 3 None AnyBody.ann_false ∅
  = (∅, AnyBody.Next
          (Exceptions.BadRequestException
             (Some (JS.lit "Email y nombre son requeridos"))
             (Some (JS.JObj [(JS.lit "missing_fields",
                              JS.JArr [JS.JStr (JS.lit "name")])])))).
Proof.
  destruct (any_post_users_refusals (JS.lit "u3") 3 None AnyBody.ann_false ∅)
    as (Hmissing & _).
  apply Hmissing. right. reflexivity.
Defined.

Lemma any_post_same_email_twice_witness :
  let users' :=
    fst (AnyBody.post_users (JS.lit "u1") 1 None AnyBody.ann_string ∅) in
  fst (AnyBody.post_users (JS.lit "u2") 2 None AnyBody.ann_string users')
  = users'.
Proof.
  intros users'.
  apply (any_post_same_email_twice (JS.lit "u1") (JS.lit "u2") 1 2 None None
           AnyBody.ann_string AnyBody.ann_string ∅
           (JS.lit "ann@example.com") eq_refl eq_refl ann_string_not_refused).
Defined.

Lemma any_reachable_well_formed_witness :
  AnyBody.well_formed AnyBody.ann_twice.
Proof.
  apply any_reachable_well_formed.
  eapply AnyBody.reachable_step;
    [eapply AnyBody.reachable_step; [apply AnyBody.reachable_empty|] |].
  - apply (AnyBody.step_post (JS.lit "u1") 1 None AnyBody.ann_array).
  - apply (AnyBody.step_post (JS.lit "u2") 2 None AnyBody.ann_array).
Defined.
